(** * libfrr: option registration, option dispatch and control-socket path

    A shallow embedding of [lib/libfrr.c].  The file-scope variables of the
    C unit become one record of globals that is threaded through every
    function; a function either returns, leaves the process through
    [exit], or runs into behaviour that C leaves undefined (a write past
    one of the fixed-size arrays, a dereference of a null pointer).
    [frr_init], which only calls into the logging, privilege and signal
    collaborators, is not part of the development. *)

From Stdlib Require Import ZArith List String Ascii Bool Lia Permutation.
From Stdlib Require Import DecimalString.
Import ListNotations.

Local Open Scope string_scope.
Local Open Scope Z_scope.

(** ** Strings as the C code uses them *)

Definition nl : string := String "010"%char EmptyString.

(** The integer value of a character constant such as ['h']. *)
Definition chr (c : ascii) : Z := Z.of_N (N_of_ascii c).

(** [strrchr s c]: the suffix of [s] that starts at the last occurrence of
    [c], or [None] (the null pointer) when [c] does not occur. *)
Fixpoint strrchr (s : string) (c : ascii) : option string :=
  match s with
  | EmptyString => None
  | String a s' =>
      match strrchr s' c with
      | Some r => Some r
      | None => if Ascii.eqb a c then Some s else None
      end
  end.

(** [p + 1] for a pointer [p] into a string. *)
Definition ptr_succ (p : string) : string :=
  match p with
  | EmptyString => EmptyString
  | String _ r => r
  end.

(** The first [n] characters of [s]. *)
Fixpoint str_take (n : nat) (s : string) : string :=
  match n, s with
  | O, _ => EmptyString
  | S _, EmptyString => EmptyString
  | S n', String a s' => String a (str_take n' s')
  end.

(** [snprintf(buf, size, ...)] stores at most [size - 1] characters of the
    formatted text, followed by the terminator. *)
Definition snprintf (size : nat) (formatted : string) : string :=
  str_take (Nat.pred size) formatted.

(** Membership of a character in a string. *)
Fixpoint str_mem (c : ascii) (s : string) : bool :=
  match s with
  | EmptyString => false
  | String a s' => Ascii.eqb a c || str_mem c s'
  end.

Fixpoint str_repeat (c : ascii) (n : nat) : string :=
  match n with
  | O => EmptyString
  | S n' => String c (str_repeat c n')
  end.

(** ** Data model *)

(** [struct option] of getopt.h.  An array of them ends with an entry whose
    name is null; the model keeps the entries before that sentinel. *)
Record struct_option := mk_option {
  name : string;
  has_arg : Z;
  flag : option Z;
  val : Z
}.

Definition no_argument : Z := 0.
Definition required_argument : Z := 1.

Record optspec := mk_optspec {
  optstr : string;
  helpstr : string;
  longopts : list struct_option
}.

(** The two fields of [struct zebra_privs_t] that this unit writes. *)
Record zebra_privs_t := mk_privs {
  user : option string;
  group : option string
}.

Inductive FILE := stdout | stderr.

(** [struct frr_daemon_info], the fields this unit reads or writes.  A
    [char *] that may be null is an [option string]; [printhelp] is the
    text the daemon's own renderer writes to the stream it is handed. *)
Record frr_daemon_info := mk_di {
  flags : Z;
  progname : string;
  proghelp : string;
  copyright : option string;
  printhelp : option (FILE -> string);
  vty_addr : option string;
  vty_port : Z;
  vty_sock_path : option string;
  privs : option zebra_privs_t
}.

(** One result of the C library's [getopt_long]: the code it returns, the
    value it leaves in [optarg], and the index it stores through its last
    argument when a long option matched. *)
Record getopt_result := mk_getopt {
  g_opt : Z;
  g_optarg : option string;
  g_lidx : option Z
}.

(** One call of the collaborator [vty_serv_sock(addr, port, path)]. *)
Record vty_serv_call := mk_serv {
  serv_addr : option string;
  serv_port : Z;
  serv_path : string
}.

(** The file-scope state of the unit, the part of the C library's state it
    observes, and what the process has written and called so far.
    [comb_lo] holds the slots filled so far, so [comb_next_lo] is
    [&comb_lo[length comb_lo]].  [getopt_pending] is the scanner's position:
    the results the coming calls of [getopt_long] yield for this argv and
    this combined table; once it is empty [getopt_long] returns [-1]. *)
Record globals := mk_globals {
  comb_optstr : string;
  comb_lo : list struct_option;
  comb_helpstr : string;
  di : option frr_daemon_info;
  errors : Z;
  vty_port_set : Z;
  vty_addr_set : Z;
  getopt_pending : list getopt_result;
  stdout_buf : string;
  stderr_buf : string;
  umask_mode : Z;
  vty_serv_calls : list vty_serv_call
}.

Definition COMB_OPTSTR_SIZE : nat := 256.
Definition COMB_LO_SIZE : nat := 64.
Definition COMB_HELPSTR_SIZE : nat := 4096.

(** The state at process start: static storage is zero-initialised. *)
Definition initial_globals (pending : list getopt_result) : globals :=
  mk_globals "" [] "" None 0 0 0 pending "" "" 0 [].

Definition set_comb_optstr (v : string) (g : globals) : globals :=
  mk_globals v (comb_lo g) (comb_helpstr g) (di g) (errors g)
    (vty_port_set g) (vty_addr_set g) (getopt_pending g) (stdout_buf g)
    (stderr_buf g) (umask_mode g) (vty_serv_calls g).

Definition set_comb_lo (v : list struct_option) (g : globals) : globals :=
  mk_globals (comb_optstr g) v (comb_helpstr g) (di g) (errors g)
    (vty_port_set g) (vty_addr_set g) (getopt_pending g) (stdout_buf g)
    (stderr_buf g) (umask_mode g) (vty_serv_calls g).

Definition set_comb_helpstr (v : string) (g : globals) : globals :=
  mk_globals (comb_optstr g) (comb_lo g) v (di g) (errors g)
    (vty_port_set g) (vty_addr_set g) (getopt_pending g) (stdout_buf g)
    (stderr_buf g) (umask_mode g) (vty_serv_calls g).

Definition set_di (v : option frr_daemon_info) (g : globals) : globals :=
  mk_globals (comb_optstr g) (comb_lo g) (comb_helpstr g) v (errors g)
    (vty_port_set g) (vty_addr_set g) (getopt_pending g) (stdout_buf g)
    (stderr_buf g) (umask_mode g) (vty_serv_calls g).

Definition set_errors (v : Z) (g : globals) : globals :=
  mk_globals (comb_optstr g) (comb_lo g) (comb_helpstr g) (di g) v
    (vty_port_set g) (vty_addr_set g) (getopt_pending g) (stdout_buf g)
    (stderr_buf g) (umask_mode g) (vty_serv_calls g).

Definition set_vty_port_set (v : Z) (g : globals) : globals :=
  mk_globals (comb_optstr g) (comb_lo g) (comb_helpstr g) (di g) (errors g)
    v (vty_addr_set g) (getopt_pending g) (stdout_buf g)
    (stderr_buf g) (umask_mode g) (vty_serv_calls g).

Definition set_vty_addr_set (v : Z) (g : globals) : globals :=
  mk_globals (comb_optstr g) (comb_lo g) (comb_helpstr g) (di g) (errors g)
    (vty_port_set g) v (getopt_pending g) (stdout_buf g)
    (stderr_buf g) (umask_mode g) (vty_serv_calls g).

Definition set_getopt_pending (v : list getopt_result) (g : globals)
  : globals :=
  mk_globals (comb_optstr g) (comb_lo g) (comb_helpstr g) (di g) (errors g)
    (vty_port_set g) (vty_addr_set g) v (stdout_buf g)
    (stderr_buf g) (umask_mode g) (vty_serv_calls g).

Definition set_stdout_buf (v : string) (g : globals) : globals :=
  mk_globals (comb_optstr g) (comb_lo g) (comb_helpstr g) (di g) (errors g)
    (vty_port_set g) (vty_addr_set g) (getopt_pending g) v
    (stderr_buf g) (umask_mode g) (vty_serv_calls g).

Definition set_stderr_buf (v : string) (g : globals) : globals :=
  mk_globals (comb_optstr g) (comb_lo g) (comb_helpstr g) (di g) (errors g)
    (vty_port_set g) (vty_addr_set g) (getopt_pending g) (stdout_buf g)
    v (umask_mode g) (vty_serv_calls g).

Definition set_umask_mode (v : Z) (g : globals) : globals :=
  mk_globals (comb_optstr g) (comb_lo g) (comb_helpstr g) (di g) (errors g)
    (vty_port_set g) (vty_addr_set g) (getopt_pending g) (stdout_buf g)
    (stderr_buf g) v (vty_serv_calls g).

Definition set_vty_serv_calls (v : list vty_serv_call) (g : globals)
  : globals :=
  mk_globals (comb_optstr g) (comb_lo g) (comb_helpstr g) (di g) (errors g)
    (vty_port_set g) (vty_addr_set g) (getopt_pending g) (stdout_buf g)
    (stderr_buf g) (umask_mode g) v.

Definition set_progname (v : string) (d : frr_daemon_info)
  : frr_daemon_info :=
  mk_di (flags d) v (proghelp d) (copyright d) (printhelp d) (vty_addr d)
    (vty_port d) (vty_sock_path d) (privs d).

Definition set_vty_addr (v : option string) (d : frr_daemon_info)
  : frr_daemon_info :=
  mk_di (flags d) (progname d) (proghelp d) (copyright d) (printhelp d) v
    (vty_port d) (vty_sock_path d) (privs d).

Definition set_vty_port (v : Z) (d : frr_daemon_info) : frr_daemon_info :=
  mk_di (flags d) (progname d) (proghelp d) (copyright d) (printhelp d)
    (vty_addr d) v (vty_sock_path d) (privs d).

Definition set_vty_sock_path (v : option string) (d : frr_daemon_info)
  : frr_daemon_info :=
  mk_di (flags d) (progname d) (proghelp d) (copyright d) (printhelp d)
    (vty_addr d) (vty_port d) v (privs d).

Definition set_privs (v : option zebra_privs_t) (d : frr_daemon_info)
  : frr_daemon_info :=
  mk_di (flags d) (progname d) (proghelp d) (copyright d) (printhelp d)
    (vty_addr d) (vty_port d) (vty_sock_path d) v.

Definition set_user (v : option string) (p : zebra_privs_t) : zebra_privs_t :=
  mk_privs v (group p).

Definition set_group (v : option string) (p : zebra_privs_t)
  : zebra_privs_t :=
  mk_privs (user p) v.

(** ** Control flow: return, exit, undefined behaviour *)

Inductive result (A : Type) : Type :=
| Return (a : A) (g : globals)
| Exit (status : Z) (g : globals)
| Undefined.

Arguments Return {A} a g.
Arguments Exit {A} status g.
Arguments Undefined {A}.

Definition M (A : Type) : Type := globals -> result A.

Definition ret {A} (a : A) : M A := fun g => Return a g.

Definition bind {A B} (m : M A) (k : A -> M B) : M B :=
  fun g =>
    match m g with
    | Return a g' => k a g'
    | Exit status g' => Exit status g'
    | Undefined => Undefined
    end.

Notation "x <- m ;; k" := (bind m (fun x => k))
  (at level 61, m at next level, right associativity).
Notation "m ;;; k" := (bind m (fun _ => k))
  (at level 61, right associativity).

Definition get : M globals := fun g => Return g g.
Definition modify (f : globals -> globals) : M unit :=
  fun g => Return tt (f g).
Definition undefined {A} : M A := fun _ => Undefined.
Definition exit {A} (status : Z) : M A := fun g => Exit status g.

(** [di->...]: the dereference of the file-scope descriptor pointer. *)
Definition deref_di : M frr_daemon_info :=
  fun g =>
    match di g with
    | Some d => Return d g
    | None => Undefined
    end.

Definition update_di (f : frr_daemon_info -> frr_daemon_info) : M unit :=
  d <- deref_di ;; modify (set_di (Some (f d))).

Definition fprintf (target : FILE) (text : string) : M unit :=
  match target with
  | stdout => modify (fun g => set_stdout_buf (stdout_buf g ++ text) g)
  | stderr => modify (fun g => set_stderr_buf (stderr_buf g ++ text) g)
  end.

(** ** The C library's [strtoul], base 0

    After optional white space and an optional sign, a [0x]/[0X] prefix
    followed by a hexadecimal digit selects base 16, a leading [0] base 8,
    anything else base 10.  The digits of that base are consumed; a value
    above [ULONG_MAX] is clamped to it, a minus sign negates the value as an
    [unsigned long].  The second component is the text the end pointer is
    left at: the whole input when no digit was consumed. *)

Definition ULONG_MAX : Z := 2 ^ 64 - 1.

Definition isspace (c : ascii) : bool :=
  let n := chr c in (n =? 32) || ((9 <=? n) && (n <=? 13)).

Definition digit_value (c : ascii) : option Z :=
  let n := chr c in
  if (48 <=? n) && (n <=? 57) then Some (n - 48)
  else if (97 <=? n) && (n <=? 122) then Some (n - 97 + 10)
  else if (65 <=? n) && (n <=? 90) then Some (n - 65 + 10)
  else None.

Definition digit_in (base : Z) (c : ascii) : option Z :=
  match digit_value c with
  | Some d => if d <? base then Some d else None
  | None => None
  end.

Fixpoint skip_space (s : string) : string :=
  match s with
  | String a s' => if isspace a then skip_space s' else s
  | EmptyString => s
  end.

Fixpoint scan_digits (base : Z) (s : string) (acc : Z) (any : bool)
  : Z * bool * string :=
  match s with
  | String a s' =>
      match digit_in base a with
      | Some d => scan_digits base s' (acc * base + d) true
      | None => (acc, any, s)
      end
  | EmptyString => (acc, any, s)
  end.

Definition strtoul_sign (s : string) : bool * string :=
  match s with
  | String "-" r => (true, r)
  | String "+" r => (false, r)
  | _ => (false, s)
  end.

Definition strtoul_base (s : string) : Z * string :=
  match s with
  | String "0" (String x (String h r)) =>
      if (Ascii.eqb x "x" || Ascii.eqb x "X")
         && match digit_in 16 h with Some _ => true | None => false end
      then (16, String h r)
      else (8, s)
  | String "0" _ => (8, s)
  | _ => (10, s)
  end.

Definition strtoul (nptr : string) : Z * string :=
  let (neg, s2) := strtoul_sign (skip_space nptr) in
  let (base, s3) := strtoul_base s2 in
  match scan_digits base s3 0 false with
  | (v, any, rest) =>
      if any then
        ((if v >? ULONG_MAX then ULONG_MAX
          else if neg then (- v) mod 2 ^ 64 else v), rest)
      else (0, nptr)
  end.

(** [*err || !*optarg] for [err] left by [strtoul(optarg, &err, 0)]. *)
Definition port_text_invalid (optarg : string) : bool :=
  negb (String.eqb (snd (strtoul optarg)) "") || String.eqb optarg "".

(** A reading of the specification's "unsigned integer": a non-empty run
    of decimal digits.  It is compared with [port_text_invalid] below. *)
Definition is_decimal_digit (c : ascii) : bool :=
  (48 <=? chr c) && (chr c <=? 57).

Fixpoint all_decimal_digits (s : string) : bool :=
  match s with
  | EmptyString => true
  | String a s' => is_decimal_digit a && all_decimal_digits s'
  end.

Definition spec_unsigned_integer (s : string) : bool :=
  negb (String.eqb s "") && all_decimal_digits s.

(** ** The fragments compiled into the library *)

Definition OPTION_VTYSOCK : Z := 1000.

Definition lo_always : list struct_option :=
  [ mk_option "help" no_argument None (chr "h");
    mk_option "version" no_argument None (chr "v");
    mk_option "vty_socket" required_argument None OPTION_VTYSOCK ].

Definition os_always : optspec :=
  mk_optspec "hv"
    ("  -h, --help         Display this help and exit" ++ nl ++
     "  -v, --version      Print program version" ++ nl ++
     "      --vty_socket   Override vty socket path" ++ nl)
    lo_always.

Definition lo_vty : list struct_option :=
  [ mk_option "vty_addr" required_argument None (chr "A");
    mk_option "vty_port" required_argument None (chr "P") ].

Definition os_vty : optspec :=
  mk_optspec "A:P:"
    ("  -A, --vty_addr     Set vty's bind address" ++ nl ++
     "  -P, --vty_port     Set vty's port number" ++ nl)
    lo_vty.

Definition lo_user : list struct_option :=
  [ mk_option "user" required_argument None (chr "u");
    mk_option "group" required_argument None (chr "g") ].

Definition os_user : optspec :=
  mk_optspec "u:g:"
    ("  -u, --user         User to run as" ++ nl ++
     "  -g, --group        Group to run as" ++ nl)
    lo_user.

(** ** Registration *)

(** [strcat(dst, src)] into an array of [size] bytes writes the characters
    of both strings and the terminator; past the array it is undefined. *)
Definition strcat (size : nat) (dst src : string) : option string :=
  if (String.length dst + String.length src + 1 <=? size)%nat
  then Some (dst ++ src)
  else None.

(** The loop of [opt_extend]: one [memcpy] to [comb_next_lo++] per entry,
    undefined once [comb_next_lo] is past the last slot. *)
Fixpoint copy_longopts (lo : list struct_option) : M unit :=
  match lo with
  | [] => ret tt
  | o :: rest =>
      g <- get ;;
      if (List.length (comb_lo g) <? COMB_LO_SIZE)%nat
      then modify (set_comb_lo (comb_lo g ++ [o])) ;;; copy_longopts rest
      else undefined
  end.

Definition opt_extend (os : optspec) : M unit :=
  g <- get ;;
  match strcat COMB_OPTSTR_SIZE (comb_optstr g) (optstr os) with
  | None => undefined
  | Some s =>
      modify (set_comb_optstr s) ;;;
      match strcat COMB_HELPSTR_SIZE (comb_helpstr g) (helpstr os) with
      | None => undefined
      | Some h =>
          modify (set_comb_helpstr h) ;;;
          copy_longopts (longopts os)
      end
  end.

Definition frr_opt_add (optstr : string) (longopts : list struct_option)
    (helpstr : string) : M unit :=
  let main_opts := mk_optspec optstr helpstr longopts in
  opt_extend main_opts.

(** Registering a list of fragments one after the other. *)
Fixpoint register_all (l : list optspec) : M unit :=
  match l with
  | [] => ret tt
  | os :: rest => opt_extend os ;;; register_all rest
  end.

Definition dquote : string := String "034"%char EmptyString.

Section Libfrr.

(** Constants and collaborators declared outside this unit: the two
    feature-flag masks of libfrr.h, [MAXPATHLEN] of the system headers, the
    bug-report address of the build configuration, the text that
    [print_version] prints for a program name, and the conversion from
    [unsigned long] to the type of the [vty_port] field. *)
Variables FRR_NO_PRIVSEP FRR_NO_TCPVTY : Z.
Variable MAXPATHLEN : nat.
Variable FRR_BUG_ADDRESS : string.
Variable version_text : string -> string.
Variable port_of_ulong : Z -> Z.

(** Modelled from the spec: [print_version] of lib/command.c is not part of
    this unit; it "prints the program identifier/version" and its output
    goes to standard output. *)
Definition print_version (progname : string) : M unit :=
  fprintf stdout (version_text progname).

Definition frr_preinit (daemon : frr_daemon_info) (argc : Z)
    (argv : list string) : M unit :=
  modify (set_di (Some daemon)) ;;;
  match argv with
  | [] => undefined
  | argv0 :: _ =>
      let p := strrchr argv0 "/" in
      update_di (set_progname
                   match p with Some p' => ptr_succ p' | None => argv0 end) ;;;
      modify (set_umask_mode 23) ;;;
      opt_extend os_always ;;;
      d <- deref_di ;;
      (if Z.land (flags d) FRR_NO_PRIVSEP =? 0
       then opt_extend os_user else ret tt) ;;;
      d' <- deref_di ;;
      (if Z.land (flags d') FRR_NO_TCPVTY =? 0
       then opt_extend os_vty else ret tt)
  end.

(** ** Help

    [frr_help_exit(status)]: the text goes to [stdout] for status 0 and to
    [stderr] otherwise, and the function does not return. *)

Definition usage_text (d : frr_daemon_info) (helpstr : string) : string :=
  "Usage: " ++ progname d ++ " [OPTION...]" ++ nl ++ nl ++
  proghelp d ++
  (match copyright d with Some _ => nl ++ nl | None => "" end) ++
  (match copyright d with Some c => c | None => "" end) ++
  nl ++ nl ++ helpstr.

Definition bug_footer : string :=
  nl ++ "Report bugs to " ++ FRR_BUG_ADDRESS ++ nl.

Definition frr_help_exit {A} (status : Z) : M A :=
  let target := if status =? 0 then stdout else stderr in
  (if negb (status =? 0)
   then fprintf stderr ("Invalid options." ++ nl ++ nl) else ret tt) ;;;
  d <- deref_di ;;
  g <- get ;;
  match printhelp d with
  | Some render => fprintf target (render target)
  | None => fprintf target (usage_text d (comb_helpstr g))
  end ;;;
  fprintf target bug_footer ;;;
  exit status.

(** ** Option dispatch *)

(** [errors++].  The counter is a C [int]; it grows by at most one for
    each result of the scanner, so no argv brings it near [INT_MAX], and it
    is kept as an integer without a bound. *)
Definition incr_errors : M unit :=
  modify (fun g => set_errors (errors g + 1) g).

(** [frr_opt(opt)], with the value of the global [optarg] that the
    preceding [getopt_long] call left as a second argument. *)
Definition frr_opt (opt : Z) (optarg : option string) : M Z :=
  if opt =? chr "h" then
    frr_help_exit (A := unit) 0 ;;; ret 0
  else if opt =? chr "v" then
    d <- deref_di ;;
    print_version (progname d) ;;;
    exit (A := unit) 0 ;;; ret 0
  else if opt =? chr "A" then
    d <- deref_di ;;
    if negb (Z.land (flags d) FRR_NO_TCPVTY =? 0) then ret 1
    else
      g <- get ;;
      if negb (vty_addr_set g =? 0) then
        fprintf stderr ("-A option specified more than once!" ++ nl) ;;;
        incr_errors ;;; ret 0
      else
        modify (set_vty_addr_set 1) ;;;
        update_di (set_vty_addr optarg) ;;; ret 0
  else if opt =? chr "P" then
    d <- deref_di ;;
    if negb (Z.land (flags d) FRR_NO_TCPVTY =? 0) then ret 1
    else
      g <- get ;;
      if negb (vty_port_set g =? 0) then
        fprintf stderr ("-P option specified more than once!" ++ nl) ;;;
        incr_errors ;;; ret 0
      else
        modify (set_vty_port_set 1) ;;;
        match optarg with
        | None => undefined
        | Some text =>
            update_di (set_vty_port (port_of_ulong (fst (strtoul text)))) ;;;
            if port_text_invalid text then
              fprintf stderr ("invalid port number " ++ dquote ++ text ++
                              dquote ++ " for -P option" ++ nl) ;;;
              incr_errors ;;; ret 0
            else ret 0
        end
  else if opt =? OPTION_VTYSOCK then
    d <- deref_di ;;
    match vty_sock_path d with
    | Some _ =>
        fprintf stderr ("--vty_socket option specified more than once!" ++ nl) ;;;
        incr_errors ;;; ret 0
    | None => update_di (set_vty_sock_path optarg) ;;; ret 0
    end
  else if opt =? chr "u" then
    d <- deref_di ;;
    if negb (Z.land (flags d) FRR_NO_PRIVSEP =? 0) then ret 1
    else
      match privs d with
      | None => undefined
      | Some p => update_di (set_privs (Some (set_user optarg p))) ;;; ret 0
      end
  else if opt =? chr "g" then
    d <- deref_di ;;
    if negb (Z.land (flags d) FRR_NO_PRIVSEP =? 0) then ret 1
    else
      match privs d with
      | None => undefined
      | Some p => update_di (set_privs (Some (set_group optarg p))) ;;; ret 0
      end
  else ret 1.

(** [getopt_long(argc, argv, comb_optstr, comb_lo, &lidx)]. *)
Definition getopt_long : M getopt_result :=
  fun g =>
    match getopt_pending g with
    | [] => Return (mk_getopt (-1) None None) g
    | r :: rest => Return r (set_getopt_pending rest g)
    end.

(** The [do ... while (opt != -1)] loop of [frr_getopt], by recursion on
    the results the scanner still has to yield.  It returns the last code
    and the last index the scanner stored in [lidx]. *)
Fixpoint frr_getopt_loop (pending : list getopt_result) (lidx : option Z)
  : M (Z * option Z) :=
  match pending with
  | [] =>
      r <- getopt_long ;;
      _ <- frr_opt (g_opt r) (g_optarg r) ;;
      ret (g_opt r, lidx)
  | _ :: rest =>
      r <- getopt_long ;;
      let lidx' := match g_lidx r with Some i => Some i | None => lidx end in
      handled <- frr_opt (g_opt r) (g_optarg r) ;;
      if negb (handled =? 0) then ret (g_opt r, lidx')
      else if g_opt r =? -1 then ret (g_opt r, lidx')
      else frr_getopt_loop rest lidx'
  end.

(** [frr_getopt].  Its [argc] and [argv] only travel on to [getopt_long],
    whose results for them are [getopt_pending].  [longindex] tells whether
    the caller passed a non-null pointer, and the second component of the
    result is what was stored through it.  The first statement writes the
    sentinel at [comb_next_lo], which is past the array once all 64 slots
    are in use. *)
Definition frr_getopt (longindex : bool) : M (Z * option Z) :=
  g <- get ;;
  (if (List.length (comb_lo g) <? COMB_LO_SIZE)%nat
   then ret tt else undefined) ;;;
  r <- frr_getopt_loop (getopt_pending g) None ;;
  g' <- get ;;
  (if (fst r =? -1) && negb (errors g' =? 0)
   then frr_help_exit 1 else ret tt) ;;;
  ret (fst r, if longindex then snd r else None).

(** ** Control socket *)

Definition vty_serv_sock (addr : option string) (port : Z) (path : string)
  : M unit :=
  modify (fun g =>
    set_vty_serv_calls (vty_serv_calls g ++ [mk_serv addr port path]) g).

Definition frr_vty_serv (path : string) : M unit :=
  d <- deref_di ;;
  match vty_sock_path d with
  | Some dir =>
      let name :=
        match strrchr path "/" with
        | Some p => ptr_succ p
        | None => path
        end in
      let newpath := snprintf MAXPATHLEN (dir ++ "/" ++ name) in
      vty_serv_sock (vty_addr d) (vty_port d) newpath
  | None => vty_serv_sock (vty_addr d) (vty_port d) path
  end.

(** ** Specification-side vocabulary *)

(** What [opt_extend os] leaves in the combined buffers when nothing is
    written past them. *)
Definition append_fragment (os : optspec) (g : globals) : globals :=
  set_comb_lo (comb_lo g ++ longopts os)
    (set_comb_helpstr (comb_helpstr g ++ helpstr os)
       (set_comb_optstr (comb_optstr g ++ optstr os) g)).

(** The fragment fits: both strings with their terminator and all long
    options find room in the arrays. *)
Definition fits (os : optspec) (g : globals) : bool :=
  ((String.length (comb_optstr g) + String.length (optstr os) + 1
      <=? COMB_OPTSTR_SIZE)
   && (String.length (comb_helpstr g) + String.length (helpstr os) + 1
      <=? COMB_HELPSTR_SIZE)
   && (List.length (comb_lo g) + List.length (longopts os)
      <=? COMB_LO_SIZE))%nat.

(** The combined buffers hold properly terminated contents. *)
Definition within_capacity (g : globals) : Prop :=
  (String.length (comb_optstr g) + 1 <= COMB_OPTSTR_SIZE
   /\ String.length (comb_helpstr g) + 1 <= COMB_HELPSTR_SIZE
   /\ List.length (comb_lo g) <= COMB_LO_SIZE)%nat.

Fixpoint total_optstr (l : list optspec) : nat :=
  match l with
  | [] => 0
  | os :: rest => String.length (optstr os) + total_optstr rest
  end.

Fixpoint total_helpstr (l : list optspec) : nat :=
  match l with
  | [] => 0
  | os :: rest => String.length (helpstr os) + total_helpstr rest
  end.

Fixpoint total_longopts (l : list optspec) : nat :=
  match l with
  | [] => 0
  | os :: rest => List.length (longopts os) + total_longopts rest
  end.

Definition all_fit (l : list optspec) (g : globals) : Prop :=
  (String.length (comb_optstr g) + total_optstr l + 1 <= COMB_OPTSTR_SIZE
   /\ String.length (comb_helpstr g) + total_helpstr l + 1
      <= COMB_HELPSTR_SIZE
   /\ List.length (comb_lo g) + total_longopts l <= COMB_LO_SIZE)%nat.

Definition append_all (l : list optspec) (g : globals) : globals :=
  fold_left (fun acc os => append_fragment os acc) l g.

(** The fragments [frr_preinit] registers for a flag word. *)
Definition preinit_fragments (fl : Z) : list optspec :=
  os_always
  :: (if Z.land fl FRR_NO_PRIVSEP =? 0 then [os_user] else [])
  ++ (if Z.land fl FRR_NO_TCPVTY =? 0 then [os_vty] else []).

(** The final path segment: [strrchr(path, '/')] plus one, or the path. *)
Definition last_segment (path : string) : string :=
  match strrchr path "/" with
  | Some p => ptr_succ p
  | None => path
  end.

(** What [frr_help_exit(status)] writes to its target stream. *)
Definition help_text (target : FILE) (d : frr_daemon_info) (g : globals)
  : string :=
  match printhelp d with
  | Some render => render target
  | None => usage_text d (comb_helpstr g)
  end ++ bug_footer.

(** The state after the first [-P]: the flag is raised and the converted
    [strtoul] result stored before the text is judged. *)
Definition port_stored (text : string) (d : frr_daemon_info) (g : globals)
  : globals :=
  set_di (Some (set_vty_port (port_of_ulong (fst (strtoul text))) d))
    (set_vty_port_set 1 g).

Definition port_rejected (text : string) (d : frr_daemon_info) (g : globals)
  : globals :=
  set_errors (errors g + 1)
    (set_stderr_buf
       (stderr_buf g ++ "invalid port number " ++ dquote ++ text ++ dquote
        ++ " for -P option" ++ nl)
       (port_stored text d g)).

(** The codes the dispatcher has a [case] for. *)
Definition dispatcher_codes : list Z :=
  [chr "h"; chr "v"; chr "A"; chr "P"; OPTION_VTYSOCK; chr "u"; chr "g"].

(** ** The scan: vocabulary *)

(** The options that must appear at most once. *)
Definition single_valued (c : Z) : bool :=
  (c =? chr "A") || (c =? chr "P") || (c =? OPTION_VTYSOCK).

(** What the dispatcher tests to tell a repeated occurrence: the two
    function-local flags and the descriptor's socket path. *)
Definition already_set (c : Z) (g : globals) : bool :=
  if c =? chr "A" then negb (vty_addr_set g =? 0)
  else if c =? chr "P" then negb (vty_port_set g =? 0)
  else if c =? OPTION_VTYSOCK then
    match di g with
    | Some d => match vty_sock_path d with Some _ => true | None => false end
    | None => false
    end
  else false.

(** A scanner result that the dispatcher consumes, so that the scan goes
    on: a value-taking option of the built-in fragments with its value,
    the feature it belongs to enabled. *)
Definition consumed (d : frr_daemon_info) (r : getopt_result) : bool :=
  match g_optarg r with
  | None => false
  | Some _ =>
      (((g_opt r =? chr "A") || (g_opt r =? chr "P"))
       && (Z.land (flags d) FRR_NO_TCPVTY =? 0))
      || (g_opt r =? OPTION_VTYSOCK)
      || (((g_opt r =? chr "u") || (g_opt r =? chr "g"))
          && (Z.land (flags d) FRR_NO_PRIVSEP =? 0)
          && match privs d with Some _ => true | None => false end)
  end.

Definition count_code (c : Z) (l : list getopt_result) : nat :=
  List.length (filter (fun r => g_opt r =? c) l).

(** Every port value among the results is one the port option accepts. *)
Definition ports_valid (l : list getopt_result) : Prop :=
  forall r text,
    In r l -> g_opt r = chr "P" -> g_optarg r = Some text ->
    port_text_invalid text = false.

(** One turn of the loop on a consumed result: the scanner moves on and the
    dispatcher runs. *)
Definition dispatch_one (g : globals) (r : getopt_result) : globals :=
  match frr_opt (g_opt r) (g_optarg r)
          (set_getopt_pending (tl (getopt_pending g)) g) with
  | Return _ g' => g'
  | _ => g
  end.

Definition dispatch_all (l : list getopt_result) (g : globals) : globals :=
  fold_left dispatch_one l g.

Definition last_lidx (l : list getopt_result) (lidx : option Z) : option Z :=
  fold_left (fun acc r =>
               match g_lidx r with Some i => Some i | None => acc end)
    l lidx.

(** The parts of the descriptor and of the globals that option handlers
    leave alone. *)
Definition same_static (d d' : frr_daemon_info) : Prop :=
  flags d' = flags d /\ progname d' = progname d
  /\ proghelp d' = proghelp d /\ copyright d' = copyright d
  /\ printhelp d' = printhelp d
  /\ (privs d' = None <-> privs d = None).

Definition same_frame (g g' : globals) : Prop :=
  comb_optstr g' = comb_optstr g /\ comb_lo g' = comb_lo g
  /\ comb_helpstr g' = comb_helpstr g
  /\ getopt_pending g' = getopt_pending g
  /\ stdout_buf g' = stdout_buf g.

(** ** Concrete states used in the examples *)

(** A descriptor as a daemon hands it to [frr_preinit]: all features
    enabled, nothing set. *)
Definition example_daemon : frr_daemon_info :=
  mk_di 0 "" "Example daemon." None None None 0 None
    (Some (mk_privs None None)).

(** The descriptor and the globals after
    [frr_preinit(&example_daemon, 1, {"/usr/sbin/zebra"})] at process start,
    with the given scanner results pending. *)
Definition example_descriptor : frr_daemon_info :=
  set_progname "zebra" example_daemon.

Definition example_started (pending : list getopt_result) : globals :=
  append_all [os_always; os_user; os_vty]
    (set_umask_mode 23
       (set_di (Some example_descriptor) (initial_globals pending))).

Definition example_result (code : Z) (value : string) : getopt_result :=
  mk_getopt code (Some value) None.

(** ** Further vocabulary *)

(** The concatenation of a list of strings, first to last. *)
Definition concat_strings (l : list string) : string :=
  fold_right append "" l.

(** Everything of the globals except the three combined buffers. *)
Definition same_outside_table (g g' : globals) : Prop :=
  di g' = di g /\ errors g' = errors g
  /\ vty_port_set g' = vty_port_set g /\ vty_addr_set g' = vty_addr_set g
  /\ getopt_pending g' = getopt_pending g
  /\ stdout_buf g' = stdout_buf g /\ stderr_buf g' = stderr_buf g
  /\ umask_mode g' = umask_mode g
  /\ vty_serv_calls g' = vty_serv_calls g.

(** The first result of a scan with a given code, and the last one. *)
Definition first_with (c : Z) (l : list getopt_result)
  : option getopt_result :=
  find (fun r => g_opt r =? c) l.

Definition last_with (c : Z) (l : list getopt_result)
  : option getopt_result :=
  first_with c (rev l).

(** [di->privs->user] and [di->privs->group], null without a structure. *)
Definition user_of (d : frr_daemon_info) : option string :=
  match privs d with Some p => user p | None => None end.

Definition group_of (d : frr_daemon_info) : option string :=
  match privs d with Some p => group p | None => None end.

(** The port a value converts to. *)
Definition port_of_text (text : string) : Z :=
  port_of_ulong (fst (strtoul text)).

(** A decimal numeral that does not start with the digit 0. *)
Definition leading_digit_nonzero (u : Decimal.uint) : bool :=
  match u with
  | Decimal.Nil | Decimal.D0 _ => false
  | _ => true
  end.


(** ** The daemon's loop around [frr_getopt] *)




(** Among the results [l], met in state [g], some single-valued option
    comes for the second time. *)
Definition some_duplicate (g : globals) (l : list getopt_result) : Prop :=
  exists c,
    single_valued c = true
    /\ (2 <= count_code c l
        \/ (already_set c g = true /\ 1 <= count_code c l))%nat.

(** Among the results [l], met in state [g], every single-valued option
    comes at most once, and not at all if it is set already. *)
Definition each_at_most_once (g : globals) (l : list getopt_result) : Prop :=
  forall c,
    single_valued c = true ->
    (count_code c l <= 1)%nat
    /\ (already_set c g = true -> count_code c l = 0%nat).

(** ** Proof automation *)

Ltac eval_codes :=
  repeat match goal with
         | |- context [chr ?c] =>
             let v := eval vm_compute in (chr c) in change (chr c) with v
         end;
  unfold OPTION_VTYSOCK.

Ltac run_monad :=
  repeat
    (progress
       (unfold bind, ret, get, modify, fprintf, incr_errors, update_di,
          deref_di, exit, undefined, print_version;
        cbn [di set_di set_errors set_stderr_buf set_stdout_buf
             set_vty_addr_set set_vty_port_set errors stderr_buf stdout_buf
             vty_addr_set vty_port_set comb_helpstr comb_optstr comb_lo
             getopt_pending umask_mode vty_serv_calls negb])).

(** ** Registration: lemmas *)

Lemma length_append (s t : string) :
  String.length (s ++ t) = (String.length s + String.length t)%nat.
Proof.
  induction s as [|a s IH]; simpl; [reflexivity | now rewrite IH].
Qed.

Lemma copy_longopts_fits (lo : list struct_option) (g : globals) :
  (List.length (comb_lo g) + List.length lo <= COMB_LO_SIZE)%nat ->
  copy_longopts lo g = Return tt (set_comb_lo (comb_lo g ++ lo) g).
Proof.
  revert g; induction lo as [|o lo IH]; intros g H; simpl.
  - unfold ret. rewrite app_nil_r. now destruct g.
  - unfold bind, get, modify. simpl in H.
    destruct (Nat.ltb_spec (List.length (comb_lo g)) COMB_LO_SIZE) as [_|Hge];
      [|lia].
    rewrite IH.
    + simpl. now rewrite <- app_assoc.
    + simpl. rewrite length_app. simpl. lia.
Qed.

Lemma copy_longopts_overflow (lo : list struct_option) (g : globals) :
  (List.length (comb_lo g) <= COMB_LO_SIZE)%nat ->
  (COMB_LO_SIZE < List.length (comb_lo g) + List.length lo)%nat ->
  copy_longopts lo g = Undefined.
Proof.
  revert g; induction lo as [|o lo IH]; intros g Hle H; simpl in *.
  - lia.
  - unfold bind, get, modify.
    destruct (Nat.ltb_spec (List.length (comb_lo g)) COMB_LO_SIZE) as [Hlt|Hge];
      [|reflexivity].
    apply IH; simpl; rewrite length_app; simpl; lia.
Qed.

Lemma copy_longopts_no_exit (lo : list struct_option) (g : globals)
    (status : Z) (g' : globals) :
  copy_longopts lo g <> Exit status g'.
Proof.
  revert g; induction lo as [|o lo IH]; intros g; simpl.
  - discriminate.
  - unfold bind, get, modify.
    destruct (List.length (comb_lo g) <? COMB_LO_SIZE)%nat;
      [apply IH | discriminate].
Qed.

Lemma opt_extend_eq (os : optspec) (g : globals) :
  (List.length (comb_lo g) <= COMB_LO_SIZE)%nat ->
  opt_extend os g =
  if fits os g then Return tt (append_fragment os g) else Undefined.
Proof.
  intros Hle. unfold opt_extend, fits, strcat, bind, get, modify, undefined.
  destruct (Nat.leb_spec
              (String.length (comb_optstr g) + String.length (optstr os) + 1)
              COMB_OPTSTR_SIZE) as [H1|H1]; simpl; [|reflexivity].
  destruct (Nat.leb_spec
              (String.length (comb_helpstr g) + String.length (helpstr os) + 1)
              COMB_HELPSTR_SIZE) as [H2|H2]; simpl; [|reflexivity].
  destruct (Nat.leb_spec
              (List.length (comb_lo g) + List.length (longopts os))
              COMB_LO_SIZE) as [H3|H3].
  - now rewrite copy_longopts_fits.
  - now rewrite copy_longopts_overflow.
Qed.

Lemma opt_extend_no_exit (os : optspec) (g : globals) (status : Z)
    (g' : globals) :
  opt_extend os g <> Exit status g'.
Proof.
  unfold opt_extend, bind, get, modify, undefined.
  destruct (strcat COMB_OPTSTR_SIZE (comb_optstr g) (optstr os));
    [|discriminate]; simpl.
  destruct (strcat COMB_HELPSTR_SIZE (comb_helpstr g) (helpstr os));
    [|discriminate]; simpl.
  apply copy_longopts_no_exit.
Qed.

Lemma fits_true_iff (os : optspec) (g : globals) :
  fits os g = true <-> all_fit [os] g.
Proof.
  unfold fits, all_fit; simpl.
  rewrite !andb_true_iff, !Nat.leb_le. lia.
Qed.

Lemma append_fragment_within (os : optspec) (g : globals) :
  fits os g = true -> within_capacity (append_fragment os g).
Proof.
  rewrite fits_true_iff. unfold all_fit, within_capacity; simpl.
  rewrite !length_append, length_app. lia.
Qed.

Lemma all_fit_cons (os : optspec) (l : list optspec) (g : globals) :
  all_fit (os :: l) g <->
  fits os g = true /\ all_fit l (append_fragment os g).
Proof.
  rewrite fits_true_iff. unfold all_fit; simpl.
  rewrite !length_append, length_app. lia.
Qed.

Lemma register_all_eq (l : list optspec) (g : globals) :
  within_capacity g -> all_fit l g ->
  register_all l g = Return tt (append_all l g).
Proof.
  revert g; induction l as [|os l IH]; intros g Hg Hfit; simpl.
  - reflexivity.
  - apply all_fit_cons in Hfit as [Hos Hl].
    unfold bind. rewrite opt_extend_eq by apply Hg. rewrite Hos.
    apply IH; [now apply append_fragment_within | exact Hl].
Qed.

Lemma register_all_overflow (l : list optspec) (g : globals) :
  within_capacity g -> ~ all_fit l g ->
  register_all l g = Undefined.
Proof.
  revert g; induction l as [|os l IH]; intros g Hg Hfit; simpl.
  - exfalso. apply Hfit. unfold all_fit, within_capacity in *; simpl. lia.
  - unfold bind. rewrite opt_extend_eq by apply Hg.
    destruct (fits os g) eqn:Hos; [|reflexivity].
    apply IH; [now apply append_fragment_within|].
    intros Hl. apply Hfit. apply all_fit_cons. now split.
Qed.

Lemma total_optstr_perm (l1 l2 : list optspec) :
  Permutation l1 l2 -> total_optstr l1 = total_optstr l2.
Proof. induction 1; simpl; lia. Qed.

Lemma total_helpstr_perm (l1 l2 : list optspec) :
  Permutation l1 l2 -> total_helpstr l1 = total_helpstr l2.
Proof. induction 1; simpl; lia. Qed.

Lemma total_longopts_perm (l1 l2 : list optspec) :
  Permutation l1 l2 -> total_longopts l1 = total_longopts l2.
Proof. induction 1; simpl; lia. Qed.

Lemma all_fit_perm (l1 l2 : list optspec) (g : globals) :
  Permutation l1 l2 -> all_fit l1 g -> all_fit l2 g.
Proof.
  intros P. unfold all_fit.
  now rewrite (total_optstr_perm _ _ P), (total_helpstr_perm _ _ P),
    (total_longopts_perm _ _ P).
Qed.

Lemma all_fit_dec (l : list optspec) (g : globals) :
  all_fit l g \/ ~ all_fit l g.
Proof. unfold all_fit. lia. Qed.

Lemma register_all_no_exit (l : list optspec) (g : globals) (status : Z)
    (g' : globals) :
  register_all l g <> Exit status g'.
Proof.
  revert g; induction l as [|os l IH]; intros g; simpl; [discriminate|].
  unfold bind. destruct (opt_extend os g) as [u g1|s g1|] eqn:E.
  - apply IH.
  - now apply opt_extend_no_exit in E.
  - discriminate.
Qed.

(** C1 (amended).  [opt_extend], and so [frr_opt_add], makes no capacity
    check and never exits.  A fragment that fits in the 256-byte short
    spec, the 4096-byte help string (terminators included) and the 64
    long-option slots is appended whole, nothing truncated; one that does
    not fit is written past the array, which C leaves undefined.  Whether a
    list of fragments can be registered does not depend on their order. *)
Theorem opt_extend_unchecked :
  (forall os g status g', opt_extend os g <> Exit status g')
  /\ (forall l g status g', register_all l g <> Exit status g')
  /\ (forall optstr longopts helpstr g,
        within_capacity g ->
        frr_opt_add optstr longopts helpstr g =
        if fits (mk_optspec optstr helpstr longopts) g
        then Return tt
               (append_fragment (mk_optspec optstr helpstr longopts) g)
        else Undefined)
  /\ (forall l1 l2 g,
        within_capacity g -> Permutation l1 l2 ->
        (register_all l1 g = Undefined <-> register_all l2 g = Undefined)
        /\ ((exists g1, register_all l1 g = Return tt g1) <->
            (exists g2, register_all l2 g = Return tt g2))).
Proof.
  split; [exact opt_extend_no_exit|].
  split; [exact register_all_no_exit|]. split.
  - intros o lo h g Hg. unfold frr_opt_add. apply opt_extend_eq, Hg.
  - intros l1 l2 g Hg P.
    assert (Hiff : all_fit l1 g <-> all_fit l2 g).
    { split; apply all_fit_perm; [exact P | now apply Permutation_sym]. }
    destruct (all_fit_dec l1 g) as [H1|H1].
    + assert (H2 : all_fit l2 g) by now apply Hiff.
      rewrite (register_all_eq l1 g Hg H1), (register_all_eq l2 g Hg H2).
      split; split; try discriminate; intros _; eexists; reflexivity.
    + assert (H2 : ~ all_fit l2 g) by (intros H; apply H1, Hiff, H).
      rewrite (register_all_overflow l1 g Hg H1),
        (register_all_overflow l2 g Hg H2).
      split; split; auto; intros [? ?]; discriminate.
Qed.

Lemma append_assoc (s t u : string) : (s ++ t) ++ u = s ++ t ++ u.
Proof.
  induction s as [|a s IH]; simpl; [reflexivity | now rewrite IH].
Qed.

Lemma append_nil_r (s : string) : s ++ "" = s.
Proof.
  induction s as [|a s IH]; simpl; [reflexivity | now rewrite IH].
Qed.

Lemma copy_longopts_di (lo : list struct_option) (g g' : globals) (u : unit) :
  copy_longopts lo g = Return u g' -> di g' = di g.
Proof.
  revert g; induction lo as [|o lo IH]; intros g; simpl.
  - unfold ret. now intros [= _ <-].
  - unfold bind, get, modify.
    destruct (List.length (comb_lo g) <? COMB_LO_SIZE)%nat; [|discriminate].
    intros H. now apply IH in H.
Qed.

Lemma opt_extend_di (os : optspec) (g g' : globals) (u : unit) :
  opt_extend os g = Return u g' -> di g' = di g.
Proof.
  unfold opt_extend, bind, get, modify, undefined.
  destruct (strcat COMB_OPTSTR_SIZE (comb_optstr g) (optstr os));
    [|discriminate]; simpl.
  destruct (strcat COMB_HELPSTR_SIZE (comb_helpstr g) (helpstr os));
    [|discriminate]; simpl.
  intros H. now apply copy_longopts_di in H.
Qed.

(** [frr_preinit] stores the descriptor with its program name, sets the
    umask and registers [preinit_fragments] onto whatever the combined
    buffers already hold. *)
Lemma frr_preinit_eq (daemon : frr_daemon_info) (argc : Z) (argv0 : string)
    (rest : list string) (g : globals) :
  frr_preinit daemon argc (argv0 :: rest) g =
  register_all (preinit_fragments (flags daemon))
    (set_umask_mode 23
       (set_di (Some (set_progname (last_segment argv0) daemon)) g)).
Proof.
  set (D := set_progname (last_segment argv0) daemon).
  set (G := set_umask_mode 23 (set_di (Some D) g)).
  transitivity
    ((opt_extend os_always ;;;
      d <- deref_di ;;
      (if Z.land (flags d) FRR_NO_PRIVSEP =? 0
       then opt_extend os_user else ret tt) ;;;
      d' <- deref_di ;;
      (if Z.land (flags d') FRR_NO_TCPVTY =? 0
       then opt_extend os_vty else ret tt)) G); [reflexivity|].
  assert (HG : di G = Some D) by reflexivity.
  assert (HD : flags D = flags daemon) by reflexivity.
  clearbody G D. unfold preinit_fragments. cbn [register_all app].
  unfold bind, deref_di, ret.
  destruct (opt_extend os_always G) as [[] g1|s g1|] eqn:E1;
    [|reflexivity|reflexivity].
  apply opt_extend_di in E1. rewrite HG in E1. rewrite E1, HD.
  destruct (Z.land (flags daemon) FRR_NO_PRIVSEP =? 0).
  - cbn [app register_all]. unfold bind.
    destruct (opt_extend os_user g1) as [[] g2|s g2|] eqn:E2;
      [|reflexivity|reflexivity].
    apply opt_extend_di in E2. rewrite E1 in E2. rewrite E2, HD.
    destruct (Z.land (flags daemon) FRR_NO_TCPVTY =? 0); cbn [register_all].
    + unfold bind, ret. now destruct (opt_extend os_vty g2) as [[] ?|? ?|].
    + reflexivity.
  - cbn [app]. rewrite E1, HD.
    destruct (Z.land (flags daemon) FRR_NO_TCPVTY =? 0); cbn [register_all].
    + unfold bind, ret. now destruct (opt_extend os_vty g1) as [[] ?|? ?|].
    + reflexivity.
Qed.

Lemma append_all_preinit (fl : Z) (g : globals) :
  comb_optstr (append_all (preinit_fragments fl) g) =
    comb_optstr g ++ optstr os_always
    ++ (if Z.land fl FRR_NO_PRIVSEP =? 0 then optstr os_user else "")
    ++ (if Z.land fl FRR_NO_TCPVTY =? 0 then optstr os_vty else "")
  /\ comb_helpstr (append_all (preinit_fragments fl) g) =
    comb_helpstr g ++ helpstr os_always
    ++ (if Z.land fl FRR_NO_PRIVSEP =? 0 then helpstr os_user else "")
    ++ (if Z.land fl FRR_NO_TCPVTY =? 0 then helpstr os_vty else "")
  /\ comb_lo (append_all (preinit_fragments fl) g) =
    (comb_lo g ++ longopts os_always
     ++ (if Z.land fl FRR_NO_PRIVSEP =? 0 then longopts os_user else [])
     ++ (if Z.land fl FRR_NO_TCPVTY =? 0 then longopts os_vty else []))%list
  /\ di (append_all (preinit_fragments fl) g) = di g.
Proof.
  unfold preinit_fragments, append_all.
  destruct (Z.land fl FRR_NO_PRIVSEP =? 0), (Z.land fl FRR_NO_TCPVTY =? 0);
    cbn [fold_left app append_fragment comb_optstr comb_helpstr comb_lo di
         set_comb_lo set_comb_helpstr set_comb_optstr];
    rewrite ?append_assoc, <- ?app_assoc, ?append_nil_r, ?app_nil_r;
    repeat split; reflexivity.
Qed.

Lemma preinit_fragments_fit_initial (fl : Z) (pending : list getopt_result)
    (d : option frr_daemon_info) (m : Z) :
  all_fit (preinit_fragments fl)
    (set_umask_mode m (set_di d (initial_globals pending))).
Proof.
  unfold preinit_fragments, all_fit.
  destruct (Z.land fl FRR_NO_PRIVSEP =? 0), (Z.land fl FRR_NO_TCPVTY =? 0);
    repeat split; apply Nat.leb_le; vm_compute; reflexivity.
Qed.

Lemma initial_within_capacity (pending : list getopt_result)
    (d : option frr_daemon_info) (m : Z) :
  within_capacity (set_umask_mode m (set_di d (initial_globals pending))).
Proof.
  repeat split; apply Nat.leb_le; vm_compute; reflexivity.
Qed.

(** The effect of [frr_preinit] on a state whose buffers have room. *)
Lemma frr_preinit_spec (daemon : frr_daemon_info) (argc : Z) (argv0 : string)
    (rest : list string) (g : globals) :
  within_capacity g -> all_fit (preinit_fragments (flags daemon)) g ->
  exists g',
    frr_preinit daemon argc (argv0 :: rest) g = Return tt g'
    /\ comb_optstr g' =
       comb_optstr g ++ optstr os_always
       ++ (if Z.land (flags daemon) FRR_NO_PRIVSEP =? 0
           then optstr os_user else "")
       ++ (if Z.land (flags daemon) FRR_NO_TCPVTY =? 0
           then optstr os_vty else "")
    /\ comb_helpstr g' =
       comb_helpstr g ++ helpstr os_always
       ++ (if Z.land (flags daemon) FRR_NO_PRIVSEP =? 0
           then helpstr os_user else "")
       ++ (if Z.land (flags daemon) FRR_NO_TCPVTY =? 0
           then helpstr os_vty else "")
    /\ comb_lo g' =
       (comb_lo g ++ longopts os_always
        ++ (if Z.land (flags daemon) FRR_NO_PRIVSEP =? 0
            then longopts os_user else [])
        ++ (if Z.land (flags daemon) FRR_NO_TCPVTY =? 0
            then longopts os_vty else []))%list
    /\ di g' = Some (set_progname (last_segment argv0) daemon).
Proof.
  intros Hg Hfit. rewrite frr_preinit_eq.
  eexists. split; [apply register_all_eq; [exact Hg | exact Hfit]|].
  exact (append_all_preinit (flags daemon) _).
Qed.

(** C5 (amended).  [frr_preinit] does not reset the combined table: it
    appends to what the buffers hold.  It appends the mandatory fragment,
    then the user/group fragment exactly when [FRR_NO_PRIVSEP] is clear,
    then the address/port fragment exactly when [FRR_NO_TCPVTY] is clear;
    called on the zero-initialised table of process start, the table is
    exactly those fragments. *)
Theorem frr_preinit_appends_fragments :
  (forall daemon argc argv0 rest g,
      within_capacity g -> all_fit (preinit_fragments (flags daemon)) g ->
      exists g',
        frr_preinit daemon argc (argv0 :: rest) g = Return tt g'
        /\ comb_optstr g' =
           comb_optstr g ++ optstr os_always
           ++ (if Z.land (flags daemon) FRR_NO_PRIVSEP =? 0
               then optstr os_user else "")
           ++ (if Z.land (flags daemon) FRR_NO_TCPVTY =? 0
               then optstr os_vty else "")
        /\ comb_helpstr g' =
           comb_helpstr g ++ helpstr os_always
           ++ (if Z.land (flags daemon) FRR_NO_PRIVSEP =? 0
               then helpstr os_user else "")
           ++ (if Z.land (flags daemon) FRR_NO_TCPVTY =? 0
               then helpstr os_vty else "")
        /\ comb_lo g' =
           (comb_lo g ++ longopts os_always
            ++ (if Z.land (flags daemon) FRR_NO_PRIVSEP =? 0
                then longopts os_user else [])
            ++ (if Z.land (flags daemon) FRR_NO_TCPVTY =? 0
                then longopts os_vty else []))%list)
  /\ (forall daemon argc argv0 rest pending,
      exists g',
        frr_preinit daemon argc (argv0 :: rest) (initial_globals pending)
        = Return tt g'
        /\ comb_optstr g' =
           optstr os_always
           ++ (if Z.land (flags daemon) FRR_NO_PRIVSEP =? 0
               then optstr os_user else "")
           ++ (if Z.land (flags daemon) FRR_NO_TCPVTY =? 0
               then optstr os_vty else "")
        /\ comb_helpstr g' =
           helpstr os_always
           ++ (if Z.land (flags daemon) FRR_NO_PRIVSEP =? 0
               then helpstr os_user else "")
           ++ (if Z.land (flags daemon) FRR_NO_TCPVTY =? 0
               then helpstr os_vty else "")
        /\ comb_lo g' =
           (longopts os_always
            ++ (if Z.land (flags daemon) FRR_NO_PRIVSEP =? 0
                then longopts os_user else [])
            ++ (if Z.land (flags daemon) FRR_NO_TCPVTY =? 0
                then longopts os_vty else []))%list).
Proof.
  split.
  - intros daemon argc argv0 rest g Hg Hfit.
    destruct (frr_preinit_spec daemon argc argv0 rest g Hg Hfit)
      as (g' & E & H1 & H2 & H3 & _).
    exists g'. repeat split; assumption.
  - intros daemon argc argv0 rest pending.
    rewrite frr_preinit_eq. eexists. split.
    + apply register_all_eq;
        [apply initial_within_capacity | apply preinit_fragments_fit_initial].
    + destruct (append_all_preinit (flags daemon)
                  (set_umask_mode 23
                     (set_di (Some (set_progname (last_segment argv0) daemon))
                        (initial_globals pending)))) as (H1 & H2 & H3 & _).
      rewrite H1, H2, H3. repeat split.
Qed.

(** ** Help and dispatch: equations *)

Lemma frr_help_exit_eq (A : Type) (status : Z) (g : globals)
    (d : frr_daemon_info) :
  di g = Some d ->
  @frr_help_exit A status g =
  Exit status
    (if status =? 0
     then set_stdout_buf (stdout_buf g ++ help_text stdout d g) g
     else set_stderr_buf
            (stderr_buf g ++ ("Invalid options." ++ nl ++ nl)
             ++ help_text stderr d g) g).
Proof.
  intros Hd. unfold frr_help_exit, help_text.
  destruct (status =? 0); run_monad; rewrite Hd; run_monad;
    destruct (printhelp d); run_monad;
    rewrite ?append_assoc; reflexivity.
Qed.

Lemma frr_opt_h (optarg : option string) (g : globals) (d : frr_daemon_info) :
  di g = Some d ->
  frr_opt (chr "h") optarg g =
  Exit 0 (set_stdout_buf (stdout_buf g ++ help_text stdout d g) g).
Proof.
  intros Hd. unfold frr_opt. eval_codes. cbn [Z.eqb Pos.eqb].
  unfold bind at 1. now rewrite (frr_help_exit_eq unit 0 g d Hd).
Qed.

Lemma frr_opt_v (optarg : option string) (g : globals) (d : frr_daemon_info) :
  di g = Some d ->
  frr_opt (chr "v") optarg g =
  Exit 0 (set_stdout_buf (stdout_buf g ++ version_text (progname d)) g).
Proof.
  intros Hd. unfold frr_opt. eval_codes. cbn [Z.eqb Pos.eqb].
  run_monad. rewrite Hd. reflexivity.
Qed.

Lemma frr_opt_A_disabled (optarg : option string) (g : globals)
    (d : frr_daemon_info) :
  di g = Some d -> Z.land (flags d) FRR_NO_TCPVTY <> 0 ->
  frr_opt (chr "A") optarg g = Return 1 g.
Proof.
  intros Hd Hf. apply Z.eqb_neq in Hf.
  unfold frr_opt. eval_codes. cbn [Z.eqb Pos.eqb].
  run_monad. rewrite Hd, Hf. reflexivity.
Qed.

Lemma frr_opt_P_disabled (optarg : option string) (g : globals)
    (d : frr_daemon_info) :
  di g = Some d -> Z.land (flags d) FRR_NO_TCPVTY <> 0 ->
  frr_opt (chr "P") optarg g = Return 1 g.
Proof.
  intros Hd Hf. apply Z.eqb_neq in Hf.
  unfold frr_opt. eval_codes. cbn [Z.eqb Pos.eqb].
  run_monad. rewrite Hd, Hf. reflexivity.
Qed.

Lemma frr_opt_A_dup (optarg : option string) (g : globals)
    (d : frr_daemon_info) :
  di g = Some d -> Z.land (flags d) FRR_NO_TCPVTY = 0 ->
  vty_addr_set g <> 0 ->
  frr_opt (chr "A") optarg g =
  Return 0
    (set_errors (errors g + 1)
       (set_stderr_buf
          (stderr_buf g ++ "-A option specified more than once!" ++ nl) g)).
Proof.
  intros Hd Hf Hs. apply Z.eqb_eq in Hf. apply Z.eqb_neq in Hs.
  unfold frr_opt. eval_codes. cbn [Z.eqb Pos.eqb].
  run_monad. rewrite Hd, Hf. run_monad. rewrite Hs. reflexivity.
Qed.

Lemma frr_opt_A_first (optarg : option string) (g : globals)
    (d : frr_daemon_info) :
  di g = Some d -> Z.land (flags d) FRR_NO_TCPVTY = 0 ->
  vty_addr_set g = 0 ->
  frr_opt (chr "A") optarg g =
  Return 0 (set_di (Some (set_vty_addr optarg d)) (set_vty_addr_set 1 g)).
Proof.
  intros Hd Hf Hs. apply Z.eqb_eq in Hf. apply Z.eqb_eq in Hs.
  unfold frr_opt. eval_codes. cbn [Z.eqb Pos.eqb].
  run_monad. rewrite Hd, Hf. run_monad. rewrite Hs. run_monad.
  rewrite Hd. reflexivity.
Qed.

Lemma frr_opt_P_dup (optarg : option string) (g : globals)
    (d : frr_daemon_info) :
  di g = Some d -> Z.land (flags d) FRR_NO_TCPVTY = 0 ->
  vty_port_set g <> 0 ->
  frr_opt (chr "P") optarg g =
  Return 0
    (set_errors (errors g + 1)
       (set_stderr_buf
          (stderr_buf g ++ "-P option specified more than once!" ++ nl) g)).
Proof.
  intros Hd Hf Hs. apply Z.eqb_eq in Hf. apply Z.eqb_neq in Hs.
  unfold frr_opt. eval_codes. cbn [Z.eqb Pos.eqb].
  run_monad. rewrite Hd, Hf. run_monad. rewrite Hs. reflexivity.
Qed.

Lemma frr_opt_P_first (text : string) (g : globals) (d : frr_daemon_info) :
  di g = Some d -> Z.land (flags d) FRR_NO_TCPVTY = 0 ->
  vty_port_set g = 0 ->
  frr_opt (chr "P") (Some text) g =
  Return 0 (if port_text_invalid text
            then port_rejected text d g else port_stored text d g).
Proof.
  intros Hd Hf Hs. apply Z.eqb_eq in Hf. apply Z.eqb_eq in Hs.
  unfold frr_opt. eval_codes. cbn [Z.eqb Pos.eqb].
  run_monad. rewrite Hd, Hf. run_monad. rewrite Hs. run_monad.
  rewrite Hd. destruct (port_text_invalid text); reflexivity.
Qed.

Lemma frr_opt_sock_dup (optarg : option string) (g : globals)
    (d : frr_daemon_info) (old : string) :
  di g = Some d -> vty_sock_path d = Some old ->
  frr_opt OPTION_VTYSOCK optarg g =
  Return 0
    (set_errors (errors g + 1)
       (set_stderr_buf
          (stderr_buf g ++ "--vty_socket option specified more than once!"
           ++ nl) g)).
Proof.
  intros Hd Hp.
  unfold frr_opt. eval_codes. cbn [Z.eqb Pos.eqb].
  run_monad. rewrite Hd, Hp. reflexivity.
Qed.

Lemma frr_opt_sock_first (optarg : option string) (g : globals)
    (d : frr_daemon_info) :
  di g = Some d -> vty_sock_path d = None ->
  frr_opt OPTION_VTYSOCK optarg g =
  Return 0 (set_di (Some (set_vty_sock_path optarg d)) g).
Proof.
  intros Hd Hp.
  unfold frr_opt. eval_codes. cbn [Z.eqb Pos.eqb].
  run_monad. rewrite Hd, Hp. run_monad. rewrite Hd. reflexivity.
Qed.

Lemma frr_opt_u (optarg : option string) (g : globals) (d : frr_daemon_info)
    (p : zebra_privs_t) :
  di g = Some d -> Z.land (flags d) FRR_NO_PRIVSEP = 0 -> privs d = Some p ->
  frr_opt (chr "u") optarg g =
  Return 0 (set_di (Some (set_privs (Some (set_user optarg p)) d)) g).
Proof.
  intros Hd Hf Hp. apply Z.eqb_eq in Hf.
  unfold frr_opt. eval_codes. cbn [Z.eqb Pos.eqb].
  run_monad. rewrite Hd, Hf, Hp. run_monad. rewrite Hd. reflexivity.
Qed.

Lemma frr_opt_g (optarg : option string) (g : globals) (d : frr_daemon_info)
    (p : zebra_privs_t) :
  di g = Some d -> Z.land (flags d) FRR_NO_PRIVSEP = 0 -> privs d = Some p ->
  frr_opt (chr "g") optarg g =
  Return 0 (set_di (Some (set_privs (Some (set_group optarg p)) d)) g).
Proof.
  intros Hd Hf Hp. apply Z.eqb_eq in Hf.
  unfold frr_opt. eval_codes. cbn [Z.eqb Pos.eqb].
  run_monad. rewrite Hd, Hf, Hp. run_monad. rewrite Hd. reflexivity.
Qed.

Lemma frr_opt_default (opt : Z) (optarg : option string) (g : globals) :
  ~ In opt dispatcher_codes -> frr_opt opt optarg g = Return 1 g.
Proof.
  intros Hn. unfold frr_opt.
  repeat match goal with
         | |- context [opt =? ?c] =>
             destruct (Z.eqb_spec opt c) as [->|_];
             [exfalso; apply Hn; simpl; tauto|]
         end.
  reflexivity.
Qed.

(** ** The address and port options under [FRR_NO_TCPVTY] *)

(** C8.  With [FRR_NO_TCPVTY] set, [frr_preinit] leaves the address/port
    fragment out of the combined table (no [A] or [P] in the short spec, no
    [vty_addr] or [vty_port] long option, neither code among the long
    options), and the dispatcher answers the codes [A] and [P] with the
    unhandled signal for every value, changing nothing. *)
Theorem no_tcpvty_addr_port_unrecognized :
  forall daemon,
    Z.land (flags daemon) FRR_NO_TCPVTY <> 0 ->
    (forall argc argv0 rest pending,
        exists g',
          frr_preinit daemon argc (argv0 :: rest) (initial_globals pending)
          = Return tt g'
          /\ str_mem "A" (comb_optstr g') = false
          /\ str_mem "P" (comb_optstr g') = false
          /\ Forall (fun o => name o <> "vty_addr" /\ name o <> "vty_port"
                              /\ val o <> chr "A" /\ val o <> chr "P")
               (comb_lo g'))
    /\ (forall argc argv0 rest g,
          within_capacity g ->
          all_fit (preinit_fragments (flags daemon)) g ->
          exists g',
            frr_preinit daemon argc (argv0 :: rest) g = Return tt g'
            /\ comb_optstr g' =
               comb_optstr g ++ optstr os_always
               ++ (if Z.land (flags daemon) FRR_NO_PRIVSEP =? 0
                   then optstr os_user else "")
            /\ comb_lo g' =
               (comb_lo g ++ longopts os_always
                ++ (if Z.land (flags daemon) FRR_NO_PRIVSEP =? 0
                    then longopts os_user else []))%list)
    /\ (forall g d optarg,
          di g = Some d -> flags d = flags daemon ->
          frr_opt (chr "A") optarg g = Return 1 g
          /\ frr_opt (chr "P") optarg g = Return 1 g).
Proof.
  intros daemon Hset.
  assert (Hb : (Z.land (flags daemon) FRR_NO_TCPVTY =? 0) = false)
    by now apply Z.eqb_neq.
  split; [|split].
  - intros argc argv0 rest pending.
    rewrite frr_preinit_eq. eexists. split.
    + apply register_all_eq;
        [apply initial_within_capacity | apply preinit_fragments_fit_initial].
    + destruct (append_all_preinit (flags daemon)
                  (set_umask_mode 23
                     (set_di (Some (set_progname (last_segment argv0) daemon))
                        (initial_globals pending)))) as (H1 & _ & H3 & _).
      rewrite H1, H3, Hb.
      destruct (Z.land (flags daemon) FRR_NO_PRIVSEP =? 0);
        (split; [reflexivity|]); (split; [reflexivity|]);
        repeat constructor; cbn; try discriminate;
        intros H; vm_compute in H; discriminate.
  - intros argc argv0 rest g Hg Hfit.
    destruct (frr_preinit_spec daemon argc argv0 rest g Hg Hfit)
      as (g' & E & H1 & _ & H3 & _).
    exists g'. rewrite Hb in H1, H3.
    rewrite !append_nil_r in H1. rewrite !app_nil_r in H3.
    repeat split; assumption.
  - intros g d optarg Hd Hfl. rewrite <- Hfl in Hset.
    split; [now apply frr_opt_A_disabled with d
           | now apply frr_opt_P_disabled with d].
Qed.

(** ** The user and group options *)

(** C9.  With privilege separation enabled, [-u] and [-g] store their value
    as it is in the privilege configuration: read back from the descriptor,
    [di->privs->user] (or [group]) is the value given, the other name is
    untouched.  A second occurrence overwrites the first, and no occurrence
    touches the error count or writes a diagnostic. *)
Theorem user_group_overwrite_silently :
  forall g d p optarg,
    di g = Some d -> Z.land (flags d) FRR_NO_PRIVSEP = 0 ->
    privs d = Some p ->
    (exists g1 d1 p1,
        frr_opt (chr "u") optarg g = Return 0 g1
        /\ di g1 = Some d1 /\ privs d1 = Some p1
        /\ user p1 = optarg /\ group p1 = group p
        /\ errors g1 = errors g /\ stderr_buf g1 = stderr_buf g
        /\ forall again,
            exists g2 d2 p2,
              frr_opt (chr "u") again g1 = Return 0 g2
              /\ di g2 = Some d2 /\ privs d2 = Some p2
              /\ user p2 = again /\ group p2 = group p
              /\ errors g2 = errors g /\ stderr_buf g2 = stderr_buf g)
    /\ (exists g1 d1 p1,
          frr_opt (chr "g") optarg g = Return 0 g1
          /\ di g1 = Some d1 /\ privs d1 = Some p1
          /\ group p1 = optarg /\ user p1 = user p
          /\ errors g1 = errors g /\ stderr_buf g1 = stderr_buf g
          /\ forall again,
              exists g2 d2 p2,
                frr_opt (chr "g") again g1 = Return 0 g2
                /\ di g2 = Some d2 /\ privs d2 = Some p2
                /\ group p2 = again /\ user p2 = user p
                /\ errors g2 = errors g /\ stderr_buf g2 = stderr_buf g)
    /\ frr_opt (chr "u") optarg g =
         Return 0 (set_di (Some (set_privs (Some (set_user optarg p)) d)) g)
    /\ frr_opt (chr "g") optarg g =
         Return 0 (set_di (Some (set_privs (Some (set_group optarg p)) d)) g).
Proof.
  intros g d p optarg Hd Hf Hp.
  split; [|split; [|split; [now apply frr_opt_u | now apply frr_opt_g]]].
  - exists (set_di (Some (set_privs (Some (set_user optarg p)) d)) g),
      (set_privs (Some (set_user optarg p)) d), (set_user optarg p).
    split; [now apply frr_opt_u|].
    do 6 (split; [reflexivity|]).
    intros again.
    exists (set_di (Some (set_privs (Some (set_user again (set_user optarg p)))
                            (set_privs (Some (set_user optarg p)) d)))
              (set_di (Some (set_privs (Some (set_user optarg p)) d)) g)),
      (set_privs (Some (set_user again (set_user optarg p)))
         (set_privs (Some (set_user optarg p)) d)),
      (set_user again (set_user optarg p)).
    split; [apply frr_opt_u; [reflexivity | exact Hf | reflexivity]|].
    repeat split.
  - exists (set_di (Some (set_privs (Some (set_group optarg p)) d)) g),
      (set_privs (Some (set_group optarg p)) d), (set_group optarg p).
    split; [now apply frr_opt_g|].
    do 6 (split; [reflexivity|]).
    intros again.
    exists (set_di (Some (set_privs (Some (set_group again
                                            (set_group optarg p)))
                            (set_privs (Some (set_group optarg p)) d)))
              (set_di (Some (set_privs (Some (set_group optarg p)) d)) g)),
      (set_privs (Some (set_group again (set_group optarg p)))
         (set_privs (Some (set_group optarg p)) d)),
      (set_group again (set_group optarg p)).
    split; [apply frr_opt_g; [reflexivity | exact Hf | reflexivity]|].
    repeat split.
Qed.

(** ** The port option *)

(** C10.  On an invalid value the first [-P] has already raised
    [vty_port_set] and assigned the converted [strtoul] result to
    [vty_port], as read back from the descriptor, when it records the
    error; a later [-P] is then counted as a duplicate, its value is not
    looked at and the port stays as the first one left it. *)
Theorem invalid_port_is_stored_and_marks_set :
  forall g d text,
    di g = Some d -> Z.land (flags d) FRR_NO_TCPVTY = 0 ->
    vty_port_set g = 0 -> port_text_invalid text = true ->
    exists g1 d1,
      frr_opt (chr "P") (Some text) g = Return 0 g1
      /\ di g1 = Some d1
      /\ vty_port d1 = port_of_ulong (fst (strtoul text))
      /\ di g1 = Some (set_vty_port (port_of_ulong (fst (strtoul text))) d)
      /\ vty_port_set g1 = 1
      /\ errors g1 = errors g + 1
      /\ stderr_buf g1 =
         stderr_buf g ++ "invalid port number " ++ dquote ++ text ++ dquote
         ++ " for -P option" ++ nl
      /\ forall again,
          exists g2 d2,
            frr_opt (chr "P") again g1 = Return 0 g2
            /\ di g2 = Some d2
            /\ vty_port d2 = port_of_ulong (fst (strtoul text))
            /\ di g2 = di g1
            /\ vty_port_set g2 = 1
            /\ errors g2 = errors g + 2
            /\ stderr_buf g2 =
               stderr_buf g1 ++ "-P option specified more than once!" ++ nl.
Proof.
  intros g d text Hd Hf Hs Hbad.
  exists (port_rejected text d g),
    (set_vty_port (port_of_ulong (fst (strtoul text))) d).
  rewrite (frr_opt_P_first text g d Hd Hf Hs), Hbad.
  do 7 (split; [reflexivity|]).
  intros again. eexists. exists (set_vty_port (port_of_ulong (fst (strtoul text))) d).
  split; [apply frr_opt_P_dup with
            (d := set_vty_port (port_of_ulong (fst (strtoul text))) d);
          [reflexivity | exact Hf | discriminate]|].
  cbn. repeat split. lia.
Qed.

Lemma digit_in_decimal (a : ascii) :
  is_decimal_digit a = true -> digit_in 10 a = Some (chr a - 48).
Proof.
  unfold is_decimal_digit, digit_in, digit_value. intros H. rewrite H.
  apply andb_true_iff in H as [H1 H2].
  apply Z.leb_le in H1. apply Z.leb_le in H2.
  destruct (Z.ltb_spec (chr a - 48) 10); [reflexivity | lia].
Qed.

Lemma scan_digits_decimal (s : string) :
  all_decimal_digits s = true ->
  forall acc, exists v, scan_digits 10 s acc true = (v, true, "").
Proof.
  induction s as [|a s IH]; simpl; intros H acc.
  - now exists acc.
  - apply andb_true_iff in H as [Ha Hs].
    rewrite (digit_in_decimal a Ha). apply IH, Hs.
Qed.

(** A decimal numeral without a superfluous leading zero is consumed whole
    by [strtoul]. *)
Lemma decimal_numeral_accepted (s : string) :
  spec_unsigned_integer s = true ->
  (s = "0" \/ forall r, s <> String "0" r) ->
  port_text_invalid s = false.
Proof.
  intros Hspec [->|Hnz]; [reflexivity|].
  unfold spec_unsigned_integer in Hspec.
  destruct s as [|a s]; [discriminate|].
  cbn [String.eqb negb andb all_decimal_digits] in Hspec.
  apply andb_true_iff in Hspec as [Ha Hs].
  assert (Hscan : exists v, scan_digits 10 (String a s) 0 false
                            = (v, true, "")).
  { cbn [scan_digits]. rewrite (digit_in_decimal a Ha).
    apply scan_digits_decimal, Hs. }
  destruct Hscan as [v Hscan].
  assert (Hhead : skip_space (String a s) = String a s
                  /\ strtoul_sign (String a s) = (false, String a s)
                  /\ strtoul_base (String a s) = (10, String a s)).
  { destruct a as [b0 b1 b2 b3 b4 b5 b6 b7].
    destruct b0, b1, b2, b3, b4, b5, b6, b7;
      try (vm_compute in Ha; discriminate Ha);
      try (exfalso; apply (Hnz s); reflexivity);
      repeat split. }
  destruct Hhead as (H1 & H2 & H3).
  unfold port_text_invalid, strtoul. rewrite H1, H2, H3, Hscan.
  reflexivity.
Qed.

Lemma port_text_invalid_false_iff (text : string) :
  port_text_invalid text = false <->
  text <> "" /\ snd (strtoul text) = "".
Proof.
  unfold port_text_invalid.
  rewrite orb_false_iff, negb_false_iff, String.eqb_eq, String.eqb_neq.
  tauto.
Qed.

(** C2 (amended).  The first [-P] of an invocation, with the remote
    listener enabled, is accepted exactly when the text is not empty and
    [strtoul] with base 0 consumes all of it; otherwise the error count
    grows by one.  So "0", "65535" and every decimal numeral without a
    leading zero are accepted and "abc", "123abc" and the empty text are
    rejected; but what [strtoul] consumes is more than an unsigned decimal
    numeral: a sign, leading white space, a hexadecimal or an octal prefix
    and values beyond 65535 or beyond [ULONG_MAX] are accepted, and a
    decimal numeral with a leading zero and a digit 8 or 9 is rejected. *)
Theorem vty_port_accepts_what_strtoul_consumes :
  (forall g d text,
      di g = Some d -> Z.land (flags d) FRR_NO_TCPVTY = 0 ->
      vty_port_set g = 0 ->
      exists g',
        frr_opt (chr "P") (Some text) g = Return 0 g'
        /\ errors g' = errors g + (if port_text_invalid text then 1 else 0)
        /\ (errors g' = errors g <->
            text <> "" /\ snd (strtoul text) = ""))
  /\ (forall s,
        spec_unsigned_integer s = true ->
        (s = "0" \/ forall r, s <> String "0" r) ->
        port_text_invalid s = false)
  /\ map port_text_invalid ["0"; "65535"; "abc"; "123abc"; ""]
     = [false; false; true; true; true]
  /\ map port_text_invalid
       ["-1"; "+7"; " 12"; "0x1F"; "010"; "65536"; "99999999999999999999";
        "08"]
     = [false; false; false; false; false; false; false; true].
Proof.
  split; [|split; [exact decimal_numeral_accepted | split; reflexivity]].
  intros g d text Hd Hf Hs.
  rewrite (frr_opt_P_first text g d Hd Hf Hs).
  eexists. split; [reflexivity|].
  rewrite <- port_text_invalid_false_iff.
  destruct (port_text_invalid text); cbn; split; try reflexivity;
    try lia; try (split; [lia | discriminate]).
Qed.

(** ** The control socket path *)

Lemma str_take_all (n : nat) (s : string) :
  (String.length s <= n)%nat -> str_take n s = s.
Proof.
  revert n; induction s as [|a s IH]; intros [|n] H; simpl in *;
    try reflexivity; try lia.
  f_equal. apply IH. lia.
Qed.

(** C6 (amended).  [frr_vty_serv(path)] makes one call of
    [vty_serv_sock], read back as the last entry of the calls made: without
    an override its path is [path]; with an override directory it is the
    first [MAXPATHLEN - 1] characters of the directory, a slash and the
    final segment of [path], which is that whole text whenever it is
    shorter than [MAXPATHLEN].  Address and port of the call are those the
    descriptor has, and nothing else of the state changes. *)
Theorem frr_vty_serv_effective_path :
  forall g d path,
    di g = Some d ->
    exists g' call,
      frr_vty_serv path g = Return tt g'
      /\ vty_serv_calls g' = (vty_serv_calls g ++ [call])%list
      /\ serv_addr call = vty_addr d
      /\ serv_port call = vty_port d
      /\ serv_path call =
         match vty_sock_path d with
         | None => path
         | Some dir => snprintf MAXPATHLEN (dir ++ "/" ++ last_segment path)
         end
      /\ (vty_sock_path d = None -> serv_path call = path)
      /\ (forall dir,
            vty_sock_path d = Some dir ->
            (String.length (dir ++ "/" ++ last_segment path)
             < MAXPATHLEN)%nat ->
            serv_path call = dir ++ "/" ++ last_segment path)
      /\ g' = set_vty_serv_calls (vty_serv_calls g ++ [call]) g
      /\ di g' = di g /\ errors g' = errors g
      /\ stdout_buf g' = stdout_buf g /\ stderr_buf g' = stderr_buf g
      /\ last_segment "/run/foo.vty" = "foo.vty".
Proof.
  intros g d path Hd.
  exists (set_vty_serv_calls
            (vty_serv_calls g
             ++ [mk_serv (vty_addr d) (vty_port d)
                   match vty_sock_path d with
                   | None => path
                   | Some dir =>
                       snprintf MAXPATHLEN (dir ++ "/" ++ last_segment path)
                   end]) g),
    (mk_serv (vty_addr d) (vty_port d)
       match vty_sock_path d with
       | None => path
       | Some dir => snprintf MAXPATHLEN (dir ++ "/" ++ last_segment path)
       end).
  split.
  { unfold frr_vty_serv, vty_serv_sock, snprintf, last_segment.
    run_monad. rewrite Hd. now destruct (vty_sock_path d). }
  do 4 (split; [reflexivity|]).
  split; [intros Hnone; cbn [serv_path]; now rewrite Hnone|].
  split; [|repeat split].
  intros dir Hdir Hlen. cbn [serv_path]. rewrite Hdir. unfold snprintf.
  rewrite str_take_all by lia. reflexivity.
Qed.

(** ** The scan: one result *)

Lemma same_static_refl (d : frr_daemon_info) : same_static d d.
Proof. unfold same_static. tauto. Qed.

Lemma same_static_trans (d1 d2 d3 : frr_daemon_info) :
  same_static d1 d2 -> same_static d2 d3 -> same_static d1 d3.
Proof.
  unfold same_static.
  intros (a1 & a2 & a3 & a4 & a5 & a6) (b1 & b2 & b3 & b4 & b5 & b6).
  repeat split; try congruence; tauto.
Qed.

Lemma consumed_same_static (d d' : frr_daemon_info) (r : getopt_result) :
  same_static d d' -> consumed d' r = consumed d r.
Proof.
  intros (Hf & _ & _ & _ & _ & Hp). unfold consumed. rewrite Hf.
  destruct (privs d') eqn:E', (privs d) eqn:E; try reflexivity.
  - destruct Hp as [_ Hp]. now specialize (Hp eq_refl).
  - destruct Hp as [Hp _]. now specialize (Hp eq_refl).
Qed.

Lemma help_text_same (target : FILE) (d d' : frr_daemon_info)
    (g g' : globals) :
  same_static d d' -> comb_helpstr g' = comb_helpstr g ->
  help_text target d' g' = help_text target d g.
Proof.
  intros (_ & H2 & H3 & H4 & H5 & _) H8.
  unfold help_text, usage_text. now rewrite H2, H3, H4, H5, H8.
Qed.

Ltac set_facts Hd Hs :=
  repeat match goal with
         | H : context [already_set] |- _ => revert H
         | H : context [port_text_invalid] |- _ => revert H
         end;
  unfold already_set, single_valued;
  cbn [di set_di set_errors set_stderr_buf set_vty_addr_set set_vty_port_set
       vty_addr_set vty_port_set errors vty_sock_path set_vty_sock_path
       set_vty_addr set_vty_port set_privs port_rejected port_stored];
  rewrite ?Hd; cbn [vty_sock_path set_vty_sock_path set_vty_addr set_vty_port
                    set_privs];
  rewrite ?Hs; eval_codes;
  repeat match goal with
         | |- context [Z.eqb ?c ?k] =>
             is_var c; destruct (Z.eqb_spec c k); try subst c
         end;
  cbn [Z.eqb Pos.eqb negb orb andb];
  intros;
  try reflexivity; try congruence; try lia; try tauto.

(** What the dispatcher does with a consumed result: it returns 0, leaves
    the frame alone, counts at most one error, and keeps track of the
    single-valued options. *)
Lemma frr_opt_consumed (r : getopt_result) (g : globals)
    (d : frr_daemon_info) :
  di g = Some d -> consumed d r = true ->
  exists g' d',
    frr_opt (g_opt r) (g_optarg r) g = Return 0 g'
    /\ di g' = Some d' /\ same_static d d' /\ same_frame g g'
    /\ errors g <= errors g' <= errors g + 1
    /\ (forall c, already_set c g = true -> already_set c g' = true)
    /\ (forall c, c <> g_opt r -> already_set c g' = already_set c g)
    /\ (single_valued (g_opt r) = true -> already_set (g_opt r) g' = true)
    /\ (already_set (g_opt r) g = true -> errors g' = errors g + 1)
    /\ (already_set (g_opt r) g = false ->
        (forall text, g_opt r = chr "P" -> g_optarg r = Some text ->
                      port_text_invalid text = false) ->
        errors g' = errors g).
Proof.
  intros Hd Hc. destruct r as [opt [text|] lidx]; [|discriminate Hc].
  unfold consumed in Hc. cbn [g_opt g_optarg] in *.
  destruct (Z.eqb_spec opt (chr "A")) as [->|nA].
  { destruct (Z.land (flags d) FRR_NO_TCPVTY =? 0) eqn:Hf;
      [apply Z.eqb_eq in Hf | discriminate Hc].
    destruct (vty_addr_set g =? 0) eqn:Hs.
    - exists (set_di (Some (set_vty_addr (Some text) d)) (set_vty_addr_set 1 g)).
      exists (set_vty_addr (Some text) d).
      split; [apply frr_opt_A_first; [exact Hd | exact Hf | now apply Z.eqb_eq]|].
      split; [reflexivity|]. split; [unfold same_static; cbn; tauto|].
      split; [repeat split|]. split; [cbn; lia|].
      repeat split; intros; set_facts Hd Hs.
    - exists (set_errors (errors g + 1)
                (set_stderr_buf
                   (stderr_buf g ++ "-A option specified more than once!"
                    ++ nl) g)).
      exists d.
      split; [apply frr_opt_A_dup with d;
              [exact Hd | exact Hf | now apply Z.eqb_neq]|].
      split; [exact Hd|]. split; [apply same_static_refl|].
      split; [repeat split|]. split; [cbn; lia|].
      repeat split; intros; set_facts Hd Hs. }
  destruct (Z.eqb_spec opt (chr "P")) as [->|nP].
  { destruct (Z.land (flags d) FRR_NO_TCPVTY =? 0) eqn:Hf;
      [apply Z.eqb_eq in Hf | discriminate Hc].
    destruct (vty_port_set g =? 0) eqn:Hs.
    - exists (if port_text_invalid text
              then port_rejected text d g else port_stored text d g).
      exists (set_vty_port (port_of_ulong (fst (strtoul text))) d).
      split; [apply frr_opt_P_first; [exact Hd | exact Hf | now apply Z.eqb_eq]|].
      destruct (port_text_invalid text) eqn:Hbad.
      + split; [reflexivity|]. split; [unfold same_static; cbn; tauto|].
        split; [repeat split|]. split; [cbn; lia|].
        repeat split; intros; set_facts Hd Hs.
        specialize (H0 text eq_refl eq_refl). congruence.
      + split; [reflexivity|]. split; [unfold same_static; cbn; tauto|].
        split; [repeat split|]. split; [cbn; lia|].
        repeat split; intros; set_facts Hd Hs.
    - exists (set_errors (errors g + 1)
                (set_stderr_buf
                   (stderr_buf g ++ "-P option specified more than once!"
                    ++ nl) g)).
      exists d.
      split; [apply frr_opt_P_dup with d;
              [exact Hd | exact Hf | now apply Z.eqb_neq]|].
      split; [exact Hd|]. split; [apply same_static_refl|].
      split; [repeat split|]. split; [cbn; lia|].
      repeat split; intros; set_facts Hd Hs. }
  destruct (Z.eqb_spec opt OPTION_VTYSOCK) as [->|nV].
  { destruct (vty_sock_path d) as [old|] eqn:Hs.
    - exists (set_errors (errors g + 1)
                (set_stderr_buf
                   (stderr_buf g
                    ++ "--vty_socket option specified more than once!"
                    ++ nl) g)).
      exists d.
      split; [now apply frr_opt_sock_dup with d old|].
      split; [exact Hd|]. split; [apply same_static_refl|].
      split; [repeat split|]. split; [cbn; lia|].
      repeat split; intros; set_facts Hd Hs.
    - exists (set_di (Some (set_vty_sock_path (Some text) d)) g).
      exists (set_vty_sock_path (Some text) d).
      split; [now apply frr_opt_sock_first|].
      split; [reflexivity|]. split; [unfold same_static; cbn; tauto|].
      split; [repeat split|]. split; [cbn; lia|].
      repeat split; intros; set_facts Hd Hs. }
  cbn [orb andb] in Hc.
  destruct (Z.land (flags d) FRR_NO_PRIVSEP =? 0) eqn:Hf;
    [apply Z.eqb_eq in Hf | now rewrite andb_false_r in Hc].
  destruct (privs d) as [p|] eqn:Hs; [|now rewrite andb_false_r in Hc].
  destruct (Z.eqb_spec opt (chr "u")) as [->|nu].
  { exists (set_di (Some (set_privs (Some (set_user (Some text) p)) d)) g).
    exists (set_privs (Some (set_user (Some text) p)) d).
    split; [now apply frr_opt_u|].
    split; [reflexivity|].
    split; [unfold same_static; cbn; rewrite Hs; repeat split; discriminate|].
    split; [repeat split|]. split; [cbn; lia|].
    repeat split; intros; set_facts Hd Hs. }
  destruct (Z.eqb_spec opt (chr "g")) as [->|ng]; [|discriminate Hc].
  exists (set_di (Some (set_privs (Some (set_group (Some text) p)) d)) g).
  exists (set_privs (Some (set_group (Some text) p)) d).
  split; [now apply frr_opt_g|].
  split; [reflexivity|].
  split; [unfold same_static; cbn; rewrite Hs; repeat split; discriminate|].
  split; [repeat split|]. split; [cbn; lia|].
  repeat split; intros; set_facts Hd Hs.
Qed.

Lemma consumed_not_end (d : frr_daemon_info) (r : getopt_result) :
  consumed d r = true -> (g_opt r =? -1) = false.
Proof.
  unfold consumed. destruct (g_optarg r); [|discriminate].
  destruct (Z.eqb_spec (g_opt r) (-1)) as [->|]; [|reflexivity].
  eval_codes. cbn. discriminate.
Qed.

Lemma consumed_forall_static (d d' : frr_daemon_info)
    (l : list getopt_result) :
  same_static d d' ->
  Forall (fun r => consumed d r = true) l ->
  Forall (fun r => consumed d' r = true) l.
Proof.
  intros Hs. apply Forall_impl. intros r Hr.
  now rewrite (consumed_same_static d d' r Hs).
Qed.

(** One turn of the loop on a consumed result. *)
Lemma dispatch_one_spec (r : getopt_result) (rest : list getopt_result)
    (g : globals) (d : frr_daemon_info) :
  di g = Some d -> consumed d r = true -> getopt_pending g = r :: rest ->
  frr_opt (g_opt r) (g_optarg r) (set_getopt_pending rest g)
  = Return 0 (dispatch_one g r)
  /\ getopt_pending (dispatch_one g r) = rest
  /\ exists d',
      di (dispatch_one g r) = Some d' /\ same_static d d'
      /\ comb_optstr (dispatch_one g r) = comb_optstr g
      /\ comb_lo (dispatch_one g r) = comb_lo g
      /\ comb_helpstr (dispatch_one g r) = comb_helpstr g
      /\ stdout_buf (dispatch_one g r) = stdout_buf g
      /\ errors g <= errors (dispatch_one g r) <= errors g + 1
      /\ (forall c, already_set c g = true ->
                    already_set c (dispatch_one g r) = true)
      /\ (forall c, c <> g_opt r ->
                    already_set c (dispatch_one g r) = already_set c g)
      /\ (single_valued (g_opt r) = true ->
          already_set (g_opt r) (dispatch_one g r) = true)
      /\ (already_set (g_opt r) g = true ->
          errors (dispatch_one g r) = errors g + 1)
      /\ (already_set (g_opt r) g = false ->
          (forall text, g_opt r = chr "P" -> g_optarg r = Some text ->
                        port_text_invalid text = false) ->
          errors (dispatch_one g r) = errors g).
Proof.
  intros Hd Hc Hp.
  destruct (frr_opt_consumed r (set_getopt_pending rest g) d Hd Hc)
    as (g' & d' & E & Hd' & Hst & Hfr & He & H1 & H2 & H3 & H4 & H5).
  assert (Eone : dispatch_one g r = g').
  { unfold dispatch_one. rewrite Hp. cbn [tl]. now rewrite E. }
  rewrite Eone. destruct Hfr as (F1 & F2 & F3 & F4 & F5).
  split; [exact E|]. split; [exact F4|].
  exists d'. split; [exact Hd'|]. split; [exact Hst|].
  repeat split; try assumption; try apply He.
Qed.

(** The loop runs through a prefix of consumed results. *)
Lemma frr_getopt_loop_consumed (pre rest : list getopt_result) :
  forall (g : globals) (d : frr_daemon_info) (lidx : option Z),
    di g = Some d -> getopt_pending g = (pre ++ rest)%list ->
    Forall (fun r => consumed d r = true) pre ->
    frr_getopt_loop (pre ++ rest) lidx g
    = frr_getopt_loop rest (last_lidx pre lidx) (dispatch_all pre g)
    /\ getopt_pending (dispatch_all pre g) = rest
    /\ exists d1,
        di (dispatch_all pre g) = Some d1 /\ same_static d d1
        /\ comb_optstr (dispatch_all pre g) = comb_optstr g
        /\ comb_lo (dispatch_all pre g) = comb_lo g
        /\ comb_helpstr (dispatch_all pre g) = comb_helpstr g
        /\ stdout_buf (dispatch_all pre g) = stdout_buf g
        /\ errors g <= errors (dispatch_all pre g).
Proof.
  induction pre as [|e pre IH]; intros g d lidx Hd Hp Hall.
  - cbn. split; [reflexivity|]. split; [exact Hp|].
    exists d. split; [exact Hd|]. split; [apply same_static_refl|].
    repeat split. lia.
  - inversion Hall as [|? ? He Hpre]; subst.
    cbn [app] in Hp.
    destruct (dispatch_one_spec e (pre ++ rest) g d Hd He Hp)
      as (E & Hp' & d' & Hd' & Hst & C1 & C2 & C3 & C4 & C5 & _).
    destruct (IH (dispatch_one g e) d'
                (match g_lidx e with Some i => Some i | None => lidx end)
                Hd' Hp' (consumed_forall_static d d' pre Hst Hpre))
      as (L & P1 & d1 & Hd1 & Hst1 & D1 & D2 & D3 & D4 & D5).
    cbn [app].
    change (dispatch_all (e :: pre) g)
      with (dispatch_all pre (dispatch_one g e)).
    change (last_lidx (e :: pre) lidx)
      with (last_lidx pre
              (match g_lidx e with Some i => Some i | None => lidx end)).
    split; [|split; [exact P1|]].
    + rewrite <- L. cbn [frr_getopt_loop].
      unfold bind at 1. unfold getopt_long at 1. rewrite Hp.
      unfold bind at 1. rewrite E.
      cbn [Z.eqb negb]. now rewrite (consumed_not_end d e He).
    + exists d1. split; [exact Hd1|].
      split; [apply (same_static_trans d d' d1 Hst Hst1)|].
      repeat split; try congruence. lia.
Qed.

Lemma count_code_cons (c : Z) (e : getopt_result) (l : list getopt_result) :
  count_code c (e :: l)
  = ((if (g_opt e =? c)%Z then 1 else 0) + count_code c l)%nat.
Proof.
  unfold count_code. cbn [filter]. now destruct (g_opt e =? c).
Qed.

Lemma already_set_single_valued (c : Z) (g : globals) :
  already_set c g = true -> single_valued c = true.
Proof.
  unfold already_set, single_valued.
  destruct (c =? chr "A"), (c =? chr "P"), (c =? OPTION_VTYSOCK);
    try reflexivity; discriminate.
Qed.

(** A single-valued option met a second time raises the error count. *)
Lemma dispatch_all_duplicate (pre rest : list getopt_result) :
  forall (g : globals) (d : frr_daemon_info) (c : Z),
    di g = Some d -> getopt_pending g = (pre ++ rest)%list ->
    Forall (fun r => consumed d r = true) pre ->
    single_valued c = true ->
    (2 <= count_code c pre
     \/ (already_set c g = true /\ 1 <= count_code c pre))%nat ->
    errors g < errors (dispatch_all pre g).
Proof.
  induction pre as [|e pre IH]; intros g d c Hd Hp Hall Hsv Hcount.
  - unfold count_code in Hcount. cbn in Hcount. lia.
  - inversion Hall as [|? ? He Hpre]; subst. cbn [app] in Hp.
    destruct (dispatch_one_spec e (pre ++ rest) g d Hd He Hp)
      as (_ & Hp' & d' & Hd' & Hst & _ & _ & _ & _ & Herr & Hmono & _
          & Hnow & Hdup & _).
    assert (Hpre' := consumed_forall_static d d' pre Hst Hpre).
    destruct (frr_getopt_loop_consumed pre rest (dispatch_one g e) d' None
                Hd' Hp' Hpre') as (_ & _ & d1 & _ & _ & _ & _ & _ & _ & Hle).
    change (dispatch_all (e :: pre) g)
      with (dispatch_all pre (dispatch_one g e)).
    rewrite count_code_cons in Hcount.
    destruct (Z.eqb_spec (g_opt e) c) as [<-|Hne].
    + destruct (already_set (g_opt e) g) eqn:Hset.
      * specialize (Hdup eq_refl). lia.
      * assert (H : errors (dispatch_one g e)
                    < errors (dispatch_all pre (dispatch_one g e))).
        { apply (IH (dispatch_one g e) d' (g_opt e) Hd' Hp' Hpre' Hsv).
          right. split; [now apply Hnow|].
          destruct Hcount as [H|[H _]]; [lia | discriminate H]. }
        lia.
    + assert (H : errors (dispatch_one g e)
                  < errors (dispatch_all pre (dispatch_one g e))).
      { apply (IH (dispatch_one g e) d' c Hd' Hp' Hpre' Hsv).
        destruct Hcount as [H|[H1 H2]]; [left; exact H|].
        right. split; [now apply Hmono | exact H2]. }
      lia.
Qed.

(** Single-valued options met at most once, with valid port values, leave
    the error count as it was. *)
Lemma dispatch_all_once (pre rest : list getopt_result) :
  forall (g : globals) (d : frr_daemon_info),
    di g = Some d -> getopt_pending g = (pre ++ rest)%list ->
    Forall (fun r => consumed d r = true) pre ->
    (forall c, single_valued c = true ->
               (count_code c pre <= 1)%nat
               /\ (already_set c g = true -> count_code c pre = 0%nat)) ->
    ports_valid pre ->
    errors (dispatch_all pre g) = errors g.
Proof.
  induction pre as [|e pre IH]; intros g d Hd Hp Hall Honce Hports.
  - reflexivity.
  - inversion Hall as [|? ? He Hpre]; subst. cbn [app] in Hp.
    destruct (dispatch_one_spec e (pre ++ rest) g d Hd He Hp)
      as (_ & Hp' & d' & Hd' & Hst & _ & _ & _ & _ & _ & _ & Hother
          & _ & _ & Hfresh).
    assert (Hpre' := consumed_forall_static d d' pre Hst Hpre).
    change (dispatch_all (e :: pre) g)
      with (dispatch_all pre (dispatch_one g e)).
    assert (Hunset : already_set (g_opt e) g = false).
    { destruct (already_set (g_opt e) g) eqn:Hset; [|reflexivity].
      destruct (Honce (g_opt e) (already_set_single_valued _ _ Hset))
        as [_ H0]. specialize (H0 Hset).
      rewrite count_code_cons, Z.eqb_refl in H0. discriminate H0. }
    rewrite (IH (dispatch_one g e) d' Hd' Hp' Hpre').
    + apply Hfresh; [exact Hunset|].
      intros text Hc Ht. apply (Hports e text); [now left | exact Hc | exact Ht].
    + intros c Hsv. destruct (Honce c Hsv) as [H1 H0].
      rewrite count_code_cons in H1, H0.
      split; [lia|]. intros Hset.
      destruct (Z.eqb_spec (g_opt e) c) as [<-|Hne]; [lia|].
      rewrite Hother in Hset by congruence. specialize (H0 Hset). lia.
    + intros r text Hin. apply Hports. now right.
Qed.


(** ** The scan: [frr_getopt] *)

Lemma frr_opt_end (optarg : option string) (g : globals) :
  frr_opt (-1) optarg g = Return 1 g.
Proof.
  apply frr_opt_default. unfold dispatcher_codes. eval_codes.
  cbn. intuition discriminate.
Qed.

Lemma frr_getopt_loop_nil (lidx : option Z) (g : globals) :
  getopt_pending g = [] ->
  frr_getopt_loop [] lidx g = Return (-1, lidx) g.
Proof.
  intros Hp. cbn [frr_getopt_loop].
  unfold bind, getopt_long. rewrite Hp. cbn [g_opt g_optarg].
  now rewrite frr_opt_end.
Qed.

(** A scan that meets only consumed results runs to the end of the
    options; the accumulated count then decides between returning [-1]
    and the help exit with status 1. *)
Lemma frr_getopt_all_consumed (longindex : bool) (g : globals)
    (d : frr_daemon_info) :
  di g = Some d -> (List.length (comb_lo g) < COMB_LO_SIZE)%nat ->
  Forall (fun r => consumed d r = true) (getopt_pending g) ->
  exists d1,
    di (dispatch_all (getopt_pending g) g) = Some d1
    /\ frr_getopt longindex g =
       if errors (dispatch_all (getopt_pending g) g) =? 0
       then Return (-1, if longindex
                        then last_lidx (getopt_pending g) None else None)
              (dispatch_all (getopt_pending g) g)
       else Exit 1
              (set_stderr_buf
                 (stderr_buf (dispatch_all (getopt_pending g) g)
                  ++ ("Invalid options." ++ nl ++ nl)
                  ++ help_text stderr d1
                       (dispatch_all (getopt_pending g) g))
                 (dispatch_all (getopt_pending g) g)).
Proof.
  intros Hd Hlo Hall.
  assert (Hp : getopt_pending g = (getopt_pending g ++ [])%list)
    by now rewrite app_nil_r.
  destruct (frr_getopt_loop_consumed (getopt_pending g) [] g d None Hd Hp Hall)
    as (L & P1 & d1 & Hd1 & _).
  rewrite app_nil_r in L.
  exists d1. split; [exact Hd1|].
  unfold frr_getopt. unfold bind at 1, get at 1.
  apply Nat.ltb_lt in Hlo. rewrite Hlo.
  unfold bind at 1, ret at 1. unfold bind at 1.
  rewrite L, (frr_getopt_loop_nil _ _ P1).
  unfold bind at 1, get at 1. cbn [fst snd Z.eqb andb].
  destruct (errors (dispatch_all (getopt_pending g) g) =? 0); cbn [negb].
  - reflexivity.
  - cbn [Pos.eqb andb]. unfold bind at 1.
    rewrite (frr_help_exit_eq unit 1 _ d1 Hd1). reflexivity.
Qed.

(** A scan that meets, after consumed results, a code the dispatcher has no
    case for hands that code back to the caller. *)
Lemma frr_getopt_handed_back (longindex : bool) (g : globals)
    (d : frr_daemon_info) (pre : list getopt_result) (r : getopt_result)
    (post : list getopt_result) :
  di g = Some d -> (List.length (comb_lo g) < COMB_LO_SIZE)%nat ->
  getopt_pending g = (pre ++ r :: post)%list ->
  Forall (fun e => consumed d e = true) pre ->
  ~ In (g_opt r) dispatcher_codes -> g_opt r <> -1 ->
  frr_getopt longindex g =
  Return (g_opt r,
          if longindex then last_lidx (pre ++ [r]) None else None)
    (set_getopt_pending post (dispatch_all pre g)).
Proof.
  intros Hd Hlo Hp Hall Hcode Hend.
  destruct (frr_getopt_loop_consumed pre (r :: post) g d None Hd Hp Hall)
    as (L & P1 & _).
  unfold frr_getopt. unfold bind at 1, get at 1.
  apply Nat.ltb_lt in Hlo. rewrite Hlo.
  unfold bind at 1, ret at 1. unfold bind at 1.
  rewrite Hp, L. cbn [frr_getopt_loop].
  unfold bind at 1, getopt_long at 1. rewrite P1.
  unfold bind at 1. rewrite (frr_opt_default _ _ _ Hcode).
  cbn [Z.eqb negb]. unfold ret at 1.
  unfold bind at 1, get at 1. cbn [fst snd].
  apply Z.eqb_neq in Hend. rewrite Hend. cbn [andb].
  unfold bind at 1, ret at 1. unfold ret.
  unfold last_lidx. rewrite fold_left_app. reflexivity.
Qed.

(** ** The dispatcher: exits and the scanner's position *)

Ltac break_matches :=
  repeat (run_monad; cbv beta iota;
          match goal with
          | |- context [match ?x with _ => _ end] =>
              lazymatch x with
              | context [match _ with _ => _ end] => fail
              | _ => destruct x eqn:?
              end
          end).

Lemma frr_help_exit_null (A : Type) (status : Z) (g : globals) :
  di g = None -> @frr_help_exit A status g = Undefined.
Proof.
  intros Hd. unfold frr_help_exit.
  destruct (status =? 0); run_monad; now rewrite Hd.
Qed.

Lemma frr_help_exit_status (A : Type) (status : Z) (g : globals)
    (s : Z) (g' : globals) :
  @frr_help_exit A status g = Exit s g' -> s = status.
Proof.
  destruct (di g) as [d|] eqn:Hd.
  - rewrite (frr_help_exit_eq A status g d Hd). now intros [= <- _].
  - now rewrite frr_help_exit_null.
Qed.

Lemma frr_help_exit_no_return (A : Type) (status : Z) (g : globals)
    (a : A) (g' : globals) :
  @frr_help_exit A status g <> Return a g'.
Proof.
  destruct (di g) as [d|] eqn:Hd.
  - now rewrite (frr_help_exit_eq A status g d Hd).
  - now rewrite frr_help_exit_null.
Qed.

(** The dispatcher leaves the process only for [-h] and [-v], with
    status 0. *)
Lemma frr_opt_exit (opt : Z) (optarg : option string) (g : globals)
    (status : Z) (g' : globals) :
  frr_opt opt optarg g = Exit status g' ->
  status = 0 /\ (opt = chr "h" \/ opt = chr "v").
Proof.
  unfold frr_opt.
  destruct (Z.eqb_spec opt (chr "h")) as [->|_].
  { unfold bind at 1.
    destruct (frr_help_exit 0 g) as [? ?|s g1|] eqn:E; try discriminate.
    apply frr_help_exit_status in E. intros [= <- _]. auto. }
  destruct (Z.eqb_spec opt (chr "v")) as [->|_].
  { run_monad. destruct (di g); cbv beta iota; [|discriminate].
    intros [= <- _]. auto. }
  break_matches; discriminate.
Qed.

Lemma frr_opt_return_pending (opt : Z) (optarg : option string)
    (g : globals) (r : Z) (g' : globals) :
  frr_opt opt optarg g = Return r g' ->
  getopt_pending g' = getopt_pending g.
Proof.
  unfold frr_opt.
  destruct (Z.eqb_spec opt (chr "h")) as [->|_].
  { unfold bind at 1.
    destruct (frr_help_exit 0 g) as [? ?|s g1|] eqn:E; try discriminate.
    now apply frr_help_exit_no_return in E. }
  break_matches; try discriminate; intros [= _ <-]; reflexivity.
Qed.

Lemma frr_getopt_loop_exit (pending : list getopt_result) :
  forall (lidx : option Z) (g : globals) (status : Z) (g' : globals),
    frr_getopt_loop pending lidx g = Exit status g' -> status = 0.
Proof.
  induction pending as [|e pending IH]; intros lidx g status g';
    cbn [frr_getopt_loop]; unfold bind at 1, getopt_long at 1.
  - destruct (getopt_pending g) as [|r rest]; unfold bind at 1;
      destruct (frr_opt _ _ _) as [? ?|s g1|] eqn:E; try discriminate;
      intros [= <- _]; now apply frr_opt_exit in E.
  - destruct (getopt_pending g) as [|r rest]; unfold bind at 1;
      destruct (frr_opt _ _ _) as [h g1|s g1|] eqn:E; try discriminate;
      try (intros [= <- _]; now apply frr_opt_exit in E);
      destruct (negb (h =? 0)); try discriminate;
      destruct (_ =? -1); try discriminate; apply IH.
Qed.

(** When the loop hands back [-1] the scanner has nothing left to yield. *)
Lemma frr_getopt_loop_end (pending : list getopt_result) :
  forall (lidx : option Z) (g : globals) (l : option Z) (g1 : globals),
    getopt_pending g = pending ->
    Forall (fun r => g_opt r <> -1) pending ->
    frr_getopt_loop pending lidx g = Return (-1, l) g1 ->
    getopt_pending g1 = [].
Proof.
  induction pending as [|e pending IH]; intros lidx g l g1 Hp Hne;
    cbn [frr_getopt_loop]; unfold bind at 1, getopt_long at 1; rewrite Hp.
  - cbn [g_opt g_optarg]. unfold bind at 1. rewrite frr_opt_end.
    unfold ret. intros [= _ <-]. exact Hp.
  - inversion Hne as [|? ? He Hrest]; subst.
    unfold bind at 1.
    destruct (frr_opt _ _ _) as [h g2|s g2|] eqn:E; try discriminate.
    apply frr_opt_return_pending in E. cbn [getopt_pending set_getopt_pending] in E.
    destruct (negb (h =? 0)).
    + unfold ret. intros [= Hc _]. contradiction.
    + destruct (Z.eqb_spec (g_opt e) (-1)) as [Hc|_]; [contradiction|].
      now apply IH.
Qed.

(** ** The scan: theorems *)

(** C7.  Whenever the dispatcher meets [-h] or [-v] the process exits with
    status 0, the help text or the version going to standard output and
    nothing to standard error, whatever the error count is at that point;
    and a scan that reaches one of them after options it consumed, some of
    them possibly counted as errors, ends that way. *)
Theorem help_and_version_exit_zero :
  forall g d,
    di g = Some d ->
    (forall optarg,
        frr_opt (chr "h") optarg g =
        Exit 0 (set_stdout_buf (stdout_buf g ++ help_text stdout d g) g))
    /\ (forall optarg,
          frr_opt (chr "v") optarg g =
          Exit 0 (set_stdout_buf
                    (stdout_buf g ++ version_text (progname d)) g))
    /\ (forall longindex pre r post,
          (List.length (comb_lo g) < COMB_LO_SIZE)%nat ->
          getopt_pending g = (pre ++ r :: post)%list ->
          Forall (fun e => consumed d e = true) pre ->
          g_opt r = chr "h" \/ g_opt r = chr "v" ->
          exists g',
            frr_getopt longindex g = Exit 0 g'
            /\ stdout_buf g' =
               stdout_buf g
               ++ (if g_opt r =? chr "h"
                   then help_text stdout d g
                   else version_text (progname d))
            /\ errors g <= errors g').
Proof.
  intros g d Hd.
  split; [intros; now apply frr_opt_h|].
  split; [intros; now apply frr_opt_v|].
  intros longindex pre r post Hlo Hp Hall Hr.
  destruct (frr_getopt_loop_consumed pre (r :: post) g d None Hd Hp Hall)
    as (L & P1 & d1 & Hd1 & Hst & _ & _ & Hhelp & Hout & Herr).
  set (g1 := dispatch_all pre g) in *.
  assert (Hd1' : di (set_getopt_pending post g1) = Some d1) by exact Hd1.
  assert (Hloop : exists g',
             frr_getopt_loop (r :: post) (last_lidx pre None) g1 = Exit 0 g'
             /\ stdout_buf g' =
                stdout_buf g
                ++ (if g_opt r =? chr "h"
                    then help_text stdout d g
                    else version_text (progname d))
             /\ errors g <= errors g').
  { cbn [frr_getopt_loop]. unfold bind at 1, getopt_long at 1. rewrite P1.
    unfold bind at 1.
    destruct Hr as [Hr|Hr]; rewrite Hr.
    - rewrite (frr_opt_h _ _ d1 Hd1'). eexists. split; [reflexivity|].
      cbn [stdout_buf set_stdout_buf set_getopt_pending errors].
      split; [|exact Herr].
      rewrite Hout. f_equal.
      change (help_text stdout d1 (set_getopt_pending post g1))
        with (help_text stdout d1 g1).
      apply help_text_same; assumption.
    - rewrite (frr_opt_v _ _ d1 Hd1'). eexists. split; [reflexivity|].
      cbn [stdout_buf set_stdout_buf set_getopt_pending errors].
      split; [|exact Herr].
      rewrite Hout. destruct Hst as (_ & Hpn & _). now rewrite Hpn. }
  destruct Hloop as (g' & Eloop & Hres).
  exists g'. split; [|exact Hres].
  unfold frr_getopt. unfold bind at 1, get at 1.
  apply Nat.ltb_lt in Hlo. rewrite Hlo.
  unfold bind at 1, ret at 1. unfold bind at 1.
  rewrite Hp, L. fold g1. now rewrite Eloop.
Qed.


(** * Further properties of the unit *)

(** ** Registration *)

Lemma concat_strings_cons (s : string) (l : list string) :
  concat_strings (s :: l) = s ++ concat_strings l.
Proof. reflexivity. Qed.

Lemma length_concat_optstr (l : list optspec) :
  String.length (concat_strings (map optstr l)) = total_optstr l.
Proof.
  induction l as [|os l IH]; [reflexivity|]. cbn [map total_optstr].
  now rewrite concat_strings_cons, length_append, IH.
Qed.

Lemma length_concat_helpstr (l : list optspec) :
  String.length (concat_strings (map helpstr l)) = total_helpstr l.
Proof.
  induction l as [|os l IH]; [reflexivity|]. cbn [map total_helpstr].
  now rewrite concat_strings_cons, length_append, IH.
Qed.

Lemma length_concat_longopts (l : list optspec) :
  List.length (List.concat (map longopts l)) = total_longopts l.
Proof.
  induction l as [|os l IH]; [reflexivity|].
  cbn [map List.concat total_longopts]. now rewrite length_app, IH.
Qed.

Lemma append_all_fields (l : list optspec) (g : globals) :
  comb_optstr (append_all l g)
  = comb_optstr g ++ concat_strings (map optstr l)
  /\ comb_helpstr (append_all l g)
     = comb_helpstr g ++ concat_strings (map helpstr l)
  /\ comb_lo (append_all l g)
     = (comb_lo g ++ List.concat (map longopts l))%list
  /\ same_outside_table g (append_all l g).
Proof.
  revert g; induction l as [|os l IH]; intros g.
  - cbn. rewrite !append_nil_r, app_nil_r. repeat split.
  - change (append_all (os :: l) g) with (append_all l (append_fragment os g)).
    destruct (IH (append_fragment os g)) as (H1 & H2 & H3 & H4).
    rewrite H1, H2, H3. cbn [map concat_strings fold_right List.concat].
    cbn [append_fragment comb_optstr comb_helpstr comb_lo set_comb_lo
         set_comb_helpstr set_comb_optstr].
    rewrite !append_assoc, <- app_assoc.
    split; [reflexivity|]. split; [reflexivity|]. split; [reflexivity|].
    exact H4.
Qed.

Lemma copy_longopts_return (lo : list struct_option) :
  forall (g g' : globals) (u : unit),
    copy_longopts lo g = Return u g' ->
    g' = set_comb_lo (comb_lo g ++ lo) g.
Proof.
  induction lo as [|o lo IH]; intros g g' u; cbn [copy_longopts].
  - unfold ret. intros [= _ <-]. rewrite app_nil_r. now destruct g.
  - unfold bind, get, modify.
    destruct (List.length (comb_lo g) <? COMB_LO_SIZE)%nat; [|discriminate].
    intros E. apply IH in E. rewrite E.
    cbn [comb_lo set_comb_lo]. now rewrite <- app_assoc.
Qed.

(** X1.  In every run of [opt_extend] that stays inside the arrays, the
    three buffers are what they were followed by the fragment's short
    spec, help text and long options, and nothing else of the state is
    touched: descriptor, error count, duplicate flags, scanner position,
    output, umask and the calls made are as before.  No capacity is
    assumed of the state the call starts in. *)
Theorem opt_extend_touches_only_the_table :
  forall os g u g',
    opt_extend os g = Return u g' ->
    comb_optstr g' = comb_optstr g ++ optstr os
    /\ comb_helpstr g' = comb_helpstr g ++ helpstr os
    /\ comb_lo g' = (comb_lo g ++ longopts os)%list
    /\ same_outside_table g g'.
Proof.
  intros os g u g'. unfold opt_extend, strcat, bind, get, modify, undefined.
  destruct (String.length (comb_optstr g) + String.length (optstr os) + 1
            <=? COMB_OPTSTR_SIZE)%nat; [|discriminate].
  cbn [comb_helpstr set_comb_optstr].
  destruct (String.length (comb_helpstr g) + String.length (helpstr os) + 1
            <=? COMB_HELPSTR_SIZE)%nat; [|discriminate].
  intros E. apply copy_longopts_return in E. rewrite E.
  repeat split.
Qed.

Lemma register_all_app (l1 l2 : list optspec) (g : globals) :
  register_all (l1 ++ l2) g = (register_all l1 ;;; register_all l2) g.
Proof.
  revert g; induction l1 as [|os l1 IH]; intros g; cbn [app register_all].
  - reflexivity.
  - unfold bind.
    destruct (opt_extend os g) as [u g1|s g1|]; try reflexivity.
    rewrite IH. reflexivity.
Qed.

(** X2.  Registering fragments one after the other is registering their
    concatenation, and when it returns the short spec, the help text and the
    long options are the earlier contents followed by the fragments' parts
    in the order of registration. *)
Theorem registration_order_is_table_order :
  (forall l1 l2 g,
      register_all (l1 ++ l2) g = (register_all l1 ;;; register_all l2) g)
  /\ (forall l g g',
        within_capacity g -> register_all l g = Return tt g' ->
        comb_optstr g' = comb_optstr g ++ concat_strings (map optstr l)
        /\ comb_helpstr g' = comb_helpstr g ++ concat_strings (map helpstr l)
        /\ comb_lo g' = (comb_lo g ++ List.concat (map longopts l))%list
        /\ within_capacity g').
Proof.
  split; [exact register_all_app|].
  intros l g g' Hg E.
  destruct (all_fit_dec l g) as [Hfit|Hfit].
  - rewrite (register_all_eq l g Hg Hfit) in E. injection E as <-.
    destruct (append_all_fields l g) as (H1 & H2 & H3 & _).
    split; [exact H1|]. split; [exact H2|]. split; [exact H3|].
    unfold within_capacity. rewrite H1, H2, H3.
    rewrite !length_append, length_app.
    clear H1 H2 H3 Hg. revert Hfit. unfold all_fit.
    rewrite length_concat_optstr, length_concat_helpstr,
      length_concat_longopts. lia.
  - rewrite (register_all_overflow l g Hg Hfit) in E. discriminate E.
Qed.

(** X3.  The last of the 64 long-option slots is of no use: a registration
    may fill it, but [frr_getopt] then writes its sentinel past the array. *)
Theorem full_table_breaks_frr_getopt :
  (forall longindex g,
      (COMB_LO_SIZE <= List.length (comb_lo g))%nat ->
      frr_getopt longindex g = Undefined)
  /\ (forall os g,
        within_capacity g -> fits os g = true ->
        (List.length (comb_lo g) + List.length (longopts os)
         = COMB_LO_SIZE)%nat ->
        exists g',
          opt_extend os g = Return tt g'
          /\ forall longindex, frr_getopt longindex g' = Undefined).
Proof.
  assert (H : forall longindex g,
             (COMB_LO_SIZE <= List.length (comb_lo g))%nat ->
             frr_getopt longindex g = Undefined).
  { intros longindex g Hfull. unfold frr_getopt.
    unfold bind at 1, get at 1.
    apply Nat.ltb_ge in Hfull. rewrite Hfull. reflexivity. }
  split; [exact H|].
  intros os g Hg Hfit Hlen.
  exists (append_fragment os g).
  split; [rewrite opt_extend_eq by apply Hg; now rewrite Hfit|].
  intros longindex. apply H.
  cbn [append_fragment comb_lo set_comb_lo]. rewrite length_app. lia.
Qed.

(** ** The final path segment *)

Lemma strrchr_none (s : string) (c : ascii) :
  strrchr s c = None <-> str_mem c s = false.
Proof.
  induction s as [|a s IH]; cbn [strrchr str_mem];
    [split; intros _; reflexivity|].
  destruct (strrchr s c) as [r|].
  - split; [discriminate|]. intros H. apply orb_false_iff in H as [_ H].
    apply IH in H. discriminate H.
  - destruct (Ascii.eqb a c); cbn [orb].
    + split; discriminate.
    + split; [intros _; now apply IH | reflexivity].
Qed.

(** What [strrchr] finds starts with the character, holds no further
    occurrence of it, and is the end of the string. *)
Lemma strrchr_some (s : string) (c : ascii) (r : string) :
  strrchr s c = Some r ->
  exists pre rest,
    s = pre ++ String c rest /\ r = String c rest /\ str_mem c rest = false.
Proof.
  revert r; induction s as [|a s IH]; intros r; cbn [strrchr];
    [discriminate|].
  destruct (strrchr s c) as [r'|] eqn:E.
  - intros [= <-]. destruct (IH r' eq_refl) as (pre & rest & H1 & H2 & H3).
    exists (String a pre), rest. cbn. now rewrite <- H1.
  - destruct (Ascii.eqb_spec a c) as [->|_]; [|discriminate].
    intros [= <-]. exists "", s. repeat split. now apply strrchr_none.
Qed.

Lemma last_segment_no_slash (s : string) :
  str_mem "/" (last_segment s) = false.
Proof.
  unfold last_segment. destruct (strrchr s "/") as [r|] eqn:E.
  - destruct (strrchr_some s "/" r E) as (pre & rest & _ & -> & H).
    exact H.
  - now apply strrchr_none.
Qed.

Lemma last_segment_split (s : string) :
  exists dir,
    s = dir ++ last_segment s
    /\ (dir = "" \/ exists parent, dir = parent ++ "/").
Proof.
  unfold last_segment. destruct (strrchr s "/") as [r|] eqn:E.
  - destruct (strrchr_some s "/" r E) as (pre & rest & Hs & -> & _).
    exists (pre ++ "/"). cbn [ptr_succ]. split.
    + rewrite append_assoc. exact Hs.
    + right. now exists pre.
  - exists "". split; [reflexivity | now left].
Qed.

Lemma strrchr_join (dir name : string) (c : ascii) :
  str_mem c name = false ->
  strrchr (dir ++ String c name) c = Some (String c name).
Proof.
  intros H. induction dir as [|a dir IH]; cbn [append strrchr].
  - apply strrchr_none in H. rewrite H. now rewrite Ascii.eqb_refl.
  - now rewrite IH.
Qed.

Lemma last_segment_join (dir name : string) :
  str_mem "/" name = false ->
  last_segment (dir ++ "/" ++ name) = name.
Proof.
  intros H. unfold last_segment.
  change (dir ++ "/" ++ name) with (dir ++ String "/" name).
  now rewrite (strrchr_join dir name "/" H).
Qed.

Lemma last_segment_plain (name : string) :
  str_mem "/" name = false -> last_segment name = name.
Proof.
  intros H. unfold last_segment. apply strrchr_none in H. now rewrite H.
Qed.

Lemma str_take_prefix (n : nat) (s : string) :
  exists tail, s = str_take n s ++ tail
               /\ (String.length (str_take n s) <= n)%nat.
Proof.
  revert n; induction s as [|a s IH]; intros [|n]; cbn [str_take].
  - exists "". split; [reflexivity | cbn; lia].
  - exists "". split; [reflexivity | cbn; lia].
  - exists (String a s). split; [reflexivity | cbn; lia].
  - destruct (IH n) as (tail & H1 & H2). exists tail. cbn.
    split; [now rewrite <- H1 | lia].
Qed.

(** ** [frr_preinit] *)

Lemma register_all_frame (l : list optspec) (g g' : globals) (u : unit) :
  within_capacity g -> register_all l g = Return u g' ->
  same_outside_table g g'.
Proof.
  intros Hg E.
  destruct (all_fit_dec l g) as [Hfit|Hfit].
  - rewrite (register_all_eq l g Hg Hfit) in E. injection E as _ <-.
    apply append_all_fields.
  - rewrite (register_all_overflow l g Hg Hfit) in E. discriminate E.
Qed.

(** X4.  When [frr_preinit] returns, the descriptor is installed as the
    daemon gave it except for the program name, which, read back from the
    installed descriptor, is [argv[0]] without its directory part: it holds
    no slash, and [argv[0]] is it or ends in a slash followed by it.  The
    umask is 027 and the error count, the duplicate flags and the output
    are as before.  Without an [argv[0]] the call is undefined. *)
Theorem frr_preinit_installs_descriptor :
  (forall daemon argc argv0 rest g g',
      within_capacity g ->
      frr_preinit daemon argc (argv0 :: rest) g = Return tt g' ->
      exists dir name d',
        di g' = Some d'
        /\ progname d' = name
        /\ name = last_segment argv0
        /\ argv0 = dir ++ name
        /\ (dir = "" \/ exists parent, dir = parent ++ "/")
        /\ str_mem "/" name = false
        /\ flags d' = flags daemon /\ proghelp d' = proghelp daemon
        /\ copyright d' = copyright daemon
        /\ printhelp d' = printhelp daemon
        /\ vty_addr d' = vty_addr daemon /\ vty_port d' = vty_port daemon
        /\ vty_sock_path d' = vty_sock_path daemon
        /\ privs d' = privs daemon
        /\ di g' = Some (set_progname name daemon)
        /\ umask_mode g' = 23
        /\ errors g' = errors g
        /\ vty_addr_set g' = vty_addr_set g
        /\ vty_port_set g' = vty_port_set g
        /\ stdout_buf g' = stdout_buf g /\ stderr_buf g' = stderr_buf g)
  /\ (forall daemon argc g, frr_preinit daemon argc [] g = Undefined).
Proof.
  split; [|reflexivity].
  intros daemon argc argv0 rest g g' Hg E.
  rewrite frr_preinit_eq in E.
  apply register_all_frame in E; [|exact Hg].
  destruct E as (H1 & H2 & H3 & H4 & _ & H6 & H7 & H8 & _).
  destruct (last_segment_split argv0) as (dir & Hsplit & Hdir).
  exists dir, (last_segment argv0), (set_progname (last_segment argv0) daemon).
  split; [exact H1|]. split; [reflexivity|]. split; [reflexivity|].
  split; [exact Hsplit|]. split; [exact Hdir|].
  split; [apply last_segment_no_slash|].
  do 8 (split; [reflexivity|]).
  split; [exact H1|].
  repeat split; assumption.
Qed.

(** ** [frr_vty_serv] *)

(** X5.  With an override directory only the final segment of the base
    path counts: any directory in front of it gives the same call.  The
    call is read back as the last entry of the calls made; its path is a
    prefix of the override, a slash and that segment, of at most
    [MAXPATHLEN - 1] characters, its address and port are the
    descriptor's, and nothing else of the state changes. *)
Theorem override_uses_only_final_segment :
  forall g d ov dir name,
    di g = Some d -> vty_sock_path d = Some ov ->
    str_mem "/" name = false ->
    exists g' call tail,
      frr_vty_serv (dir ++ "/" ++ name) g = Return tt g'
      /\ frr_vty_serv name g = Return tt g'
      /\ vty_serv_calls g' = (vty_serv_calls g ++ [call])%list
      /\ serv_addr call = vty_addr d /\ serv_port call = vty_port d
      /\ serv_path call = snprintf MAXPATHLEN (ov ++ "/" ++ name)
      /\ ov ++ "/" ++ name = serv_path call ++ tail
      /\ (String.length (serv_path call) <= Nat.pred MAXPATHLEN)%nat
      /\ ((String.length (ov ++ "/" ++ name) < MAXPATHLEN)%nat ->
          serv_path call = ov ++ "/" ++ name)
      /\ di g' = di g /\ errors g' = errors g
      /\ stdout_buf g' = stdout_buf g /\ stderr_buf g' = stderr_buf g.
Proof.
  intros g d ov dir name Hd Hov Hname.
  assert (E : forall path,
             last_segment path = name ->
             frr_vty_serv path g
             = Return tt
                 (set_vty_serv_calls
                    (vty_serv_calls g
                     ++ [mk_serv (vty_addr d) (vty_port d)
                           (snprintf MAXPATHLEN (ov ++ "/" ++ name))]) g)).
  { intros path Hp. unfold frr_vty_serv, vty_serv_sock.
    run_monad. rewrite Hd. cbv beta iota. rewrite Hov.
    fold (last_segment path). now rewrite Hp. }
  destruct (str_take_prefix (Nat.pred MAXPATHLEN) (ov ++ "/" ++ name))
    as (tail & H1 & H2).
  exists (set_vty_serv_calls
            (vty_serv_calls g
             ++ [mk_serv (vty_addr d) (vty_port d)
                   (snprintf MAXPATHLEN (ov ++ "/" ++ name))]) g),
    (mk_serv (vty_addr d) (vty_port d)
       (snprintf MAXPATHLEN (ov ++ "/" ++ name))), tail.
  split; [exact (E _ (last_segment_join dir name Hname))|].
  split; [exact (E _ (last_segment_plain name Hname))|].
  do 4 (split; [reflexivity|]).
  split; [exact H1|]. split; [exact H2|].
  split; [|repeat split].
  intros Hlen. cbn [serv_path]. unfold snprintf.
  rewrite str_take_all by lia. reflexivity.
Qed.

(** ** [frr_help_exit] *)

(** X6.  With the descriptor installed [frr_help_exit(status)] never
    returns: it exits with [status].  For status 0 the output goes to
    standard output alone; for any other status standard output is left
    alone and standard error receives the line "Invalid options." first.
    Either way the text ends with the bug-report footer, also after a
    renderer of the daemon's own, and nothing but the stream changes.
    Without a descriptor the call is undefined. *)
Theorem frr_help_exit_streams :
  (forall (A : Type) status g d,
      di g = Some d ->
      exists g' body,
        @frr_help_exit A status g = Exit status g'
        /\ (status = 0 ->
            stdout_buf g' = stdout_buf g ++ body ++ bug_footer
            /\ stderr_buf g' = stderr_buf g)
        /\ (status <> 0 ->
            stderr_buf g' =
              stderr_buf g ++ ("Invalid options." ++ nl ++ nl)
              ++ body ++ bug_footer
            /\ stdout_buf g' = stdout_buf g)
        /\ (printhelp d = None -> body = usage_text d (comb_helpstr g))
        /\ (forall render, printhelp d = Some render ->
                           body = render (if status =? 0
                                          then stdout else stderr))
        /\ di g' = di g /\ errors g' = errors g
        /\ comb_optstr g' = comb_optstr g /\ comb_lo g' = comb_lo g
        /\ comb_helpstr g' = comb_helpstr g
        /\ getopt_pending g' = getopt_pending g)
  /\ (forall (A : Type) status g,
        di g = None -> @frr_help_exit A status g = Undefined).
Proof.
  split; [|exact frr_help_exit_null].
  intros A status g d Hd.
  rewrite (frr_help_exit_eq A status g d Hd). unfold help_text.
  destruct (Z.eqb_spec status 0) as [Hs|Hs].
  - eexists. exists (match printhelp d with
                     | Some render => render stdout
                     | None => usage_text d (comb_helpstr g)
                     end).
    split; [reflexivity|].
    split; [intros _; split; reflexivity|].
    split; [intros H; contradiction|].
    split; [intros Hn; now rewrite Hn|].
    split; [intros render Hr; now rewrite Hr|].
    repeat split.
  - eexists. exists (match printhelp d with
                     | Some render => render stderr
                     | None => usage_text d (comb_helpstr g)
                     end).
    split; [reflexivity|].
    split; [intros H; contradiction|].
    split; [intros _; split; reflexivity|].
    split; [intros Hn; now rewrite Hn|].
    split; [intros render Hr; now rewrite Hr|].
    repeat split.
Qed.

(** ** The dispatcher on any code *)

Ltac frr_opt_leaf :=
  match goal with
  | |- Return _ _ = Return _ _ -> _ => intros [= <- <-]
  | |- _ = _ -> _ => discriminate
  end.

(** Whatever the code and the state, a call of [frr_opt] that returns has
    returned 0 or 1, the latter with the state untouched; it has left the
    combined table, the scanner and standard output alone and kept the
    fixed part of an installed descriptor; and it has counted at most one
    error, each with a diagnostic on standard error and none without. *)
Lemma frr_opt_return (opt : Z) (optarg : option string) (g : globals)
    (r : Z) (g' : globals) :
  frr_opt opt optarg g = Return r g' ->
  (r = 0 \/ r = 1)
  /\ (r = 1 -> g' = g)
  /\ same_frame g g'
  /\ errors g <= errors g' <= errors g + 1
  /\ (exists msg,
        stderr_buf g' = stderr_buf g ++ msg
        /\ (msg = "" <-> errors g' = errors g))
  /\ (forall d, di g = Some d ->
                exists d', di g' = Some d' /\ same_static d d').
Proof.
  unfold frr_opt.
  destruct (Z.eqb_spec opt (chr "h")) as [->|_].
  { unfold bind at 1.
    destruct (frr_help_exit 0 g) as [? ?|s g1|] eqn:E; try discriminate.
    now apply frr_help_exit_no_return in E. }
  break_matches; try discriminate; intros [= <- <-];
    (split; [auto|]); (split; [try discriminate; reflexivity|]);
    (split; [repeat split|]);
    cbn [errors set_errors set_stderr_buf set_di set_vty_addr_set
         set_vty_port_set stderr_buf di];
    (split; [lia|]);
    (split;
     [first [exists ""; split; [now rewrite append_nil_r|split; [lia|reflexivity]]
            |eexists; split; [reflexivity|split; [discriminate|lia]]]
     |]);
    intros d0 Hd0;
    repeat match goal with
           | H : match di ?x with _ => _ end = _ |- _ =>
               destruct (di x) eqn:?; try discriminate H;
               injection H as <- <-
           end;
    try (rewrite Hd0; eexists; split; [reflexivity|apply same_static_refl]);
    try (eexists; split; [reflexivity|];
         repeat match goal with
                | H : Some _ = Some _ |- _ => injection H as <-
                | H : di _ = Some _, H' : di _ = Some _ |- _ =>
                    rewrite H in H'; injection H' as <-
                end;
         unfold same_static; cbn; repeat split; try congruence;
         try discriminate);
    try (injection Hd0 as <-; eexists;
         split; [eassumption | apply same_static_refl]).
Qed.

(** X7.  Whatever the code and the state, a call of the dispatcher that
    returns has returned 0 or 1, and 1 only with the state untouched, so
    that the caller finds it as it was.  It never changes the combined
    table, the scanner's position or standard output, keeps the flags and
    the help data of the descriptor, counts at most one error, and writes
    to standard error exactly when it counts one.  A call that exits has
    counted nothing and written nothing to standard error. *)
Theorem dispatcher_declines_without_effect :
  (forall opt optarg g r g',
      frr_opt opt optarg g = Return r g' ->
      (r = 0 \/ r = 1)
      /\ (r = 1 -> g' = g)
      /\ same_frame g g'
      /\ errors g <= errors g' <= errors g + 1
      /\ (exists msg,
            stderr_buf g' = stderr_buf g ++ msg
            /\ (msg = "" <-> errors g' = errors g))
      /\ (forall d, di g = Some d ->
                    exists d', di g' = Some d' /\ same_static d d'))
  /\ (forall opt optarg g status g',
        frr_opt opt optarg g = Exit status g' ->
        errors g' = errors g /\ stderr_buf g' = stderr_buf g
        /\ di g' = di g).
Proof.
  split; [exact frr_opt_return|].
  intros opt optarg g status g' E.
  destruct (frr_opt_exit opt optarg g status g' E) as (_ & Hcode).
  destruct (di g) as [d|] eqn:Hd.
  - destruct Hcode as [->| ->].
    + rewrite (frr_opt_h optarg g d Hd) in E. injection E as _ <-.
      repeat split. exact Hd.
    + rewrite (frr_opt_v optarg g d Hd) in E. injection E as _ <-.
      repeat split. exact Hd.
  - exfalso. revert E. destruct Hcode as [->| ->]; unfold frr_opt;
      eval_codes; cbn [Z.eqb Pos.eqb].
    + unfold bind at 1. now rewrite frr_help_exit_null.
    + run_monad. now rewrite Hd.
Qed.

(** ** The user and group options under [FRR_NO_PRIVSEP] *)

Lemma frr_opt_u_disabled (optarg : option string) (g : globals)
    (d : frr_daemon_info) :
  di g = Some d -> Z.land (flags d) FRR_NO_PRIVSEP <> 0 ->
  frr_opt (chr "u") optarg g = Return 1 g.
Proof.
  intros Hd Hf. apply Z.eqb_neq in Hf.
  unfold frr_opt. eval_codes. cbn [Z.eqb Pos.eqb].
  run_monad. rewrite Hd, Hf. reflexivity.
Qed.

Lemma frr_opt_g_disabled (optarg : option string) (g : globals)
    (d : frr_daemon_info) :
  di g = Some d -> Z.land (flags d) FRR_NO_PRIVSEP <> 0 ->
  frr_opt (chr "g") optarg g = Return 1 g.
Proof.
  intros Hd Hf. apply Z.eqb_neq in Hf.
  unfold frr_opt. eval_codes. cbn [Z.eqb Pos.eqb].
  run_monad. rewrite Hd, Hf. reflexivity.
Qed.

(** X8.  With [FRR_NO_PRIVSEP] set, [frr_preinit] leaves the user/group
    fragment out of the table, and the dispatcher answers the codes [u] and
    [g] with 1 for every value, the state untouched, whether or not the
    descriptor has a privilege structure. *)
Theorem no_privsep_user_group_unrecognized :
  forall daemon,
    Z.land (flags daemon) FRR_NO_PRIVSEP <> 0 ->
    (forall argc argv0 rest pending,
        exists g',
          frr_preinit daemon argc (argv0 :: rest) (initial_globals pending)
          = Return tt g'
          /\ str_mem "u" (comb_optstr g') = false
          /\ str_mem "g" (comb_optstr g') = false
          /\ Forall (fun o => name o <> "user" /\ name o <> "group"
                              /\ val o <> chr "u" /\ val o <> chr "g")
               (comb_lo g'))
    /\ (forall g d optarg,
          di g = Some d -> flags d = flags daemon ->
          frr_opt (chr "u") optarg g = Return 1 g
          /\ frr_opt (chr "g") optarg g = Return 1 g).
Proof.
  intros daemon Hset.
  assert (Hb : (Z.land (flags daemon) FRR_NO_PRIVSEP =? 0) = false)
    by now apply Z.eqb_neq.
  split.
  - intros argc argv0 rest pending.
    rewrite frr_preinit_eq. eexists. split.
    + apply register_all_eq;
        [apply initial_within_capacity | apply preinit_fragments_fit_initial].
    + destruct (append_all_preinit (flags daemon)
                  (set_umask_mode 23
                     (set_di (Some (set_progname (last_segment argv0) daemon))
                        (initial_globals pending)))) as (H1 & _ & H3 & _).
      rewrite H1, H3, Hb.
      destruct (Z.land (flags daemon) FRR_NO_TCPVTY =? 0);
        (split; [reflexivity|]); (split; [reflexivity|]);
        repeat constructor; cbn; try discriminate;
        intros H; vm_compute in H; discriminate.
  - intros g d optarg Hd Hfl. rewrite <- Hfl in Hset.
    split; [now apply frr_opt_u_disabled with d
           | now apply frr_opt_g_disabled with d].
Qed.

(** ** Before [frr_preinit] *)

(** X9.  As long as no descriptor is installed, [frr_help_exit],
    [frr_vty_serv] and the dispatcher on each of its seven codes
    dereference the null pointer; only a code the dispatcher has no case
    for is answered, with 1. *)
Theorem null_descriptor_is_undefined :
  forall g,
    di g = None ->
    (forall (A : Type) status, @frr_help_exit A status g = Undefined)
    /\ (forall path, frr_vty_serv path g = Undefined)
    /\ (forall opt optarg,
          In opt dispatcher_codes -> frr_opt opt optarg g = Undefined)
    /\ (forall opt optarg,
          ~ In opt dispatcher_codes -> frr_opt opt optarg g = Return 1 g).
Proof.
  intros g Hd.
  split; [intros; now apply frr_help_exit_null|].
  split; [intros path; unfold frr_vty_serv; run_monad; now rewrite Hd|].
  split; [|intros; now apply frr_opt_default].
  intros opt optarg Hin. unfold dispatcher_codes in Hin. cbn [In] in Hin.
  destruct Hin as [<-|[<-|[<-|[<-|[<-|[<-|[<-|[]]]]]]]];
    unfold frr_opt; eval_codes; cbn [Z.eqb Pos.eqb];
    try (unfold bind at 1; now rewrite frr_help_exit_null);
    run_monad; now rewrite Hd.
Qed.

(** ** No undefined behaviour in the scan *)

(** The dispatcher runs into nothing undefined when the descriptor is
    installed, has a privilege structure if privilege separation is
    enabled, and the port option comes with a value. *)
Lemma frr_opt_defined (opt : Z) (optarg : option string) (g : globals)
    (d : frr_daemon_info) :
  di g = Some d ->
  (Z.land (flags d) FRR_NO_PRIVSEP = 0 -> privs d <> None) ->
  (opt = chr "P" -> optarg <> None) ->
  frr_opt opt optarg g <> Undefined.
Proof.
  intros Hd Hprivs Harg. unfold frr_opt.
  destruct (Z.eqb_spec opt (chr "h")) as [->|_].
  { unfold bind at 1. now rewrite (frr_help_exit_eq unit 0 g d Hd). }
  destruct (Z.eqb_spec opt (chr "v")) as [->|_].
  { run_monad. now rewrite Hd. }
  destruct (Z.eqb_spec opt (chr "A")) as [->|_].
  { run_monad. rewrite Hd. cbv beta iota.
    destruct (Z.land (flags d) FRR_NO_TCPVTY =? 0); cbn [negb];
      [|discriminate].
    destruct (vty_addr_set g =? 0); run_monad;
      [rewrite Hd|]; discriminate. }
  destruct (Z.eqb_spec opt (chr "P")) as [->|_].
  { specialize (Harg eq_refl). destruct optarg as [text|]; [|contradiction].
    run_monad. rewrite Hd. cbv beta iota.
    destruct (Z.land (flags d) FRR_NO_TCPVTY =? 0); cbn [negb];
      [|discriminate].
    destruct (vty_port_set g =? 0); run_monad; [rewrite Hd|discriminate].
    cbv beta iota. destruct (port_text_invalid text); run_monad;
      discriminate. }
  destruct (Z.eqb_spec opt OPTION_VTYSOCK) as [->|_].
  { run_monad. rewrite Hd. cbv beta iota.
    destruct (vty_sock_path d); run_monad; [|rewrite Hd]; discriminate. }
  destruct (Z.eqb_spec opt (chr "u")) as [->|_].
  { run_monad. rewrite Hd. cbv beta iota.
    destruct (Z.eqb_spec (Z.land (flags d) FRR_NO_PRIVSEP) 0) as [Hf|_];
      cbn [negb]; [|discriminate].
    specialize (Hprivs Hf). destruct (privs d); [|contradiction].
    run_monad. rewrite Hd. discriminate. }
  destruct (Z.eqb_spec opt (chr "g")) as [->|_].
  { run_monad. rewrite Hd. cbv beta iota.
    destruct (Z.eqb_spec (Z.land (flags d) FRR_NO_PRIVSEP) 0) as [Hf|_];
      cbn [negb]; [|discriminate].
    specialize (Hprivs Hf). destruct (privs d); [|contradiction].
    run_monad. rewrite Hd. discriminate. }
  discriminate.
Qed.

(** ** [frr_getopt] on any scan *)

(** What a returning loop has done: it used up a prefix of the pending
    results, counted at most one error for each, kept the table, and the
    code it hands back other than [-1] is one the dispatcher declines in
    the state it leaves. *)
Lemma frr_getopt_loop_return (pending : list getopt_result) :
  forall (lidx : option Z) (g : globals) (opt : Z) (l : option Z)
         (g1 : globals),
    getopt_pending g = pending ->
    frr_getopt_loop pending lidx g = Return (opt, l) g1 ->
    comb_optstr g1 = comb_optstr g /\ comb_lo g1 = comb_lo g
    /\ comb_helpstr g1 = comb_helpstr g /\ stdout_buf g1 = stdout_buf g
    /\ errors g <= errors g1
    /\ (exists used,
          pending = (used ++ getopt_pending g1)%list
          /\ errors g1 <= errors g + Z.of_nat (List.length used))
    /\ (opt <> -1 ->
        exists optarg, frr_opt opt optarg g1 = Return 1 g1)
    /\ (forall d, di g = Some d ->
                  exists d1, di g1 = Some d1 /\ same_static d d1).
Proof.
  induction pending as [|e pending IH]; intros lidx g opt l g1 Hp;
    cbn [frr_getopt_loop]; unfold bind at 1, getopt_long at 1; rewrite Hp.
  - cbn [g_opt g_optarg]. unfold bind at 1. rewrite frr_opt_end.
    unfold ret. intros [= <- _ <-].
    repeat split; try lia.
    + exists []. split; [now rewrite Hp | cbn; lia].
    + intros d Hd. exists d. split; [exact Hd | apply same_static_refl].
  - unfold bind at 1.
    destruct (frr_opt (g_opt e) (g_optarg e) (set_getopt_pending pending g))
      as [h g2|s g2|] eqn:E; try discriminate.
    destruct (frr_opt_return _ _ _ _ _ E)
      as (Hh & Hsame & (F1 & F2 & F3 & F4 & F5) & Herr & _ & Hdi).
    cbn [comb_optstr comb_lo comb_helpstr getopt_pending stdout_buf errors
         set_getopt_pending di] in *.
    destruct (Z.eqb_spec h 0) as [->|Hne]; cbn [negb].
    + destruct (Z.eqb_spec (g_opt e) (-1)) as [Hend|Hend].
      * rewrite Hend, frr_opt_end in E. discriminate E.
      * intros Eloop.
        destruct (IH _ g2 opt l g1 F4 Eloop)
          as (I1 & I2 & I3 & I4 & I5 & (used & U1 & U2) & I7 & I8).
        split; [congruence|]. split; [congruence|]. split; [congruence|].
        split; [congruence|]. split; [lia|].
        split; [exists (e :: used); split;
                [cbn [app]; now rewrite <- U1
                |cbn [List.length]; lia]|].
        split; [exact I7|].
        intros d Hd. destruct (Hdi d Hd) as (d2 & Hd2 & Hst2).
        destruct (I8 d2 Hd2) as (d1 & Hd1 & Hst1).
        exists d1. split; [exact Hd1|].
        exact (same_static_trans d d2 d1 Hst2 Hst1).
    + destruct Hh as [ -> | -> ]; [now elim Hne|].
      specialize (Hsame eq_refl). subst g2.
      unfold ret. intros [= <- _ <-].
      cbn [comb_optstr comb_lo comb_helpstr getopt_pending stdout_buf errors
           set_getopt_pending di].
      repeat split; try lia.
      * exists [e]. split; [reflexivity | cbn; lia].
      * intros _. exists (g_optarg e). exact E.
      * intros d Hd. exists d. split; [exact Hd | apply same_static_refl].
Qed.

Lemma frr_getopt_return (longindex : bool) (g : globals) (opt : Z)
    (l : option Z) (g' : globals) :
  frr_getopt longindex g = Return (opt, l) g' ->
  exists lidx,
    (List.length (comb_lo g) < COMB_LO_SIZE)%nat
    /\ frr_getopt_loop (getopt_pending g) None g = Return (opt, lidx) g'
    /\ (opt = -1 -> errors g' = 0)
    /\ l = (if longindex then lidx else None).
Proof.
  unfold frr_getopt. unfold bind at 1, get at 1.
  destruct (Nat.ltb_spec (List.length (comb_lo g)) COMB_LO_SIZE) as [Hlo|_];
    [|discriminate].
  unfold bind at 1, ret at 1. unfold bind at 1.
  destruct (frr_getopt_loop (getopt_pending g) None g)
    as [[o lidx] g1|s g1|] eqn:Eloop; try discriminate.
  unfold bind at 1, get at 1. cbn [fst snd].
  destruct (Z.eqb_spec o (-1)) as [->|Hne]; cbn [andb].
  - destruct (Z.eqb_spec (errors g1) 0) as [Hz|Hnz]; cbn [negb].
    + unfold bind, ret. intros [= <- <- <-].
      exists lidx. repeat split; auto.
    + unfold bind at 1.
      destruct (frr_help_exit 1 g1) as [? ?|? ?|] eqn:Eh; try discriminate.
      now apply frr_help_exit_no_return in Eh.
  - unfold bind, ret. intros [= <- <- <-].
    exists lidx. repeat split; auto. intros H; now elim Hne.
Qed.

(** X10.  When [frr_getopt] returns, the scanner has moved past a prefix
    of its pending results, the error count has not decreased and has grown
    by at most one for each result passed, and the table and standard
    output are as before.  If the code returned is [-1] the count is 0; any
    other code is one the dispatcher declines in the state left, which is
    why it reaches the caller.  Without [longindex] nothing is stored. *)
Theorem frr_getopt_return_summary :
  forall longindex g opt l g',
    frr_getopt longindex g = Return (opt, l) g' ->
    (opt = -1 -> errors g' = 0)
    /\ (opt <> -1 -> exists optarg, frr_opt opt optarg g' = Return 1 g')
    /\ errors g <= errors g'
    /\ (exists used,
          getopt_pending g = (used ++ getopt_pending g')%list
          /\ errors g' <= errors g + Z.of_nat (List.length used))
    /\ comb_optstr g' = comb_optstr g /\ comb_lo g' = comb_lo g
    /\ comb_helpstr g' = comb_helpstr g /\ stdout_buf g' = stdout_buf g
    /\ (longindex = false -> l = None).
Proof.
  intros longindex g opt l g' E.
  destruct (frr_getopt_return longindex g opt l g' E)
    as (lidx & _ & Eloop & Hend & Hl).
  destruct (frr_getopt_loop_return _ None g opt lidx g' eq_refl Eloop)
    as (I1 & I2 & I3 & I4 & I5 & I6 & I7 & _).
  repeat split; try assumption.
  intros ->. exact Hl.
Qed.


Lemma frr_getopt_loop_defined (pending : list getopt_result) :
  forall (lidx : option Z) (g : globals) (d : frr_daemon_info),
    getopt_pending g = pending -> di g = Some d ->
    (Z.land (flags d) FRR_NO_PRIVSEP = 0 -> privs d <> None) ->
    Forall (fun r => g_opt r = chr "P" -> g_optarg r <> None) pending ->
    frr_getopt_loop pending lidx g <> Undefined.
Proof.
  induction pending as [|e pending IH]; intros lidx g d Hp Hd Hprivs Hargs;
    cbn [frr_getopt_loop]; unfold bind at 1, getopt_long at 1; rewrite Hp.
  - cbn [g_opt g_optarg]. unfold bind at 1. now rewrite frr_opt_end.
  - inversion Hargs as [|? ? He Hrest]; subst.
    unfold bind at 1.
    destruct (frr_opt (g_opt e) (g_optarg e) (set_getopt_pending pending g))
      as [h g2|s g2|] eqn:E.
    + destruct (frr_opt_return _ _ _ _ _ E)
        as (_ & _ & (_ & _ & _ & F4 & _) & _ & _ & Hdi).
      destruct (Hdi d Hd) as (d2 & Hd2 & Hf & _ & _ & _ & _ & Hpr).
      destruct (negb (h =? 0)); [discriminate|].
      destruct (g_opt e =? -1); [discriminate|].
      apply (IH _ g2 d2 F4 Hd2); [|exact Hrest].
      rewrite Hf. intros H0 Hn. apply Hpr in Hn. now apply Hprivs.
    + discriminate.
    + exfalso. revert E. now apply frr_opt_defined with d.
Qed.

(** X12.  With the descriptor installed, a free slot for the sentinel, a
    privilege structure whenever privilege separation is enabled, and a
    value with every port option the scanner yields, [frr_getopt] runs into
    nothing undefined: it returns or it exits. *)
Theorem frr_getopt_is_defined :
  forall longindex g d,
    di g = Some d -> (List.length (comb_lo g) < COMB_LO_SIZE)%nat ->
    (Z.land (flags d) FRR_NO_PRIVSEP = 0 -> privs d <> None) ->
    Forall (fun r => g_opt r = chr "P" -> g_optarg r <> None)
      (getopt_pending g) ->
    frr_getopt longindex g <> Undefined.
Proof.
  intros longindex g d Hd Hlo Hprivs Hargs.
  unfold frr_getopt. unfold bind at 1, get at 1.
  apply Nat.ltb_lt in Hlo. rewrite Hlo.
  unfold bind at 1, ret at 1. unfold bind at 1.
  destruct (frr_getopt_loop (getopt_pending g) None g)
    as [[o lidx] g1|s g1|] eqn:Eloop.
  - destruct (frr_getopt_loop_return _ None g o lidx g1 eq_refl Eloop)
      as (_ & _ & _ & _ & _ & _ & _ & Hdi).
    destruct (Hdi d Hd) as (d1 & Hd1 & _).
    unfold bind at 1, get at 1. cbn [fst snd].
    destruct ((o =? -1) && negb (errors g1 =? 0)).
    + unfold bind at 1. now rewrite (frr_help_exit_eq unit 1 g1 d1 Hd1).
    + discriminate.
  - discriminate.
  - exfalso. revert Eloop.
    now apply frr_getopt_loop_defined with d.
Qed.

(** ** Which occurrence of an option is kept *)

Ltac field_facts d Hs :=
  unfold user_of, group_of, port_of_text;
  cbn [vty_sock_path vty_addr vty_port privs user group flags
       set_vty_sock_path set_vty_addr set_vty_port set_privs set_user
       set_group vty_addr_set vty_port_set set_di set_errors set_stderr_buf
       set_vty_addr_set set_vty_port_set port_rejected port_stored
       g_opt g_optarg];
  eval_codes; rewrite ?Hs; cbn [Z.eqb Pos.eqb andb negb];
  try reflexivity;
  try (now rewrite ?andb_true_r, ?andb_false_r);
  try (now destruct (vty_sock_path d)).

(** The values the dispatcher stores for a consumed result. *)
Lemma frr_opt_consumed_fields (r : getopt_result) (g : globals)
    (d : frr_daemon_info) :
  di g = Some d -> consumed d r = true ->
  exists g' d',
    frr_opt (g_opt r) (g_optarg r) g = Return 0 g'
    /\ di g' = Some d'
    /\ vty_sock_path d' =
       match vty_sock_path d with
       | Some old => Some old
       | None => if g_opt r =? OPTION_VTYSOCK then g_optarg r else None
       end
    /\ vty_addr d' =
       (if (g_opt r =? chr "A") && (vty_addr_set g =? 0)
        then g_optarg r else vty_addr d)
    /\ (vty_addr_set g' =? 0)
       = (vty_addr_set g =? 0) && negb (g_opt r =? chr "A")
    /\ vty_port d' =
       (if (g_opt r =? chr "P") && (vty_port_set g =? 0)
        then match g_optarg r with
             | Some text => port_of_text text
             | None => vty_port d
             end
        else vty_port d)
    /\ (vty_port_set g' =? 0)
       = (vty_port_set g =? 0) && negb (g_opt r =? chr "P")
    /\ user_of d' = (if g_opt r =? chr "u" then g_optarg r else user_of d)
    /\ group_of d' = (if g_opt r =? chr "g" then g_optarg r else group_of d).
Proof.
  intros Hd Hc. destruct r as [opt [text|] lidx]; [|discriminate Hc].
  unfold consumed in Hc. cbn [g_opt g_optarg] in *.
  destruct (Z.eqb_spec opt (chr "A")) as [->|nA].
  { destruct (Z.land (flags d) FRR_NO_TCPVTY =? 0) eqn:Hf;
      [apply Z.eqb_eq in Hf | discriminate Hc].
    destruct (vty_addr_set g =? 0) eqn:Hs.
    - eexists. eexists.
      split; [apply frr_opt_A_first;
              [exact Hd | exact Hf | now apply Z.eqb_eq]|].
      split; [reflexivity|].
      repeat split; field_facts d Hs.
    - eexists. eexists.
      split; [apply frr_opt_A_dup with d;
              [exact Hd | exact Hf | now apply Z.eqb_neq]|].
      split; [exact Hd|].
      repeat split; field_facts d Hs. }
  destruct (Z.eqb_spec opt (chr "P")) as [->|nP].
  { destruct (Z.land (flags d) FRR_NO_TCPVTY =? 0) eqn:Hf;
      [apply Z.eqb_eq in Hf | discriminate Hc].
    destruct (vty_port_set g =? 0) eqn:Hs.
    - eexists. exists (set_vty_port (port_of_text text) d).
      split; [apply frr_opt_P_first;
              [exact Hd | exact Hf | now apply Z.eqb_eq]|].
      destruct (port_text_invalid text);
        (split; [reflexivity|]);
        repeat split; field_facts d Hs.
    - eexists. eexists.
      split; [apply frr_opt_P_dup with d;
              [exact Hd | exact Hf | now apply Z.eqb_neq]|].
      split; [exact Hd|].
      repeat split; field_facts d Hs. }
  destruct (Z.eqb_spec opt OPTION_VTYSOCK) as [->|nV].
  { destruct (vty_sock_path d) as [old|] eqn:Hs.
    - eexists. eexists.
      split; [exact (frr_opt_sock_dup _ g d old Hd Hs)|].
      split; [exact Hd|].
      repeat split; field_facts d Hs.
    - eexists. eexists.
      split; [exact (frr_opt_sock_first _ g d Hd Hs)|].
      split; [reflexivity|].
      repeat split; field_facts d Hs. }
  cbn [orb andb] in Hc.
  destruct (Z.land (flags d) FRR_NO_PRIVSEP =? 0) eqn:Hf;
    [apply Z.eqb_eq in Hf | now rewrite andb_false_r in Hc].
  destruct (privs d) as [p|] eqn:Hs; [|now rewrite andb_false_r in Hc].
  apply Z.eqb_neq in nA, nP, nV.
  destruct (Z.eqb_spec opt (chr "u")) as [->|nu].
  { eexists. eexists.
    split; [exact (frr_opt_u _ g d p Hd Hf Hs)|]. split; [reflexivity|].
    repeat split; field_facts d Hs. }
  destruct (Z.eqb_spec opt (chr "g")) as [->|ng]; [|discriminate Hc].
  eexists. eexists.
  split; [exact (frr_opt_g _ g d p Hd Hf Hs)|]. split; [reflexivity|].
  repeat split; field_facts d Hs.
Qed.

Lemma first_with_cons (c : Z) (e : getopt_result)
    (l : list getopt_result) :
  first_with c (e :: l) = if g_opt e =? c then Some e else first_with c l.
Proof. reflexivity. Qed.

Lemma find_app_first {A : Type} (f : A -> bool) (l1 l2 : list A) :
  find f (l1 ++ l2)
  = match find f l1 with Some x => Some x | None => find f l2 end.
Proof.
  induction l1 as [|a l1 IH]; cbn [app find]; [reflexivity|].
  now destruct (f a).
Qed.

Lemma last_with_cons (c : Z) (e : getopt_result) (l : list getopt_result) :
  last_with c (e :: l)
  = match last_with c l with
    | Some r => Some r
    | None => if g_opt e =? c then Some e else None
    end.
Proof.
  unfold last_with, first_with. cbn [rev]. rewrite find_app_first.
  cbn [find]. reflexivity.
Qed.

(** The values the descriptor holds after a run of consumed results. *)
Lemma dispatch_all_values (pre rest : list getopt_result) :
  forall (g : globals) (d : frr_daemon_info),
    di g = Some d -> getopt_pending g = (pre ++ rest)%list ->
    Forall (fun r => consumed d r = true) pre ->
    exists d1,
      di (dispatch_all pre g) = Some d1
      /\ vty_sock_path d1 =
         match vty_sock_path d with
         | Some old => Some old
         | None => match first_with OPTION_VTYSOCK pre with
                   | Some r => g_optarg r
                   | None => None
                   end
         end
      /\ vty_addr d1 =
         (if vty_addr_set g =? 0
          then match first_with (chr "A") pre with
               | Some r => g_optarg r
               | None => vty_addr d
               end
          else vty_addr d)
      /\ vty_port d1 =
         (if vty_port_set g =? 0
          then match first_with (chr "P") pre with
               | Some r => match g_optarg r with
                           | Some text => port_of_text text
                           | None => vty_port d
                           end
               | None => vty_port d
               end
          else vty_port d)
      /\ user_of d1 =
         match last_with (chr "u") pre with
         | Some r => g_optarg r
         | None => user_of d
         end
      /\ group_of d1 =
         match last_with (chr "g") pre with
         | Some r => g_optarg r
         | None => group_of d
         end.
Proof.
  induction pre as [|e pre IH]; intros g d Hd Hp Hall.
  - exists d. cbn [dispatch_all fold_left]. split; [exact Hd|].
    unfold last_with, first_with. cbn [rev find].
    destruct (vty_sock_path d), (vty_addr_set g =? 0),
      (vty_port_set g =? 0); repeat split.
  - inversion Hall as [|? ? He Hpre]; subst. cbn [app] in Hp.
    destruct (dispatch_one_spec e (pre ++ rest) g d Hd He Hp)
      as (E & Hp' & d' & Hd' & Hst & _).
    destruct (frr_opt_consumed_fields e (set_getopt_pending (pre ++ rest) g)
                d Hd He)
      as (g2 & d2 & E2 & Hd2 & S1 & A1 & A2 & P1 & P2 & U1 & G1).
    rewrite E in E2. injection E2 as <-.
    rewrite Hd' in Hd2. injection Hd2 as <-.
    cbn [vty_addr_set vty_port_set set_getopt_pending] in A1, A2, P1, P2.
    destruct (IH (dispatch_one g e) d' Hd' Hp'
                (consumed_forall_static d d' pre Hst Hpre))
      as (d1 & Hd1 & S & A & P & U & G).
    change (dispatch_all (e :: pre) g)
      with (dispatch_all pre (dispatch_one g e)).
    exists d1. split; [exact Hd1|].
    assert (Harg : exists text, g_optarg e = Some text).
    { unfold consumed in He. destruct (g_optarg e) as [text|];
        [now exists text | discriminate He]. }
    destruct Harg as [text Harg].
    rewrite S, A, P, U, G, S1, A1, A2, P1, P2, U1, G1.
    rewrite !first_with_cons, !last_with_cons.
    split; [|split; [|split; [|split]]].
    + destruct (vty_sock_path d); [reflexivity|].
      destruct (g_opt e =? OPTION_VTYSOCK); [|reflexivity].
      now rewrite Harg.
    + destruct (vty_addr_set g =? 0), (g_opt e =? chr "A"); reflexivity.
    + destruct (vty_port_set g =? 0), (g_opt e =? chr "P"); reflexivity.
    + destruct (last_with (chr "u") pre); [reflexivity|].
      now destruct (g_opt e =? chr "u").
    + destruct (last_with (chr "g") pre); [reflexivity|].
      now destruct (g_opt e =? chr "g").
Qed.

(** X13.  In a scan of value-carrying built-in options that runs to its
    end, whether it then returns or takes the help exit with status 1:
    the socket path, the address and the port are those of the first
    occurrence of their option, if they were not set before, and are never
    replaced otherwise; the user and the group are those of the last
    occurrence of theirs. *)
Theorem first_occurrence_kept_last_user_kept :
  forall longindex g d,
    di g = Some d -> (List.length (comb_lo g) < COMB_LO_SIZE)%nat ->
    Forall (fun r => consumed d r = true) (getopt_pending g) ->
    exists g' d',
      (frr_getopt longindex g =
         Return (-1, if longindex
                     then last_lidx (getopt_pending g) None else None) g'
       \/ frr_getopt longindex g = Exit 1 g')
      /\ di g' = Some d'
      /\ vty_sock_path d' =
         match vty_sock_path d with
         | Some old => Some old
         | None => match first_with OPTION_VTYSOCK (getopt_pending g) with
                   | Some r => g_optarg r
                   | None => None
                   end
         end
      /\ vty_addr d' =
         (if vty_addr_set g =? 0
          then match first_with (chr "A") (getopt_pending g) with
               | Some r => g_optarg r
               | None => vty_addr d
               end
          else vty_addr d)
      /\ vty_port d' =
         (if vty_port_set g =? 0
          then match first_with (chr "P") (getopt_pending g) with
               | Some r => match g_optarg r with
                           | Some text => port_of_text text
                           | None => vty_port d
                           end
               | None => vty_port d
               end
          else vty_port d)
      /\ user_of d' =
         match last_with (chr "u") (getopt_pending g) with
         | Some r => g_optarg r
         | None => user_of d
         end
      /\ group_of d' =
         match last_with (chr "g") (getopt_pending g) with
         | Some r => g_optarg r
         | None => group_of d
         end.
Proof.
  intros longindex g d Hd Hlo Hall.
  assert (Hp : getopt_pending g = (getopt_pending g ++ [])%list)
    by now rewrite app_nil_r.
  destruct (frr_getopt_all_consumed longindex g d Hd Hlo Hall)
    as (d1 & Hd1 & E).
  destruct (dispatch_all_values (getopt_pending g) [] g d Hd Hp Hall)
    as (d1' & Hd1' & Hvalues).
  rewrite Hd1 in Hd1'. injection Hd1' as <-.
  destruct (errors (dispatch_all (getopt_pending g) g) =? 0).
  - eexists. exists d1. split; [left; exact E|].
    split; [exact Hd1 | exact Hvalues].
  - eexists. exists d1. split; [right; exact E|].
    split; [exact Hd1 | exact Hvalues].
Qed.

(** ** Codes the caller never sees *)

Lemma frr_opt_declined (opt : Z) (optarg : option string) (g g' : globals)
    (d : frr_daemon_info) :
  di g = Some d -> frr_opt opt optarg g = Return 1 g' ->
  opt <> chr "h" /\ opt <> chr "v" /\ opt <> OPTION_VTYSOCK
  /\ (Z.land (flags d) FRR_NO_TCPVTY = 0 ->
      opt <> chr "A" /\ opt <> chr "P")
  /\ (Z.land (flags d) FRR_NO_PRIVSEP = 0 ->
      opt <> chr "u" /\ opt <> chr "g").
Proof.
  intros Hd E.
  assert (H : forall c, opt = c ->
                        frr_opt c optarg g = Return 1 g')
    by (intros c <-; exact E).
  split; [intros Hc; specialize (H _ Hc);
          now rewrite (frr_opt_h optarg g d Hd) in H|].
  split; [intros Hc; specialize (H _ Hc);
          now rewrite (frr_opt_v optarg g d Hd) in H|].
  split.
  { intros Hc. specialize (H _ Hc).
    destruct (vty_sock_path d) as [old|] eqn:Hs.
    - now rewrite (frr_opt_sock_dup optarg g d old Hd Hs) in H.
    - now rewrite (frr_opt_sock_first optarg g d Hd Hs) in H. }
  split.
  - intros Hf. split; intros Hc; specialize (H _ Hc).
    + destruct (Z.eq_dec (vty_addr_set g) 0) as [Hs|Hs].
      * now rewrite (frr_opt_A_first optarg g d Hd Hf Hs) in H.
      * now rewrite (frr_opt_A_dup optarg g d Hd Hf Hs) in H.
    + destruct (Z.eq_dec (vty_port_set g) 0) as [Hs|Hs].
      * destruct optarg as [text|].
        -- now rewrite (frr_opt_P_first text g d Hd Hf Hs) in H.
        -- revert H. unfold frr_opt. eval_codes. cbn [Z.eqb Pos.eqb].
           apply Z.eqb_eq in Hf, Hs. run_monad. rewrite Hd, Hf.
           run_monad. rewrite Hs. discriminate.
      * now rewrite (frr_opt_P_dup optarg g d Hd Hf Hs) in H.
  - intros Hf. destruct (privs d) as [p|] eqn:Hp.
    + split; intros Hc; specialize (H _ Hc).
      * now rewrite (frr_opt_u optarg g d p Hd Hf Hp) in H.
      * now rewrite (frr_opt_g optarg g d p Hd Hf Hp) in H.
    + apply Z.eqb_eq in Hf.
      split; intros Hc; specialize (H _ Hc); revert H;
        unfold frr_opt; eval_codes; cbn [Z.eqb Pos.eqb];
        run_monad; rewrite Hd, Hf; cbn [negb]; rewrite Hp; discriminate.
Qed.

(** X14.  [frr_getopt] never hands the caller the codes of [-h], [-v] or
    [--vty_socket], nor those of the address and port options while the
    remote listener is enabled, nor those of the user and group options
    while privilege separation is enabled: an option a daemon registers
    under one of these codes never reaches the daemon. *)
Theorem built_in_codes_never_reach_caller :
  forall longindex g d opt l g',
    di g = Some d ->
    frr_getopt longindex g = Return (opt, l) g' ->
    opt <> chr "h" /\ opt <> chr "v" /\ opt <> OPTION_VTYSOCK
    /\ (Z.land (flags d) FRR_NO_TCPVTY = 0 ->
        opt <> chr "A" /\ opt <> chr "P")
    /\ (Z.land (flags d) FRR_NO_PRIVSEP = 0 ->
        opt <> chr "u" /\ opt <> chr "g").
Proof.
  intros longindex g d opt l g' Hd E.
  destruct (frr_getopt_return longindex g opt l g' E)
    as (lidx & _ & Eloop & _ & _).
  destruct (frr_getopt_loop_return _ None g opt lidx g' eq_refl Eloop)
    as (_ & _ & _ & _ & _ & _ & Hdecl & Hdi).
  destruct (Hdi d Hd) as (d1 & Hd1 & Hf & _).
  destruct (Z.eq_dec opt (-1)) as [->|Hne].
  - eval_codes. repeat split; intros; discriminate.
  - destruct (Hdecl Hne) as (optarg & Ed).
    rewrite <- Hf. exact (frr_opt_declined opt optarg g' g' d1 Hd1 Ed).
Qed.

(** ** Registration and help together *)

(** X15.  Help text registered with [frr_opt_add] shows up in the output
    of [-h]: with the default renderer, standard output receives the usage
    lines, the help text registered before, the new fragment's help text
    and the bug-report footer, in this order. *)
Theorem registered_help_is_printed :
  forall optstr longopts helpstr optarg g d,
    within_capacity g ->
    fits (mk_optspec optstr helpstr longopts) g = true ->
    di g = Some d -> printhelp d = None ->
    exists g1 g2,
      frr_opt_add optstr longopts helpstr g = Return tt g1
      /\ frr_opt (chr "h") optarg g1 = Exit 0 g2
      /\ stdout_buf g2 =
         stdout_buf g ++ usage_text d (comb_helpstr g ++ helpstr)
         ++ bug_footer
      /\ usage_text d (comb_helpstr g ++ helpstr) =
         usage_text d "" ++ comb_helpstr g ++ helpstr
      /\ stderr_buf g2 = stderr_buf g.
Proof.
  intros o lo h optarg g d Hg Hfit Hd Hr.
  exists (append_fragment (mk_optspec o h lo) g). eexists.
  split; [unfold frr_opt_add; rewrite opt_extend_eq by apply Hg;
          now rewrite Hfit|].
  split; [apply frr_opt_h; exact Hd|].
  split; [|split; [|reflexivity]].
  - cbn [stdout_buf set_stdout_buf append_fragment set_comb_lo
         set_comb_helpstr set_comb_optstr].
    unfold help_text. rewrite Hr. reflexivity.
  - unfold usage_text. rewrite !append_assoc. reflexivity.
Qed.

(** ** From process start to the end of the scan *)

(** X16.  At process start [frr_preinit] on a non-empty argv returns, and
    the scan that follows runs into nothing undefined, provided the
    descriptor has a privilege structure when privilege separation is
    enabled and the scanner yields a value with every port option. *)
Theorem preinit_then_getopt_is_defined :
  forall daemon argc argv0 rest pending longindex,
    (Z.land (flags daemon) FRR_NO_PRIVSEP = 0 -> privs daemon <> None) ->
    Forall (fun r => g_opt r = chr "P" -> g_optarg r <> None) pending ->
    exists g1,
      frr_preinit daemon argc (argv0 :: rest) (initial_globals pending)
      = Return tt g1
      /\ getopt_pending g1 = pending
      /\ frr_getopt longindex g1 <> Undefined.
Proof.
  intros daemon argc argv0 rest pending longindex Hprivs Hargs.
  rewrite frr_preinit_eq.
  set (G := set_umask_mode 23
              (set_di (Some (set_progname (last_segment argv0) daemon))
                 (initial_globals pending))).
  assert (Hcap : within_capacity G) by apply initial_within_capacity.
  assert (Hfit : all_fit (preinit_fragments (flags daemon)) G)
    by apply preinit_fragments_fit_initial.
  exists (append_all (preinit_fragments (flags daemon)) G).
  split; [now apply register_all_eq|].
  destruct (append_all_fields (preinit_fragments (flags daemon)) G)
    as (_ & _ & Hlo & Hdi & _ & _ & _ & Hp & _).
  split; [exact Hp|].
  apply frr_getopt_is_defined
    with (d := set_progname (last_segment argv0) daemon).
  - rewrite Hdi. reflexivity.
  - rewrite Hlo, length_app, length_concat_longopts.
    destruct Hfit as (_ & _ & H3). cbn [comb_lo G] in *.
    unfold preinit_fragments.
    destruct (Z.land (flags daemon) FRR_NO_PRIVSEP =? 0),
      (Z.land (flags daemon) FRR_NO_TCPVTY =? 0);
      apply Nat.ltb_lt; vm_compute; reflexivity.
  - exact Hprivs.
  - rewrite Hp. exact Hargs.
Qed.

(** ** The value of a decimal port *)

Lemma scan_digits_uint (u : Decimal.uint) :
  forall p : positive,
    scan_digits 10 (NilEmpty.string_of_uint u) (Z.pos p) true
    = (Z.pos (Pos.of_uint_acc u p), true, "").
Proof.
  induction u as [|u IH|u IH|u IH|u IH|u IH|u IH|u IH|u IH|u IH|u IH];
    intros p; cbn [NilEmpty.string_of_uint scan_digits Pos.of_uint_acc];
    [reflexivity|..];
    match goal with
    | |- context [digit_in 10 ?c] =>
        let v := eval vm_compute in (digit_in 10 c) in
        change (digit_in 10 c) with v
    end;
    cbv beta iota; rewrite <- IH; f_equal; lia.
Qed.

Lemma strtoul_uint (u : Decimal.uint) :
  leading_digit_nonzero u = true ->
  strtoul (NilEmpty.string_of_uint u)
  = (Z.min (Z.of_N (N.of_uint u)) ULONG_MAX, "").
Proof.
  intros Hu.
  assert (Hmin : forall v, (if v >? ULONG_MAX then ULONG_MAX else v)
                           = Z.min v ULONG_MAX).
  { intros v. rewrite Z.gtb_ltb.
    destruct (Z.ltb_spec ULONG_MAX v); lia. }
  destruct u as [|u|u|u|u|u|u|u|u|u|u]; try discriminate Hu;
    unfold strtoul; cbn [NilEmpty.string_of_uint skip_space];
    match goal with
    | |- context [isspace ?c] =>
        let v := eval vm_compute in (isspace c) in
        change (isspace c) with v
    end;
    cbv beta iota; cbn [strtoul_sign strtoul_base scan_digits];
    match goal with
    | |- context [digit_in 10 ?c] =>
        let v := eval vm_compute in (digit_in 10 c) in
        change (digit_in 10 c) with v
    end;
    cbv beta iota; cbn [Z.mul Z.add];
    rewrite scan_digits_uint; cbv beta iota; rewrite Hmin; reflexivity.
Qed.

(** X17.  A port given as a decimal numeral without a leading zero is
    accepted, and what the first [-P] stores, read back from [vty_port],
    is the number the numeral denotes, cut down to [ULONG_MAX] if it is
    larger, converted to the type of the port field. *)
Theorem decimal_port_is_stored :
  forall u g d,
    di g = Some d -> Z.land (flags d) FRR_NO_TCPVTY = 0 ->
    vty_port_set g = 0 -> leading_digit_nonzero u = true ->
    exists g' d',
      frr_opt (chr "P") (Some (NilEmpty.string_of_uint u)) g = Return 0 g'
      /\ di g' = Some d'
      /\ vty_port d' =
         port_of_ulong (Z.min (Z.of_N (N.of_uint u)) ULONG_MAX)
      /\ di g' =
         Some (set_vty_port
                 (port_of_ulong (Z.min (Z.of_N (N.of_uint u)) ULONG_MAX)) d)
      /\ errors g' = errors g /\ stderr_buf g' = stderr_buf g
      /\ vty_port_set g' = 1.
Proof.
  intros u g d Hd Hf Hs Hu.
  rewrite (frr_opt_P_first _ g d Hd Hf Hs).
  assert (Hok : port_text_invalid (NilEmpty.string_of_uint u) = false).
  { unfold port_text_invalid. rewrite (strtoul_uint u Hu). cbn [snd].
    destruct u; try discriminate Hu; reflexivity. }
  rewrite Hok. eexists.
  exists (set_vty_port
            (port_of_ulong (Z.min (Z.of_N (N.of_uint u)) ULONG_MAX)) d).
  split; [reflexivity|].
  unfold port_stored. rewrite (strtoul_uint u Hu).
  repeat split.
Qed.

(** ** The scan resumed by the caller *)















(** ** The scan: duplicates and the failure exit *)


(** A code the dispatcher has no case for, met first: the call hands it
    back and only the scanner has moved.  No descriptor is needed. *)
Lemma frr_getopt_handed_back_first (longindex : bool) (g : globals)
    (r : getopt_result) (post : list getopt_result) :
  (List.length (comb_lo g) < COMB_LO_SIZE)%nat ->
  getopt_pending g = r :: post ->
  ~ In (g_opt r) dispatcher_codes -> g_opt r <> -1 ->
  frr_getopt longindex g =
  Return (g_opt r, if longindex then g_lidx r else None)
    (set_getopt_pending post g).
Proof.
  intros Hlo Hp Hcode Hend.
  unfold frr_getopt. unfold bind at 1, get at 1.
  apply Nat.ltb_lt in Hlo. rewrite Hlo.
  unfold bind at 1, ret at 1. unfold bind at 1.
  rewrite Hp. cbn [frr_getopt_loop].
  unfold bind at 1, getopt_long at 1. rewrite Hp.
  unfold bind at 1. rewrite (frr_opt_default _ _ _ Hcode).
  cbn [Z.eqb negb]. unfold ret at 1.
  unfold bind at 1, get at 1. cbn [fst snd].
  apply Z.eqb_neq in Hend. rewrite Hend. cbn [andb].
  unfold bind at 1, ret at 1. unfold ret.
  now destruct (g_lidx r).
Qed.

(** C4 (amended).  A repeated single-valued option and a malformed port
    value are counted, one error each, and the scan goes on; a code the
    dispatcher has no case for, an unrecognized option among them, is not
    counted: [frr_opt] answers 1 with the state untouched, the loop stops
    and [frr_getopt] returns the code to the caller, the count being what
    the options before it left.  The dispatcher leaves the process only
    for [-h] and [-v], with status 0, so no failure exit happens in
    mid-scan; [frr_getopt] exits with a status other than 0 only as the
    help exit with status 1, after the loop has stopped on [-1] with a
    count other than 0: standard error then receives "Invalid options."
    and the help text, standard output nothing. *)
Theorem errors_counted_failure_exit_at_end :
  (forall opt optarg g status g',
      frr_opt opt optarg g = Exit status g' ->
      status = 0 /\ (opt = chr "h" \/ opt = chr "v"))
  /\ (forall r g d,
        di g = Some d -> consumed d r = true ->
        exists g',
          frr_opt (g_opt r) (g_optarg r) g = Return 0 g'
          /\ errors g <= errors g' <= errors g + 1
          /\ (already_set (g_opt r) g = true -> errors g' = errors g + 1)
          /\ (forall text,
                g_opt r = chr "P" -> g_optarg r = Some text ->
                already_set (chr "P") g = false ->
                port_text_invalid text = true ->
                errors g' = errors g + 1))
  /\ (forall opt optarg g,
        ~ In opt dispatcher_codes -> frr_opt opt optarg g = Return 1 g)
  /\ (forall longindex g r post,
        (List.length (comb_lo g) < COMB_LO_SIZE)%nat ->
        getopt_pending g = r :: post ->
        ~ In (g_opt r) dispatcher_codes -> g_opt r <> -1 ->
        exists g1,
          frr_getopt longindex g =
            Return (g_opt r, if longindex then g_lidx r else None) g1
          /\ errors g1 = errors g
          /\ getopt_pending g1 = post
          /\ di g1 = di g
          /\ vty_addr_set g1 = vty_addr_set g
          /\ vty_port_set g1 = vty_port_set g
          /\ stdout_buf g1 = stdout_buf g)
  /\ (forall longindex g d pre r post,
        di g = Some d -> (List.length (comb_lo g) < COMB_LO_SIZE)%nat ->
        getopt_pending g = (pre ++ r :: post)%list ->
        Forall (fun e => consumed d e = true) pre ->
        ~ In (g_opt r) dispatcher_codes -> g_opt r <> -1 ->
        exists g1,
          frr_getopt longindex g =
            Return (g_opt r,
                    if longindex then last_lidx (pre ++ [r]) None else None)
              g1
          /\ getopt_pending g1 = post
          /\ errors g1 = errors (dispatch_all pre g)
          /\ errors g <= errors g1
          /\ (each_at_most_once g pre -> ports_valid pre ->
              errors g1 = errors g)
          /\ (some_duplicate g pre -> errors g < errors g1)
          /\ stdout_buf g1 = stdout_buf g)
  /\ (forall longindex g status g',
        frr_getopt longindex g = Exit status g' -> status <> 0 ->
        status = 1 /\ errors g' <> 0
        /\ (exists lidx g1 d1,
              frr_getopt_loop (getopt_pending g) None g
              = Return (-1, lidx) g1
              /\ errors g1 = errors g'
              /\ di g1 = Some d1
              /\ stderr_buf g' =
                 stderr_buf g1 ++ ("Invalid options." ++ nl ++ nl)
                 ++ help_text stderr d1 g1
              /\ stdout_buf g' = stdout_buf g)
        /\ (Forall (fun r => g_opt r <> -1) (getopt_pending g) ->
            getopt_pending g' = [])).
Proof.
  split; [exact frr_opt_exit|]. split; [|split; [exact frr_opt_default|]].
  - intros r g d Hd Hc.
    destruct (frr_opt_consumed r g d Hd Hc)
      as (g' & d' & E & _ & _ & _ & He & _ & _ & _ & Hdup & _).
    exists g'. split; [exact E|]. split; [exact He|]. split; [exact Hdup|].
    intros text Hopt Harg Hunset Hbad.
    assert (Hf : Z.land (flags d) FRR_NO_TCPVTY = 0).
    { unfold consumed in Hc. rewrite Harg, Hopt in Hc. revert Hc.
      eval_codes. cbn [Z.eqb Pos.eqb orb andb].
      destruct (Z.land (flags d) FRR_NO_TCPVTY =? 0) eqn:Hb;
        [intros _; now apply Z.eqb_eq | discriminate]. }
    assert (Hs : vty_port_set g = 0).
    { revert Hunset. unfold already_set. eval_codes.
      cbn [Z.eqb Pos.eqb]. destruct (Z.eqb_spec (vty_port_set g) 0);
        [trivial | discriminate]. }
    rewrite Hopt, Harg, (frr_opt_P_first text g d Hd Hf Hs), Hbad in E.
    injection E as <-. reflexivity.
  - split; [|split].
    + intros longindex g r post Hlo Hp Hcode Hend.
      exists (set_getopt_pending post g).
      split; [exact (frr_getopt_handed_back_first longindex g r post
                       Hlo Hp Hcode Hend)|].
      repeat split.
    + intros longindex g d pre r post Hd Hlo Hp Hall Hcode Hend.
      destruct (frr_getopt_loop_consumed pre (r :: post) g d None Hd Hp Hall)
        as (_ & _ & _ & _ & _ & _ & _ & _ & Hout & Hle).
      exists (set_getopt_pending post (dispatch_all pre g)).
      split; [exact (frr_getopt_handed_back longindex g d pre r post
                       Hd Hlo Hp Hall Hcode Hend)|].
      cbn [getopt_pending errors stdout_buf set_getopt_pending].
      split; [reflexivity|]. split; [reflexivity|]. split; [exact Hle|].
      split; [|split; [|exact Hout]].
      * intros Honce Hports.
        exact (dispatch_all_once pre (r :: post) g d Hd Hp Hall Honce Hports).
      * intros (c & Hsv & Hcount).
        exact (dispatch_all_duplicate pre (r :: post) g d c Hd Hp Hall Hsv
                 Hcount).
    + intros longindex g status g' E Hne.
      unfold frr_getopt in E. unfold bind at 1, get at 1 in E.
      destruct (List.length (comb_lo g) <? COMB_LO_SIZE)%nat;
        [|discriminate E].
      unfold bind at 1, ret at 1 in E. unfold bind at 1 in E.
      destruct (frr_getopt_loop (getopt_pending g) None g)
        as [[opt l] g1|s g1|] eqn:Eloop; [| |discriminate E].
      * unfold bind at 1, get at 1 in E. cbn [fst snd] in E.
        destruct (Z.eqb_spec opt (-1)) as [->|_];
          [|cbn [andb] in E; discriminate E].
        destruct (Z.eqb_spec (errors g1) 0) as [_|Herr];
          [discriminate E|].
        cbn [andb negb] in E. unfold bind at 1 in E.
        destruct (di g1) as [d1|] eqn:Hd1.
        -- rewrite (frr_help_exit_eq unit 1 g1 d1 Hd1) in E.
           injection E as <- <-.
           destruct (frr_getopt_loop_return _ None g (-1) l g1 eq_refl Eloop)
             as (_ & _ & _ & Hout & _).
           cbn [Z.eqb errors stderr_buf stdout_buf set_stderr_buf].
           split; [reflexivity|]. split; [exact Herr|].
           split; [exists l, g1, d1; repeat split; assumption|].
           intros Hall. cbn [getopt_pending set_stderr_buf].
           now apply (frr_getopt_loop_end _ None g l g1 eq_refl Hall).
        -- now rewrite frr_help_exit_null in E.
      * injection E as <- <-. apply frr_getopt_loop_exit in Eloop.
        contradiction.
Qed.

End Libfrr.

(** ** Concrete instances

    The lemmas below fix the constants of the section: the flag masks of
    libfrr.h as 1 and 2, [MAXPATHLEN] as 4096, a bug-report address, a
    version text and a 16-bit port field. *)

Local Abbreviation bug_address := "https://github.com/frrouting/frr/issues".
Local Abbreviation version_of := (fun p : string => p ++ " version 2.1").
Local Abbreviation to_port := (fun v : Z => v mod 65536).
Local Abbreviation frr_opt_1 :=
  (frr_opt 1 2 bug_address version_of to_port).
Local Abbreviation frr_getopt_1 :=
  (frr_getopt 1 2 bug_address version_of to_port).

Lemma example_started_by_preinit (pending : list getopt_result) :
  frr_preinit 1 2 example_daemon 1 ["/usr/sbin/zebra"]
    (initial_globals pending)
  = Return tt (example_started pending).
Proof. reflexivity. Qed.

Lemma example_started_room (pending : list getopt_result) :
  (List.length (comb_lo (example_started pending)) < COMB_LO_SIZE)%nat.
Proof. apply Nat.ltb_lt. vm_compute. reflexivity. Qed.

(** *** Registration *)

(** C1, counterexample.  A fragment whose 300-character short spec cannot
    fit in the 256-byte buffer is registered without any exit: the model
    reaches the undefined write past [comb_optstr]. *)
Lemma oversized_fragment_is_not_fatal :
  (COMB_OPTSTR_SIZE
   < String.length (comb_optstr (initial_globals []))
     + String.length (str_repeat "x" 300) + 1)%nat
  /\ frr_opt_add (str_repeat "x" 300) [] "" (initial_globals []) = Undefined
  /\ ~ (exists status g',
          frr_opt_add (str_repeat "x" 300) [] "" (initial_globals [])
          = Exit status g').
Proof.
  split; [apply Nat.ltb_lt; vm_compute; reflexivity|].
  assert (E : frr_opt_add (str_repeat "x" 300) [] "" (initial_globals [])
              = Undefined) by (vm_compute; reflexivity).
  split; [exact E|]. intros (status & g' & H). rewrite E in H. discriminate H.
Qed.

(** C1, instance: a small fragment on the empty table, and the two orders
    of the built-in fragments. *)
Lemma opt_extend_unchecked_witness :
  (frr_opt_add "x:" [] "  -x  Example" (initial_globals [])
   = if fits (mk_optspec "x:" "  -x  Example" []) (initial_globals [])
     then Return tt
            (append_fragment (mk_optspec "x:" "  -x  Example" [])
               (initial_globals []))
     else Undefined)
  /\ (register_all [os_always; os_vty] (initial_globals []) = Undefined
      <-> register_all [os_vty; os_always] (initial_globals []) = Undefined)
  /\ ((exists g1, register_all [os_always; os_vty] (initial_globals [])
                  = Return tt g1)
      <-> (exists g2, register_all [os_vty; os_always] (initial_globals [])
                      = Return tt g2)).
Proof.
  split.
  - apply (proj1 (proj2 (proj2 opt_extend_unchecked))).
    repeat split; apply Nat.leb_le; vm_compute; reflexivity.
  - apply (proj2 (proj2 (proj2 opt_extend_unchecked))).
    + repeat split; apply Nat.leb_le; vm_compute; reflexivity.
    + apply perm_swap.
Defined.

(** C5, counterexample.  A fragment registered before [frr_preinit] stays
    in the table, and a second [frr_preinit] appends the built-in fragments
    once more: the table is not reset. *)
Lemma frr_preinit_keeps_earlier_registrations :
  (exists g1 g2,
      frr_opt_add "x" [] "" (initial_globals []) = Return tt g1
      /\ frr_preinit 1 2 example_daemon 1 ["/usr/sbin/zebra"] g1
         = Return tt g2
      /\ comb_optstr g2 = "xhvu:g:A:P:"
      /\ comb_optstr g2 <> "hvu:g:A:P:")
  /\ (exists g2,
        frr_preinit 1 2 example_daemon 1 ["/usr/sbin/zebra"]
          (example_started [])
        = Return tt g2
        /\ comb_optstr g2 = "hvu:g:A:P:hvu:g:A:P:"
        /\ List.length (comb_lo g2) = 14%nat).
Proof.
  split.
  - eexists. eexists. split; [vm_compute; reflexivity|].
    split; [vm_compute; reflexivity|].
    split; [reflexivity | discriminate].
  - eexists. split; [vm_compute; reflexivity|]. split; reflexivity.
Qed.

(** C5, instance: a second [frr_preinit] on the table the first one
    left. *)
Lemma frr_preinit_appends_fragments_witness :
  exists g',
    frr_preinit 1 2 example_daemon 1 ["/usr/sbin/zebra"] (example_started [])
    = Return tt g'
    /\ comb_optstr g' = "hvu:g:A:P:" ++ "hv" ++ "u:g:" ++ "A:P:"
    /\ comb_helpstr g' =
       comb_helpstr (example_started []) ++ helpstr os_always
       ++ helpstr os_user ++ helpstr os_vty
    /\ comb_lo g' =
       (comb_lo (example_started []) ++ lo_always ++ lo_user ++ lo_vty)%list.
Proof.
  apply (proj1 (frr_preinit_appends_fragments 1 2)
           example_daemon 1 "/usr/sbin/zebra" [] (example_started [])).
  - repeat split; apply Nat.leb_le; vm_compute; reflexivity.
  - repeat split; apply Nat.leb_le; vm_compute; reflexivity.
Defined.

(** *** The port value *)

(** C2, counterexample.  "-1" is not an unsigned integer, yet the port
    option accepts it without an error; "08" is a run of decimal digits,
    yet it is rejected, [strtoul] reading an octal 0 and stopping at 8. *)
Lemma minus_one_accepted_leading_zero_rejected :
  (spec_unsigned_integer "-1" = false
   /\ exists g',
       frr_opt_1 (chr "P") (Some "-1") (example_started []) = Return 0 g'
       /\ errors g' = errors (example_started []))
  /\ (spec_unsigned_integer "08" = true
      /\ exists g',
          frr_opt_1 (chr "P") (Some "08") (example_started []) = Return 0 g'
          /\ errors g' = errors (example_started []) + 1).
Proof.
  split; (split; [reflexivity|]); eexists;
    (split; [vm_compute; reflexivity | reflexivity]).
Qed.

(** C2, instance: the port "2601". *)
Lemma vty_port_accepts_what_strtoul_consumes_witness :
  (exists g',
      frr_opt_1 (chr "P") (Some "2601") (example_started []) = Return 0 g'
      /\ errors g' =
         errors (example_started [])
         + (if port_text_invalid "2601" then 1 else 0)
      /\ (errors g' = errors (example_started []) <->
          "2601" <> "" /\ snd (strtoul "2601") = ""))
  /\ port_text_invalid "2601" = false.
Proof.
  split.
  - apply (proj1 (vty_port_accepts_what_strtoul_consumes
                    1 2 bug_address version_of to_port)
             (example_started []) example_descriptor "2601");
      reflexivity.
  - apply (proj1 (proj2 (vty_port_accepts_what_strtoul_consumes
                           1 2 bug_address version_of to_port)) "2601").
    + reflexivity.
    + right. intros r H. discriminate H.
Defined.

(** C10, instance: the port "12x".  The port read back is 12, the flag is
    raised and one error is counted; a later [-P 2601] is a duplicate and
    the port stays 12. *)
Lemma invalid_port_is_stored_and_marks_set_witness :
  exists g1 d1,
    frr_opt_1 (chr "P") (Some "12x") (example_started []) = Return 0 g1
    /\ di g1 = Some d1
    /\ vty_port d1 = 12
    /\ vty_port_set g1 = 1
    /\ errors g1 = 1
    /\ exists g2 d2,
        frr_opt_1 (chr "P") (Some "2601") g1 = Return 0 g2
        /\ di g2 = Some d2
        /\ vty_port d2 = 12
        /\ errors g2 = 2
        /\ stderr_buf g2 =
           stderr_buf g1 ++ "-P option specified more than once!" ++ nl.
Proof.
  destruct (invalid_port_is_stored_and_marks_set
              1 2 bug_address version_of to_port
              (example_started []) example_descriptor "12x"
              eq_refl eq_refl eq_refl eq_refl)
    as (g1 & d1 & E & Hd1 & Hport & _ & Hset & Herr & _ & Hagain).
  destruct (Hagain (Some "2601"))
    as (g2 & d2 & E2 & Hd2 & Hport2 & _ & _ & Herr2 & Hmsg).
  exists g1, d1.
  split; [exact E|]. split; [exact Hd1|]. split; [exact Hport|].
  split; [exact Hset|]. split; [exact Herr|].
  exists g2, d2.
  split; [exact E2|]. split; [exact Hd2|]. split; [exact Hport2|].
  split; [exact Herr2 | exact Hmsg].
Defined.

(** *** The scan *)



(** C4, counterexample.  An unrecognized option (the scanner's [?]) is
    handed back to the caller with an error count of 0, and when the caller
    resumes the scan it ends with [-1] and no help exit: the dispatcher does
    not accumulate it. *)
Lemma unrecognized_option_is_not_counted :
  exists g1 g2,
    frr_getopt_1 false (example_started [mk_getopt (chr "?") None None])
    = Return (chr "?", None) g1
    /\ errors g1 = 0
    /\ frr_getopt_1 false g1 = Return (-1, None) g2
    /\ errors g2 = 0.
Proof.
  eexists. eexists. split; [vm_compute; reflexivity|].
  split; [reflexivity|]. split; [vm_compute; reflexivity | reflexivity].
Qed.

(** C4, instance: a repeated address; the code [?] for the dispatcher and
    for [frr_getopt]; and a scan that ends after a malformed port, whose
    exit writes "Invalid options." and the help text to standard error. *)
Lemma errors_counted_failure_exit_at_end_witness :
  (exists g',
      frr_opt_1 (chr "A") (Some "::1")
        (set_vty_addr_set 1 (example_started []))
      = Return 0 g'
      /\ errors g' = 1)
  /\ frr_opt_1 (chr "?") None (example_started []) =
     Return 1 (example_started [])
  /\ (exists g1,
        frr_getopt_1 false
          (example_started
             [mk_getopt (chr "?") None None; example_result (chr "A") "::1"])
        = Return (chr "?", None) g1
        /\ errors g1 = 0
        /\ getopt_pending g1 = [example_result (chr "A") "::1"])
  /\ (exists g' g1 d1,
        frr_getopt_1 false (example_started [example_result (chr "P") "x"])
        = Exit 1 g'
        /\ errors g' <> 0
        /\ errors g1 = errors g'
        /\ di g1 = Some d1
        /\ stderr_buf g' =
           stderr_buf g1 ++ ("Invalid options." ++ nl ++ nl)
           ++ help_text bug_address stderr d1 g1
        /\ stdout_buf g' = ""
        /\ getopt_pending g' = []).
Proof.
  split; [|split; [|split]].
  - destruct (proj1 (proj2 (errors_counted_failure_exit_at_end
                              1 2 bug_address version_of to_port))
                (example_result (chr "A") "::1")
                (set_vty_addr_set 1 (example_started []))
                example_descriptor eq_refl eq_refl)
      as (g' & E & _ & Hdup & _).
    exists g'. split; [exact E | exact (Hdup eq_refl)].
  - apply (proj1 (proj2 (proj2 (errors_counted_failure_exit_at_end
                                  1 2 bug_address version_of to_port)))).
    vm_compute. intuition discriminate.
  - destruct (proj1 (proj2 (proj2 (proj2
                (errors_counted_failure_exit_at_end
                   1 2 bug_address version_of to_port))))
                false
                (example_started
                   [mk_getopt (chr "?") None None;
                    example_result (chr "A") "::1"])
                (mk_getopt (chr "?") None None)
                [example_result (chr "A") "::1"]
                (example_started_room _) eq_refl
                ltac:(vm_compute; intuition discriminate)
                ltac:(discriminate))
      as (g1 & E & Herr & Hp & _).
    exists g1. split; [exact E|]. split; [exact Herr | exact Hp].
  - assert (E : exists g',
               frr_getopt_1 false
                 (example_started [example_result (chr "P") "x"])
               = Exit 1 g')
      by (eexists; vm_compute; reflexivity).
    destruct E as (g' & E).
    destruct (proj2 (proj2 (proj2 (proj2 (proj2
                (errors_counted_failure_exit_at_end
                   1 2 bug_address version_of to_port)))))
                false (example_started [example_result (chr "P") "x"]) 1 g'
                E ltac:(discriminate))
      as (_ & Herr & (lidx & g1 & d1 & _ & He & Hd & Hse & Hso) & Hend).
    exists g', g1, d1.
    split; [exact E|]. split; [exact Herr|]. split; [exact He|].
    split; [exact Hd|]. split; [exact Hse|]. split; [exact Hso|].
    apply Hend. repeat constructor. discriminate.
Defined.

(** C7, instance: [-h] in a state with pending results, and [-v] after a
    malformed port. *)
Lemma help_and_version_exit_zero_witness :
  (frr_opt_1 (chr "h") None
        (example_started
           [example_result (chr "P") "x"; mk_getopt (chr "v") None None])
      = Exit 0
          (set_stdout_buf
             (stdout_buf
                (example_started
                   [example_result (chr "P") "x";
                    mk_getopt (chr "v") None None])
              ++ help_text bug_address stdout example_descriptor
                   (example_started
                      [example_result (chr "P") "x";
                       mk_getopt (chr "v") None None]))
             (example_started
                [example_result (chr "P") "x";
                 mk_getopt (chr "v") None None])))
  /\ (exists g',
        frr_getopt_1 false
          (example_started
             [example_result (chr "P") "x"; mk_getopt (chr "v") None None])
        = Exit 0 g'
        /\ stdout_buf g' = "" ++ "zebra version 2.1"
        /\ 0 <= errors g').
Proof.
  split.
  - apply (proj1 (help_and_version_exit_zero
                    1 2 bug_address version_of to_port
                    (example_started
                       [example_result (chr "P") "x";
                        mk_getopt (chr "v") None None])
                    example_descriptor eq_refl) None).
  - apply (proj2 (proj2 (help_and_version_exit_zero
                           1 2 bug_address version_of to_port
                           (example_started
                              [example_result (chr "P") "x";
                               mk_getopt (chr "v") None None])
                           example_descriptor eq_refl))
             false [example_result (chr "P") "x"]
             (mk_getopt (chr "v") None None) []).
    + apply example_started_room.
    + reflexivity.
    + repeat constructor.
    + right. reflexivity.
Defined.

(** *** Disabled listener, user and group *)

(** C8, instance: a daemon with flag word 2. *)
Lemma no_tcpvty_addr_port_unrecognized_witness :
  (exists g',
      frr_preinit 1 2 (mk_di 2 "" "" None None None 0 None None) 1
        ["/usr/sbin/ospfd"] (initial_globals [])
      = Return tt g'
      /\ str_mem "A" (comb_optstr g') = false
      /\ str_mem "P" (comb_optstr g') = false
      /\ Forall (fun o => name o <> "vty_addr" /\ name o <> "vty_port"
                          /\ val o <> chr "A" /\ val o <> chr "P")
           (comb_lo g'))
  /\ frr_opt_1 (chr "A") (Some "127.0.0.1")
       (set_di (Some (mk_di 2 "ospfd" "" None None None 0 None None))
          (initial_globals []))
     = Return 1
         (set_di (Some (mk_di 2 "ospfd" "" None None None 0 None None))
            (initial_globals []))
  /\ frr_opt_1 (chr "P") (Some "127.0.0.1")
       (set_di (Some (mk_di 2 "ospfd" "" None None None 0 None None))
          (initial_globals []))
     = Return 1
         (set_di (Some (mk_di 2 "ospfd" "" None None None 0 None None))
            (initial_globals [])).
Proof.
  split.
  - apply (proj1 (no_tcpvty_addr_port_unrecognized
                    1 2 bug_address version_of to_port
                    (mk_di 2 "" "" None None None 0 None None)
                    ltac:(discriminate))).
  - apply (proj2 (proj2 (no_tcpvty_addr_port_unrecognized
                           1 2 bug_address version_of to_port
                           (mk_di 2 "" "" None None None 0 None None)
                           ltac:(discriminate)))
             _ (mk_di 2 "ospfd" "" None None None 0 None None)
             (Some "127.0.0.1")); reflexivity.
Defined.

(** C9, instance: [-u frr -u quagga].  The user read back is [frr] after
    the first option and [quagga] after the second, the group is left
    alone, no error is counted and nothing is written. *)
Lemma user_group_overwrite_silently_witness :
  exists g1 d1 p1 g2 d2 p2,
    frr_opt_1 (chr "u") (Some "frr") (example_started []) = Return 0 g1
    /\ di g1 = Some d1 /\ privs d1 = Some p1
    /\ user p1 = Some "frr"
    /\ frr_opt_1 (chr "u") (Some "quagga") g1 = Return 0 g2
    /\ di g2 = Some d2 /\ privs d2 = Some p2
    /\ user p2 = Some "quagga" /\ group p2 = None
    /\ errors g2 = 0
    /\ stderr_buf g2 = "".
Proof.
  destruct (proj1 (user_group_overwrite_silently
                     1 2 bug_address version_of to_port
                     (example_started []) example_descriptor
                     (mk_privs None None) (Some "frr")
                     eq_refl eq_refl eq_refl))
    as (g1 & d1 & p1 & E1 & Hd1 & Hp1 & Hu1 & _ & _ & _ & Hagain).
  destruct (Hagain (Some "quagga"))
    as (g2 & d2 & p2 & E2 & Hd2 & Hp2 & Hu2 & Hg2 & He2 & Hs2).
  exists g1, d1, p1, g2, d2, p2.
  split; [exact E1|]. split; [exact Hd1|]. split; [exact Hp1|].
  split; [exact Hu1|]. split; [exact E2|]. split; [exact Hd2|].
  split; [exact Hp2|]. split; [exact Hu2|]. split; [exact Hg2|].
  split; [exact He2 | exact Hs2].
Defined.

(** *** The control socket path *)

(** C6, counterexample.  With [MAXPATHLEN] 4096 and an override directory
    of 4200 characters, the path the socket is bound at is cut to 4095
    characters: it is not the directory joined with [foo.vty]. *)
Lemma long_override_is_truncated :
  exists g' call,
    frr_vty_serv 4096 "/run/foo.vty"
      (set_di (Some (set_vty_sock_path (Some (str_repeat "d" 4200))
                       example_descriptor))
         (initial_globals []))
    = Return tt g'
    /\ vty_serv_calls g' = [call]
    /\ String.length (serv_path call) = 4095%nat
    /\ serv_path call <> str_repeat "d" 4200 ++ "/" ++ "foo.vty".
Proof.
  eexists. eexists. split; [vm_compute; reflexivity|].
  split; [reflexivity|]. split; [vm_compute; reflexivity|].
  intros H. apply (f_equal String.length) in H. vm_compute in H.
  discriminate H.
Qed.

(** C6, instance: the base path [/run/foo.vty] without an override binds
    [/run/foo.vty], and with the override [/tmp/ov] binds
    [/tmp/ov/foo.vty]. *)
Lemma frr_vty_serv_effective_path_witness :
  (exists g' call,
      frr_vty_serv 4096 "/run/foo.vty" (example_started []) = Return tt g'
      /\ vty_serv_calls g' = [call]
      /\ serv_addr call = None /\ serv_port call = 0
      /\ serv_path call = "/run/foo.vty")
  /\ (exists g' call,
        frr_vty_serv 4096 "/run/foo.vty"
          (set_di (Some (set_vty_sock_path (Some "/tmp/ov")
                           example_descriptor))
             (example_started []))
        = Return tt g'
        /\ vty_serv_calls g' = [call]
        /\ serv_addr call = None /\ serv_port call = 0
        /\ serv_path call = "/tmp/ov/foo.vty").
Proof.
  split.
  - destruct (frr_vty_serv_effective_path 4096 (example_started [])
                example_descriptor "/run/foo.vty" eq_refl)
      as (g' & call & E & Hcalls & Ha & Hp & _ & Hnone & _).
    exists g', call.
    split; [exact E|]. split; [exact Hcalls|]. split; [exact Ha|].
    split; [exact Hp | exact (Hnone eq_refl)].
  - destruct (frr_vty_serv_effective_path 4096
                (set_di (Some (set_vty_sock_path (Some "/tmp/ov")
                                 example_descriptor))
                   (example_started []))
                (set_vty_sock_path (Some "/tmp/ov") example_descriptor)
                "/run/foo.vty" eq_refl)
      as (g' & call & E & Hcalls & Ha & Hp & _ & _ & Hshort & _).
    exists g', call.
    split; [exact E|]. split; [exact Hcalls|]. split; [exact Ha|].
    split; [exact Hp|].
    apply (Hshort "/tmp/ov" eq_refl).
    apply Nat.ltb_lt. vm_compute. reflexivity.
Defined.

(** ** Instances of the further properties *)

(** X1, instance: the user/group fragment on the empty table. *)
Lemma opt_extend_touches_only_the_table_witness :
  comb_optstr (append_fragment os_user (initial_globals [])) = "" ++ "u:g:"
  /\ comb_helpstr (append_fragment os_user (initial_globals []))
     = "" ++ helpstr os_user
  /\ comb_lo (append_fragment os_user (initial_globals []))
     = ([] ++ lo_user)%list
  /\ same_outside_table (initial_globals [])
       (append_fragment os_user (initial_globals [])).
Proof.
  refine (opt_extend_touches_only_the_table
            os_user (initial_globals []) tt
            (append_fragment os_user (initial_globals [])) _).
  vm_compute. reflexivity.
Defined.

(** X2, instance: the mandatory fragment, then the user/group fragment. *)
Lemma registration_order_is_table_order_witness :
  comb_optstr (append_all [os_always; os_user] (initial_globals []))
  = comb_optstr (initial_globals [])
    ++ concat_strings (map optstr [os_always; os_user]).
Proof.
  refine (proj1 (proj2 registration_order_is_table_order
                   [os_always; os_user] (initial_globals [])
                   (append_all [os_always; os_user] (initial_globals []))
                   _ _)).
  - repeat split; apply Nat.leb_le; vm_compute; reflexivity.
  - vm_compute. reflexivity.
Defined.

(** X3, instance: one fragment of 64 long options on the empty table. *)
Lemma full_table_breaks_frr_getopt_witness :
  exists g',
    opt_extend
      (mk_optspec "" "" (repeat (mk_option "opt" no_argument None 0) 64))
      (initial_globals [])
    = Return tt g'
    /\ forall longindex, frr_getopt_1 longindex g' = Undefined.
Proof.
  apply (proj2 (full_table_breaks_frr_getopt
                  1 2 bug_address version_of to_port)).
  - repeat split; apply Nat.leb_le; vm_compute; reflexivity.
  - vm_compute. reflexivity.
  - vm_compute. reflexivity.
Defined.

(** X4, instance: [frr_preinit] at process start with
    [/usr/sbin/zebra]; the program name read back is [zebra]. *)
Lemma frr_preinit_installs_descriptor_witness :
  exists d',
    di (example_started []) = Some d'
    /\ progname d' = "zebra"
    /\ flags d' = flags example_daemon
    /\ privs d' = privs example_daemon
    /\ umask_mode (example_started []) = 23
    /\ errors (example_started []) = errors (initial_globals []).
Proof.
  destruct (proj1 (frr_preinit_installs_descriptor 1 2)
              example_daemon 1 "/usr/sbin/zebra" [] (initial_globals [])
              (example_started [])
              ltac:(repeat split; apply Nat.leb_le; vm_compute; reflexivity)
              (example_started_by_preinit []))
    as (dir & name & d' & Hd & Hname & Hseg & _ & _ & _ & Hfl & _ & _ & _
        & _ & _ & _ & Hpr & _ & Hum & Herr & _).
  exists d'.
  split; [exact Hd|]. split; [|repeat split; assumption].
  rewrite Hname, Hseg. reflexivity.
Defined.

(** X5, instance: with the override [/tmp/ov], the base paths
    [/run/foo.vty] and [foo.vty] both bind [/tmp/ov/foo.vty]. *)
Lemma override_uses_only_final_segment_witness :
  exists g' call,
    frr_vty_serv 4096 ("/run" ++ "/" ++ "foo.vty")
      (set_di (Some (set_vty_sock_path (Some "/tmp/ov") example_descriptor))
         (example_started []))
    = Return tt g'
    /\ frr_vty_serv 4096 "foo.vty"
         (set_di (Some (set_vty_sock_path (Some "/tmp/ov")
                          example_descriptor))
            (example_started []))
       = Return tt g'
    /\ vty_serv_calls g' = [call]
    /\ serv_path call = "/tmp/ov/foo.vty".
Proof.
  destruct (override_uses_only_final_segment 4096
              (set_di (Some (set_vty_sock_path (Some "/tmp/ov")
                               example_descriptor))
                 (example_started []))
              (set_vty_sock_path (Some "/tmp/ov") example_descriptor)
              "/tmp/ov" "/run" "foo.vty" eq_refl eq_refl eq_refl)
    as (g' & call & tail & E1 & E2 & Hcalls & _ & _ & Hpath & _).
  exists g', call.
  split; [exact E1|]. split; [exact E2|]. split; [exact Hcalls|].
  rewrite Hpath. vm_compute. reflexivity.
Defined.

(** X6, instance: the help exit with status 1. *)
Lemma frr_help_exit_streams_witness :
  exists g' body,
    @frr_help_exit bug_address unit 1 (example_started []) = Exit 1 g'
    /\ (1 = 0 ->
        stdout_buf g' =
          stdout_buf (example_started []) ++ body
          ++ bug_footer bug_address
        /\ stderr_buf g' = stderr_buf (example_started []))
    /\ (1 <> 0 ->
        stderr_buf g' =
          stderr_buf (example_started [])
          ++ ("Invalid options." ++ nl ++ nl) ++ body
          ++ bug_footer bug_address
        /\ stdout_buf g' = stdout_buf (example_started []))
    /\ (printhelp example_descriptor = None ->
        body = usage_text example_descriptor
                 (comb_helpstr (example_started [])))
    /\ (forall render,
          printhelp example_descriptor = Some render ->
          body = render (if 1 =? 0 then stdout else stderr))
    /\ di g' = di (example_started [])
    /\ errors g' = errors (example_started [])
    /\ comb_optstr g' = comb_optstr (example_started [])
    /\ comb_lo g' = comb_lo (example_started [])
    /\ comb_helpstr g' = comb_helpstr (example_started [])
    /\ getopt_pending g' = getopt_pending (example_started []).
Proof.
  apply (proj1 (frr_help_exit_streams bug_address)
           unit 1 (example_started []) example_descriptor eq_refl).
Defined.

(** X7, instance: a malformed port, counted with its diagnostic. *)
Lemma dispatcher_declines_without_effect_witness :
  exists msg,
    stderr_buf (port_rejected to_port "x" example_descriptor
                  (example_started []))
    = stderr_buf (example_started []) ++ msg
    /\ (msg = "" <->
        errors (port_rejected to_port "x" example_descriptor
                  (example_started []))
        = errors (example_started [])).
Proof.
  refine (proj1 (proj2 (proj2 (proj2 (proj2
            (proj1 (dispatcher_declines_without_effect
                      1 2 bug_address version_of to_port)
               (chr "P") (Some "x") (example_started []) 0
               (port_rejected to_port "x" example_descriptor
                  (example_started [])) _)))))).
  vm_compute. reflexivity.
Defined.

(** X8, instance: a daemon with flag word 1. *)
Lemma no_privsep_user_group_unrecognized_witness :
  frr_opt_1 (chr "u") (Some "frr")
    (set_di (Some (mk_di 1 "ospfd" "" None None None 0 None None))
       (initial_globals []))
  = Return 1
      (set_di (Some (mk_di 1 "ospfd" "" None None None 0 None None))
         (initial_globals []))
  /\ frr_opt_1 (chr "g") (Some "frr")
       (set_di (Some (mk_di 1 "ospfd" "" None None None 0 None None))
          (initial_globals []))
     = Return 1
         (set_di (Some (mk_di 1 "ospfd" "" None None None 0 None None))
            (initial_globals [])).
Proof.
  apply (proj2 (no_privsep_user_group_unrecognized
                  1 2 bug_address version_of to_port
                  (mk_di 1 "" "" None None None 0 None None)
                  ltac:(discriminate))
           _ (mk_di 1 "ospfd" "" None None None 0 None None) (Some "frr"));
    reflexivity.
Defined.

(** X9, instance: the state at process start. *)
Lemma null_descriptor_is_undefined_witness :
  frr_vty_serv 4096 "/run/foo.vty" (initial_globals []) = Undefined.
Proof.
  apply (proj1 (proj2 (null_descriptor_is_undefined
                         1 2 4096 bug_address version_of to_port
                         (initial_globals []) eq_refl))).
Defined.

(** X10, instance: an address, then an option of the daemon's own. *)
Lemma frr_getopt_return_summary_witness :
  exists g',
    frr_getopt_1 false
      (example_started
         [example_result (chr "A") "::1"; mk_getopt (chr "d") None None])
    = Return (chr "d", None) g'
    /\ (chr "d" <> -1 ->
        exists optarg, frr_opt_1 (chr "d") optarg g' = Return 1 g').
Proof.
  eexists. split; [vm_compute; reflexivity|].
  refine (proj1 (proj2 (frr_getopt_return_summary
                          1 2 bug_address version_of to_port false
                          (example_started
                             [example_result (chr "A") "::1";
                              mk_getopt (chr "d") None None])
                          (chr "d") None _ _))).
  vm_compute. reflexivity.
Defined.


(** X12, instance: a malformed port followed by [-h]. *)
Lemma frr_getopt_is_defined_witness :
  frr_getopt_1 false
    (example_started
       [example_result (chr "P") "x"; mk_getopt (chr "h") None None])
  <> Undefined.
Proof.
  apply (frr_getopt_is_defined
           1 2 bug_address version_of to_port false
           (example_started
              [example_result (chr "P") "x"; mk_getopt (chr "h") None None])
           example_descriptor eq_refl (example_started_room _)).
  - intros _. discriminate.
  - apply Forall_cons; [intros _; discriminate|].
    apply Forall_cons; [|apply Forall_nil].
    intros H. vm_compute in H. discriminate H.
Defined.

(** X13, instance: two socket paths and two users. *)
Lemma first_occurrence_kept_last_user_kept_witness :
  exists g' d',
    (frr_getopt_1 false
       (example_started
          [example_result OPTION_VTYSOCK "/tmp/a";
           example_result (chr "u") "frr";
           example_result OPTION_VTYSOCK "/tmp/b";
           example_result (chr "u") "quagga"])
     = Return (-1, None) g'
     \/ frr_getopt_1 false
          (example_started
             [example_result OPTION_VTYSOCK "/tmp/a";
              example_result (chr "u") "frr";
              example_result OPTION_VTYSOCK "/tmp/b";
              example_result (chr "u") "quagga"])
        = Exit 1 g')
    /\ di g' = Some d'
    /\ vty_sock_path d' = Some "/tmp/a"
    /\ vty_addr d' = None
    /\ vty_port d' = 0
    /\ user_of d' = Some "quagga"
    /\ group_of d' = None.
Proof.
  apply (first_occurrence_kept_last_user_kept
           1 2 bug_address version_of to_port false
           (example_started
              [example_result OPTION_VTYSOCK "/tmp/a";
               example_result (chr "u") "frr";
               example_result OPTION_VTYSOCK "/tmp/b";
               example_result (chr "u") "quagga"])
           example_descriptor eq_refl (example_started_room _)).
  repeat constructor.
Defined.

(** X14, instance: the code of an option of the daemon's own. *)
Lemma built_in_codes_never_reach_caller_witness :
  exists g',
    frr_getopt_1 false (example_started [mk_getopt (chr "d") None None])
    = Return (chr "d", None) g'
    /\ chr "d" <> chr "h" /\ chr "d" <> chr "v"
    /\ chr "d" <> OPTION_VTYSOCK
    /\ (Z.land (flags example_descriptor) 2 = 0 ->
        chr "d" <> chr "A" /\ chr "d" <> chr "P")
    /\ (Z.land (flags example_descriptor) 1 = 0 ->
        chr "d" <> chr "u" /\ chr "d" <> chr "g").
Proof.
  eexists. split; [vm_compute; reflexivity|].
  refine (built_in_codes_never_reach_caller
            1 2 bug_address version_of to_port false
            (example_started [mk_getopt (chr "d") None None])
            example_descriptor (chr "d") None _ eq_refl _).
  vm_compute. reflexivity.
Defined.

(** X15, instance: a daemon's [-d] option. *)
Lemma registered_help_is_printed_witness :
  exists g1 g2,
    frr_opt_add "d" [] "  -d, --daemon  Run in the background"
      (example_started [])
    = Return tt g1
    /\ frr_opt_1 (chr "h") None g1 = Exit 0 g2
    /\ stdout_buf g2 =
       stdout_buf (example_started [])
       ++ usage_text example_descriptor
            (comb_helpstr (example_started [])
             ++ "  -d, --daemon  Run in the background")
       ++ bug_footer bug_address
    /\ usage_text example_descriptor
         (comb_helpstr (example_started [])
          ++ "  -d, --daemon  Run in the background")
       = usage_text example_descriptor ""
         ++ comb_helpstr (example_started [])
         ++ "  -d, --daemon  Run in the background"
    /\ stderr_buf g2 = stderr_buf (example_started []).
Proof.
  apply (registered_help_is_printed
           1 2 bug_address version_of to_port
           "d" [] "  -d, --daemon  Run in the background" None
           (example_started []) example_descriptor).
  - repeat split; apply Nat.leb_le; vm_compute; reflexivity.
  - vm_compute. reflexivity.
  - reflexivity.
  - reflexivity.
Defined.

(** X16, instance: process start with one port option pending. *)
Lemma preinit_then_getopt_is_defined_witness :
  exists g1,
    frr_preinit 1 2 example_daemon 1 ["/usr/sbin/zebra"]
      (initial_globals [example_result (chr "P") "2601"])
    = Return tt g1
    /\ getopt_pending g1 = [example_result (chr "P") "2601"]
    /\ frr_getopt_1 false g1 <> Undefined.
Proof.
  apply (preinit_then_getopt_is_defined
           1 2 bug_address version_of to_port
           example_daemon 1 "/usr/sbin/zebra" []
           [example_result (chr "P") "2601"] false).
  - intros _. discriminate.
  - apply Forall_cons; [intros _; discriminate | apply Forall_nil].
Defined.

(** X17, instance: the port 2601, read back as 2601. *)
Lemma decimal_port_is_stored_witness :
  exists g' d',
    frr_opt_1 (chr "P") (Some "2601") (example_started []) = Return 0 g'
    /\ di g' = Some d'
    /\ vty_port d' = 2601
    /\ errors g' = errors (example_started [])
    /\ stderr_buf g' = stderr_buf (example_started [])
    /\ vty_port_set g' = 1.
Proof.
  destruct (decimal_port_is_stored
              1 2 bug_address version_of to_port
              (Decimal.D2 (Decimal.D6 (Decimal.D0 (Decimal.D1 Decimal.Nil))))
              (example_started []) example_descriptor
              eq_refl eq_refl eq_refl eq_refl)
    as (g' & d' & E & Hd & Hport & _ & Herr & Hout & Hset).
  exists g', d'.
  split; [exact E|]. split; [exact Hd|]. split; [exact Hport|].
  split; [exact Herr|]. split; [exact Hout | exact Hset].
Defined.
